(** * Directus query compiler: [apply-query.ts], [get-default-value.ts]
    and the nested writes of the payload service.

  The TypeScript sources are embedded as executable Rocq functions.
  JavaScript values are a closed inductive type, objects are association
  lists kept in [Object.entries] order, exceptions are an error monad and
  the Knex query builder is the record of what was registered on it. *)

From Stdlib Require Import String Ascii List ZArith Lia Bool Arith.
From Stdlib Require Import DecimalString.
Import ListNotations.
Local Open Scope list_scope.
Local Open Scope string_scope.

Set Implicit Arguments.
Set Warnings "-register-all".

(* ===================================================================== *)
(** * JavaScript values                                                   *)
(* ===================================================================== *)

Module JS.

(** The values a filter, a payload or a column default can hold.  Numbers
    are the integers among the doubles; the sources only compare them,
    test them for truthiness and, for paging, multiply and subtract
    them. *)
Inductive Value : Type :=
| VUndefined
| VNull
| VBool (b : bool)
| VNum (z : Z)
| VStr (s : string)
| VArr (items : list Value)
| VObj (props : list (string * Value)).

(** [Boolean(v)], also the test of [if (v)], [v || w] and [!v]. *)
Definition truthy (v : Value) : bool :=
  match v with
  | VUndefined | VNull => false
  | VBool b => b
  | VNum z => negb (Z.eqb z 0)
  | VStr s => negb (String.eqb s "")
  | VArr _ | VObj _ => true
  end.

(** [v === undefined] *)
Definition isUndefined (v : Value) : bool :=
  match v with VUndefined => true | _ => false end.

(** [v === false] *)
Definition isFalse (v : Value) : bool :=
  match v with VBool false => true | _ => false end.

(** lodash [isPlainObject]: object literals only. *)
Definition isPlainObject (v : Value) : bool :=
  match v with VObj _ => true | _ => false end.

(** lodash [isObject]: arrays and objects. *)
Definition isObject (v : Value) : bool :=
  match v with VObj _ | VArr _ => true | _ => false end.

(** [typeof v === 'string' || typeof v === 'number'] *)
Definition isStringOrNumber (v : Value) : bool :=
  match v with VStr _ | VNum _ => true | _ => false end.

(** lodash [isNil] *)
Definition isNil (v : Value) : bool :=
  match v with VUndefined | VNull => true | _ => false end.

(** [s.startsWith(p)] *)
Definition startsWith (p s : string) : bool := String.prefix p s.

(** [s.endsWith(p)] *)
Definition endsWith (p s : string) : bool :=
  let n := String.length s in
  let m := String.length p in
  (m <=? n)%nat && String.eqb (String.substring (n - m) m s) p.

(** [s.slice(1, -1)] *)
Definition slice_1_m1 (s : string) : string :=
  String.substring 1 (String.length s - 2) s.

(** [s.split(c)] for a one-character separator. *)
Fixpoint split (c : ascii) (s : string) : list string :=
  match s with
  | EmptyString => [EmptyString]
  | String a rest =>
      if Ascii.eqb a c then EmptyString :: split c rest
      else match split c rest with
           | [] => [String a EmptyString]
           | hd :: tl => String a hd :: tl
           end
  end.

Definition colon : ascii := ":"%char.

(** Decimal rendering of an array index, and of a number whose text is its
    digits: one below [10^21] in magnitude. *)
Definition natToString (n : nat) : string :=
  NilEmpty.string_of_uint (Nat.to_uint n).

Definition numToString (z : Z) : string :=
  NilZero.string_of_int (Z.to_int z).

Fixpoint joinWith (sep : string) (l : list string) : string :=
  match l with
  | [] => ""
  | [x] => x
  | x :: tl => x ++ sep ++ joinWith sep tl
  end.

(** [String(v)], the conversion of template literals and property keys. *)
Fixpoint toString (v : Value) : string :=
  match v with
  | VUndefined => "undefined"
  | VNull => "null"
  | VBool true => "true"
  | VBool false => "false"
  | VNum z => numToString z
  | VStr s => s
  | VArr items =>
      joinWith ","
        (List.map (fun x => match x with
                            | VUndefined | VNull => ""
                            | _ => toString x
                            end) items)
  | VObj _ => "[object Object]"
  end.

Fixpoint indexed {A : Type} (i : nat) (l : list A) : list (string * A) :=
  match l with
  | [] => []
  | x :: tl => (natToString i, x) :: indexed (S i) tl
  end.

Fixpoint chars (s : string) : list string :=
  match s with
  | EmptyString => []
  | String a rest => String a EmptyString :: chars rest
  end.

(** [Object.entries(v)]; [None] is the TypeError raised on [null] and
    [undefined]. *)
Definition entries (v : Value) : option (list (string * Value)) :=
  match v with
  | VUndefined | VNull => None
  | VBool _ | VNum _ => Some []
  | VStr s => Some (indexed 0 (List.map VStr (chars s)))
  | VArr items => Some (indexed 0 items)
  | VObj props => Some props
  end.

(** [Object.keys(v)] *)
Definition keys (v : Value) : option (list string) :=
  option_map (List.map fst) (entries v).

(** [obj[key]] on own properties. *)
Fixpoint lookup (key : string) (props : list (string * Value)) : Value :=
  match props with
  | [] => VUndefined
  | (k, v) :: tl => if String.eqb k key then v else lookup key tl
  end.

(** [key in obj] *)
Fixpoint hasKey (key : string) (props : list (string * Value)) : bool :=
  match props with
  | [] => false
  | (k, _) :: tl => String.eqb k key || hasKey key tl
  end.

(** [obj[key] = v]: an existing property keeps its place, a new one is
    appended. *)
Fixpoint assign (key : string) (v : Value) (props : list (string * Value))
  : list (string * Value) :=
  match props with
  | [] => [(key, v)]
  | (k, w) :: tl =>
      if String.eqb k key then (k, v) :: tl else (k, w) :: assign key v tl
  end.

(** Numbers are IEEE 754 doubles; the model keeps the integers among them.
    [nearestDouble z] is what the double arithmetic returns where the exact
    result is the integer [z]: [z] itself up to [2^53] in magnitude, beyond
    that [z] rounded to 53 significant bits, ties to the even significand;
    [None] is the overflow to an infinity. *)
Definition maxDouble : Z := ((2 ^ 53 - 1) * 2 ^ 971)%Z.

Definition nearestDouble (z : Z) : option Z :=
  (let a := Z.abs z in
   if a <=? 2 ^ 53 then Some z
   else
     let e := Z.log2 a - 52 in
     let q := a / 2 ^ e in
     let r := a mod 2 ^ e in
     let half := 2 ^ (e - 1) in
     let q' := if r <? half then q
               else if half <? r then q + 1
               else if Z.even q then q else q + 1 in
     if maxDouble <? q' * 2 ^ e then None else Some (Z.sgn z * (q' * 2 ^ e)))%Z.

(** [a - b] and [a * b] on numbers; an infinity stays one, the factors of
    the sources being non-zero. *)
Definition numberMinus (a b : Z) : option Z := nearestDouble (a - b)%Z.

Definition numberTimes (a : Z) (b : option Z) : option Z :=
  match b with
  | Some y => nearestDouble (a * y)%Z
  | None => None
  end.

End JS.
Export JS.

(* ===================================================================== *)
(** * Exceptions and the monad of the compiler                            *)
(* ===================================================================== *)

(** The exceptions of [../exceptions] the sources throw, the TypeError the
    runtime raises on a property access on [null] or [undefined], the
    ReferenceError it raises on a name that is not in scope, and the plain
    [Error] the query builder throws. *)
Inductive Exception : Type :=
| InvalidQueryException (message : string)
| InvalidPayloadException (message : string)
| ForbiddenException
| TypeError
| ReferenceError
| BuilderError (message : string).

Inductive Result (A : Type) : Type :=
| Ok (a : A)
| Throw (e : Exception).
Arguments Ok {A} a.
Arguments Throw {A} e.

Definition isForbidden (e : Exception) : bool :=
  match e with ForbiddenException => true | _ => false end.

(** A computation over a mutable state [S] that may throw. *)
Definition M (S A : Type) : Type := S -> Result (A * S).

Definition ret {S A : Type} (a : A) : M S A := fun s => Ok (a, s).

Definition bind {S A B : Type} (m : M S A) (k : A -> M S B) : M S B :=
  fun s => match m s with
           | Ok (a, s') => k a s'
           | Throw e => Throw e
           end.

Definition throw {S A : Type} (e : Exception) : M S A := fun _ => Throw e.

Definition getState {S : Type} : M S S := fun s => Ok (s, s).

Definition modify {S : Type} (f : S -> S) : M S unit := fun s => Ok (tt, f s).

(** A pure step that may throw, run inside [M]. *)
Definition lift {S A : Type} (r : Result A) : M S A :=
  fun s => match r with Ok a => Ok (a, s) | Throw e => Throw e end.

Declare Scope js_scope.
Delimit Scope js_scope with js.
Notation "x <- m ;; k" := (bind m (fun x => k))
  (at level 61, m at next level, right associativity) : js_scope.
Notation "m ;;; k" := (bind m (fun _ => k))
  (at level 61, right associativity) : js_scope.
Local Open Scope js_scope.

(** [for (const x of l) body(x)] and [l.forEach(body)] *)
Fixpoint forEach {S A : Type} (body : A -> M S unit) (l : list A) : M S unit :=
  match l with
  | [] => ret tt
  | x :: tl => body x ;;; forEach body tl
  end.

(** Bind on plain results. *)
Definition rbind {A B : Type} (r : Result A) (k : A -> Result B) : Result B :=
  match r with Ok a => k a | Throw e => Throw e end.

(* ===================================================================== *)
(** * lodash [get] and [set] on nested objects                            *)
(* ===================================================================== *)

Module Lodash.

(** [set(object, path, value)] with an array path.  Every segment but the
    last descends into the object found there, or into a fresh [{}] when
    the property holds anything else; the last segment is assigned.  The
    alias map only ever holds strings and the objects [set] creates, so
    own string-keyed properties are all that is modelled. *)
Fixpoint set (object : list (string * Value)) (path : list string) (value : Value)
  : list (string * Value) :=
  match path with
  | [] => object
  | key :: rest =>
      match rest with
      | [] => assign key value object
      | _ :: _ =>
          let nested := match lookup key object with
                        | VObj props => props
                        | _ => []
                        end in
          assign key (VObj (set nested rest value)) object
      end
  end.

(** [get(object, path)]: [undefined] as soon as a segment is missing or the
    value reached is not an object; [undefined] for the empty path. *)
Fixpoint getFrom (object : Value) (path : list string) : Value :=
  match path with
  | [] => object
  | key :: rest =>
      match object with
      | VObj props => getFrom (lookup key props) rest
      | _ => VUndefined
      end
  end.

Definition get (object : list (string * Value)) (path : list string) : Value :=
  match path with
  | [] => VUndefined
  | _ :: _ => getFrom (VObj object) path
  end.

End Lodash.

(* ===================================================================== *)
(** * The schema: [../types]                                              *)
(* ===================================================================== *)

Record RelationMeta : Type := {
  one_field : option string;
  one_collection_field : option string;
  one_allowed_collections : option (list string);
  one_deselect_action : option string
}.

Record Relation : Type := {
  collection : string;
  field : string;
  related_collection : option string;
  meta : option RelationMeta
}.

Record FieldOverview : Type := {
  field_type : string;
  special : list string
}.

Record CollectionOverview : Type := {
  primary : string;
  fields : list (string * FieldOverview)
}.

Record SchemaOverview : Type := {
  collections : list (string * CollectionOverview);
  relations : list Relation
}.

Fixpoint findCollection (name : string) (cs : list (string * CollectionOverview))
  : option CollectionOverview :=
  match cs with
  | [] => None
  | (k, c) :: tl => if String.eqb k name then Some c else findCollection name tl
  end.

(** [schema.collections[name].primary]; the property access on a missing
    collection is a TypeError. *)
Definition primaryOf (schema : SchemaOverview) (name : string) : Result string :=
  match findCollection name (collections schema) with
  | Some c => Ok (primary c)
  | None => Throw TypeError
  end.

(** [schema.collections[relation.related_collection!].primary].  The
    assertion [!] checks nothing at run time: a [null] related collection
    indexes [schema.collections] with [null], which finds nothing. *)
Definition relatedPrimaryOf (schema : SchemaOverview) (relation : Relation)
  : Result string :=
  match related_collection relation with
  | Some c => primaryOf schema c
  | None => Throw TypeError
  end.

Inductive RelationType : Type := m2o | o2m | m2a.

Definition RelationType_eqb (a b : RelationType) : bool :=
  match a, b with
  | m2o, m2o | o2m, o2m | m2a, m2a => true
  | _, _ => false
  end.

Definition optStrEqb (o : option string) (s : string) : bool :=
  match o with Some x => String.eqb x s | None => false end.

(** [relation.meta?.one_field === name] *)
Definition oneFieldIs (relation : Relation) (name : string) : bool :=
  match meta relation with
  | Some m => optStrEqb (one_field m) name
  | None => false
  end.

(** Modelled from the spec: [./get-relation-type] is not among the sources.
    Section 4.1 classifies a matched relation as many-to-any if it has
    [one_allowed_collections], many-to-one if [relation.collection] is the
    context collection and [relation.field] the field, one-to-many if
    [relation.related_collection] is the context collection and
    [relation.meta.one_field] the field; [null] otherwise. *)
Definition getRelationType (relation : Relation) (collection_ field_ : string)
  : option RelationType :=
  if match meta relation with
     | Some m => match one_allowed_collections m with Some _ => true | None => false end
     | None => false
     end
  then Some m2a
  else if String.eqb (collection relation) collection_
          && String.eqb (field relation) field_
  then Some m2o
  else if optStrEqb (related_collection relation) collection_
          && oneFieldIs relation field_
  then Some o2m
  else None.

Definition isType (t : RelationType) (o : option RelationType) : bool :=
  match o with Some x => RelationType_eqb x t | None => false end.

(** The callback of every [relations.find(...)] of [apply-query.ts]. *)
Definition matchesRelation (parentCollection pathRoot : string) (relation : Relation)
  : bool :=
  (String.eqb (collection relation) parentCollection
     && String.eqb (field relation) pathRoot)
  || (optStrEqb (related_collection relation) parentCollection
        && oneFieldIs relation pathRoot).

Definition findRelation (schema : SchemaOverview) (parentCollection pathRoot : string)
  : option Relation :=
  List.find (matchesRelation parentCollection pathRoot) (relations schema).

(** [segment.split(':')[0]] and [segment.split(':')[1]] *)
Definition pathRootOf (segment : string) : string :=
  List.hd "" (split colon segment).

Definition pathScopeOf (segment : string) : option string :=
  List.nth_error (split colon segment) 1.

Definition scopeRequired : Exception :=
  InvalidQueryException
    "You have to provide a collection scope when filtering on a many-to-any item".

(** [if (!pathScope) throw ...]: the scope is there when the segment has a
    second, non-empty part. *)
Definition scopeOrThrow (segment : string) : Result string :=
  match pathScopeOf segment with
  | Some scope => if String.eqb scope "" then Throw scopeRequired else Ok scope
  | None => Throw scopeRequired
  end.

(* ===================================================================== *)
(** * The Knex query builder                                              *)
(* ===================================================================== *)

Module Knex.

(** [query.and] and [query.or]: the connective of the next clause. *)
Inductive Logical : Type := and_ | or_.

(** A join registered with [leftJoin]. *)
Inductive JoinClause : Type :=
| (** [leftJoin({ [alias]: table }, first, second)] *)
  LeftJoin (alias : string) (table : option string) (first second : string)
| (** [leftJoin({ [alias]: table }, (j) => j.on(first, '=', second)
        .andOnVal(column, '=', val))] *)
  LeftJoinOnVal (alias table first second : string)
                (column : option string) (val : string).

Inductive WhereMethod : Type :=
| where_ | whereNot | whereNull | whereNotNull | whereIn | whereNotIn
| whereBetween | whereNotBetween | whereRaw.

(** What the callback of a logical group closes over.  The alias map is the
    map of the pass: it is complete before the first clause is registered
    and no clause changes it. *)
Record GroupClosure : Type := {
  g_value : Value;
  g_collection : string;
  g_logical : Logical;
  g_subQuery : bool;
  g_aliasMap : list (string * Value)
}.

(** What the callback of a one-to-many [whereIn] closes over. *)
Record SubqueryClosure : Type := {
  s_relation : Relation;
  s_value : Value
}.

(** What the callback of [applySearch] closes over. *)
Record SearchClosure : Type := {
  q_fields : list (string * FieldOverview);
  q_collection : string;
  q_searchQuery : string
}.

Inductive WhereArgs : Type :=
| (** [({ [key]: value })] *)
  ArgObject (key : string) (value : Value)
| (** [(key)] *)
  ArgColumn (key : string)
| (** [(key, operator, value)] *)
  ArgCompare (key operator : string) (value : Value)
| (** [(key, values)] *)
  ArgValues (key : string) (values : list Value)
| (** [(raw, bindings)] *)
  ArgRaw (raw : string) (bindings : list Value)
| (** [((subQuery) => { ... })], the clauses of a logical group *)
  ArgGroup (closure : GroupClosure)
| (** [(key, (subQueryKnex) => { ... })], a correlated subquery *)
  ArgSubquery (key : string) (closure : SubqueryClosure)
| (** [(function () { ... })] of [applySearch] *)
  ArgSearch (closure : SearchClosure).

Record WhereClause : Type := {
  w_bool : Logical;
  w_method : WhereMethod;
  w_args : WhereArgs
}.

Record OrderBy : Type := {
  o_column : string;
  o_order : string
}.

(** The builder: one slot each for the table, the limit and the offset (a
    later call replaces the value), lists for the rest. *)
Record QueryBuilder : Type := {
  b_select : list (string * string);
  b_from : option string;
  b_order : list OrderBy;
  b_limit : option Z;
  b_offset : option Z;
  b_joins : list JoinClause;
  b_wheres : list WhereClause
}.

Definition empty : QueryBuilder :=
  {| b_select := []; b_from := None; b_order := []; b_limit := None;
     b_offset := None; b_joins := []; b_wheres := [] |}.

Definition orderBy (items : list OrderBy) (b : QueryBuilder) : QueryBuilder :=
  {| b_select := b_select b; b_from := b_from b;
     b_order := b_order b ++ items; b_limit := b_limit b;
     b_offset := b_offset b; b_joins := b_joins b; b_wheres := b_wheres b |}.

(** [limit(value)] and [offset(value)] read their argument with
    [parseInt(value, 10)]: [val] is what it returns, [None] for NaN, which
    the builder warns about and ignores.  [limit] takes any integer;
    [offset] throws on a negative one. *)
Definition limit (val : option Z) (b : QueryBuilder) : QueryBuilder :=
  match val with
  | None => b
  | Some n =>
      {| b_select := b_select b; b_from := b_from b; b_order := b_order b;
         b_limit := Some n; b_offset := b_offset b; b_joins := b_joins b;
         b_wheres := b_wheres b |}
  end.

Definition negativeOffset : Exception :=
  BuilderError "A non-negative integer must be provided to offset.".

Definition offset (val : option Z) (b : QueryBuilder) : Result QueryBuilder :=
  match val with
  | None => Ok b
  | Some n =>
      if (n <? 0)%Z then Throw negativeOffset
      else Ok {| b_select := b_select b; b_from := b_from b; b_order := b_order b;
                 b_limit := b_limit b; b_offset := Some n; b_joins := b_joins b;
                 b_wheres := b_wheres b |}
  end.

Definition select (alias column : string) (b : QueryBuilder) : QueryBuilder :=
  {| b_select := b_select b ++ [(alias, column)]; b_from := b_from b;
     b_order := b_order b; b_limit := b_limit b; b_offset := b_offset b;
     b_joins := b_joins b; b_wheres := b_wheres b |}.

Definition from (table : string) (b : QueryBuilder) : QueryBuilder :=
  {| b_select := b_select b; b_from := Some table; b_order := b_order b;
     b_limit := b_limit b; b_offset := b_offset b; b_joins := b_joins b;
     b_wheres := b_wheres b |}.

Definition leftJoin (j : JoinClause) (b : QueryBuilder) : QueryBuilder :=
  {| b_select := b_select b; b_from := b_from b; b_order := b_order b;
     b_limit := b_limit b; b_offset := b_offset b;
     b_joins := b_joins b ++ [j]; b_wheres := b_wheres b |}.

Definition addWhere (w : WhereClause) (b : QueryBuilder) : QueryBuilder :=
  {| b_select := b_select b; b_from := b_from b; b_order := b_order b;
     b_limit := b_limit b; b_offset := b_offset b; b_joins := b_joins b;
     b_wheres := b_wheres b ++ [w] |}.

End Knex.
Export Knex.

(* ===================================================================== *)
(** * Collaborators outside the repository                                *)
(* ===================================================================== *)

(** [nanoid]'s generator, [@directus/shared/utils].toArray, [Number],
    [String.prototype.toLowerCase], [uuid-validate], and the digits
    [parseInt] reads from the text of a number of magnitude [10^21] or more,
    which [Number.prototype.toString] prints in exponent form.  The
    generator is random: [generateAlias n] is its [n]-th draw. *)
Record Collaborators : Type := {
  generateAlias : nat -> string;
  toArray : Value -> list Value;
  toNumber : string -> option Z;
  toLowerCase : string -> string;
  validate : string -> bool;
  exponentLead : Z -> Z
}.

(** [query.sort], [query.limit], [query.offset], [query.page],
    [query.filter] and [query.search]; an absent member is [None], an
    absent filter [VUndefined]. *)
Record Query : Type := {
  sort : option (list OrderBy);
  limit : option Z;
  offset : option Z;
  page : option Z;
  filter : Value;
  search : option string
}.

(** The state of one [applyFilter] pass: the builder the clauses go to, the
    alias map of the pass, and the number of aliases drawn so far. *)
Record Pass : Type := {
  dbQuery : QueryBuilder;
  aliasMap : list (string * Value);
  drawn : nat
}.

Definition onQuery (f : QueryBuilder -> QueryBuilder) : M Pass unit :=
  modify (fun p => {| dbQuery := f (dbQuery p); aliasMap := aliasMap p;
                      drawn := drawn p |}).

(* ===================================================================== *)
(** * [apply-query.ts]                                                    *)
(* ===================================================================== *)

Definition dquote : string := String (Ascii.ascii_of_nat 34) EmptyString.

Definition notRelationalField (collection_ pathRoot : string) : Exception :=
  InvalidQueryException
    (dquote ++ collection_ ++ "." ++ pathRoot ++ dquote ++ " is not a relational field").

(** [l.includes(s)] *)
Definition memberOf (s : string) (l : list string) : bool :=
  List.existsb (String.eqb s) l.

(** [key === '_or' || key === '_and'] *)
Definition isLogicalKey (key : string) : bool :=
  String.eqb key "_or" || String.eqb key "_and".

(** [getFilterPath(key, value)].  [Object.keys] throws on [null] and
    [undefined]; the first key of an array or a string is an index, a number
    or a boolean has none, and none of them is a plain object; the recursion
    into an empty object is [getFilterPath(undefined, undefined)], which
    throws in turn. *)
Fixpoint getFilterPath (key : string) (value : Value) {struct value}
  : Result (list string) :=
  match value with
  | VUndefined | VNull => Throw TypeError
  | VObj [] => Throw TypeError
  | VObj ((k, v) :: _) =>
      if startsWith "_" k then Ok [key]
      else rbind (getFilterPath k v) (fun rest => Ok (key :: rest))
  | VBool _ | VNum _ | VStr _ | VArr _ => Ok [key]
  end.

(** [getOperation(key, value)]; the recursion into an empty object calls
    [startsWith] on [undefined]. *)
Fixpoint getOperation (key : string) (value : Value) {struct value}
  : Result (string * Value) :=
  if startsWith "_" key && negb (String.eqb key "_and") && negb (String.eqb key "_or")
  then Ok (key, value)
  else match value with
       | VObj [] => Throw TypeError
       | VObj ((k, v) :: _) => getOperation k v
       | _ => Ok ("_eq", value)
       end.

(** [value.some((subFilter) => Object.keys(subFilter).length === 0)] *)
Fixpoint someEmpty (subFilters : list Value) : Result bool :=
  match subFilters with
  | [] => Ok false
  | subFilter :: tl =>
      match keys subFilter with
      | None => Throw TypeError
      | Some [] => Ok true
      | Some (_ :: _) => someEmpty tl
      end
  end.

Section Compiler.

Variable E : Collaborators.

(** [const alias = generateAlias()] *)
Definition drawAlias : M Pass string :=
  fun p => Ok (generateAlias E (drawn p),
               {| dbQuery := dbQuery p; aliasMap := aliasMap p;
                  drawn := S (drawn p) |}).

(** [set(aliasMap, path, alias)] *)
Definition recordAlias (path : list string) (alias : string) : M Pass unit :=
  modify (fun p => {| dbQuery := dbQuery p;
                      aliasMap := Lodash.set (aliasMap p) path (VStr alias);
                      drawn := drawn p |}).

(** [query[logical][method](...args)] *)
Definition registerWhere (logical : Logical) (method : WhereMethod) (args : WhereArgs)
  : M Pass unit :=
  onQuery (addWhere {| w_bool := logical; w_method := method; w_args := args |}).

(** [compareValue.filter((val) => val !== undefined)] on arrays. *)
Definition dropUndefined (compareValue : Value) : Value :=
  match compareValue with
  | VArr items => VArr (List.filter (fun val => negb (isUndefined val)) items)
  | other => other
  end.

(** The first [switch] of [applyFilterToQuery]. *)
Definition applyValuelessOperator (key operator : string) (compareValue : Value)
                                  (logical : Logical) : M Pass unit :=
  if String.eqb operator "_null" then
    registerWhere logical (if isFalse compareValue then whereNotNull else whereNull)
      (ArgColumn key)
  else if String.eqb operator "_nnull" then
    registerWhere logical (if isFalse compareValue then whereNull else whereNotNull)
      (ArgColumn key)
  else if String.eqb operator "_empty" then
    registerWhere logical (if isFalse compareValue then whereNot else where_)
      (ArgCompare key "=" (VStr ""))
  else if String.eqb operator "_nempty" then
    registerWhere logical (if isFalse compareValue then where_ else whereNot)
      (ArgCompare key "!=" (VStr ""))
  else ret tt.

(** The second [switch] of [applyFilterToQuery].  [geometryHelper] is a
    constant of [applyFilter]; [applyFilterToQuery] is declared outside of
    it, so the four cases that name the helper find no binding and raise a
    ReferenceError while their argument is evaluated. *)
Definition applyValueOperator (key operator : string) (compareValue : Value)
                              (logical : Logical) : M Pass unit :=
  let like (s : string) := ArgCompare key "like" (VStr s) in
  let shown := toString compareValue in
  if String.eqb operator "_eq" then
    registerWhere logical where_ (ArgObject key compareValue)
  else if String.eqb operator "_neq" then
    registerWhere logical whereNot (ArgObject key compareValue)
  else if String.eqb operator "_contains" then
    registerWhere logical where_ (like ("%" ++ shown ++ "%")%string)
  else if String.eqb operator "_ncontains" then
    registerWhere logical whereNot (like ("%" ++ shown ++ "%")%string)
  else if String.eqb operator "_starts_with" then
    registerWhere logical where_ (like (shown ++ "%")%string)
  else if String.eqb operator "_nstarts_with" then
    registerWhere logical whereNot (like (shown ++ "%")%string)
  else if String.eqb operator "_ends_with" then
    registerWhere logical where_ (like ("%" ++ shown)%string)
  else if String.eqb operator "_nends_with" then
    registerWhere logical whereNot (like ("%" ++ shown)%string)
  else if String.eqb operator "_gt" then
    registerWhere logical where_ (ArgCompare key ">" compareValue)
  else if String.eqb operator "_gte" then
    registerWhere logical where_ (ArgCompare key ">=" compareValue)
  else if String.eqb operator "_lt" then
    registerWhere logical where_ (ArgCompare key "<" compareValue)
  else if String.eqb operator "_lte" then
    registerWhere logical where_ (ArgCompare key "<=" compareValue)
  else if String.eqb operator "in" then
    registerWhere logical whereIn (ArgValues key (toArray E compareValue))
  else if String.eqb operator "nin" then
    registerWhere logical whereNotIn (ArgValues key (toArray E compareValue))
  else if String.eqb operator "_between" then
    registerWhere logical whereBetween (ArgValues key (toArray E compareValue))
  else if String.eqb operator "_nbetween" then
    registerWhere logical whereNotBetween (ArgValues key (toArray E compareValue))
  else if String.eqb operator "_intersects" then throw ReferenceError
  else if String.eqb operator "_nintersects" then throw ReferenceError
  else if String.eqb operator "_intersects_bbox" then throw ReferenceError
  else if String.eqb operator "_nintersects_bbox" then throw ReferenceError
  else ret tt.

(** [applyFilterToQuery(query, key, operator, compareValue, logical)]; the
    builder [query] is the one of the pass. *)
Definition applyFilterToQuery (key operator : string) (compareValue : Value)
                              (logical : Logical) : M Pass unit :=
  applyValuelessOperator key operator compareValue logical ;;;
  if isUndefined compareValue then ret tt
  else applyValueOperator key operator (dropUndefined compareValue) logical.

Section Filter.

(** What the inner functions of [applyFilter] close over. *)
Variable schema : SchemaOverview.
Variable subQuery : bool.

(** [parentAlias || parentCollection] *)
Definition aliasOr (parentAlias : option string) (parentCollection : string) : string :=
  match parentAlias with
  | Some a => if String.eqb a "" then parentCollection else a
  | None => parentCollection
  end.

(** [parentAlias ? [parentAlias, ...pathParts] : pathParts] *)
Definition aliasPath (parentAlias : option string) (pathParts : list string)
  : list string :=
  match parentAlias with
  | Some a => if String.eqb a "" then pathParts else a :: pathParts
  | None => pathParts
  end.

Definition isSome {A : Type} (o : option A) : bool :=
  match o with Some _ => true | None => false end.

(** [followRelation(pathParts, parentCollection, parentAlias)].
    [pathParts.shift()] leaves the tail of the list. *)
Fixpoint followRelation (pathParts : list string) (parentCollection : string)
                        (parentAlias : option string) {struct pathParts}
  : M Pass unit :=
  match pathParts with
  | [] => throw TypeError
  | segment :: remaining =>
      let pathRoot := pathRootOf segment in
      match findRelation schema parentCollection pathRoot with
      | None => ret tt
      | Some relation =>
          let relationType := getRelationType relation parentCollection pathRoot in
          alias <- drawAlias ;;
          recordAlias (aliasPath parentAlias pathParts) alias ;;;
          (if isType m2o relationType then
             pk <- lift (relatedPrimaryOf schema relation) ;;
             onQuery (leftJoin
               (LeftJoin alias (related_collection relation)
                  (aliasOr parentAlias parentCollection ++ "." ++ field relation)
                  (alias ++ "." ++ pk)))
           else ret tt) ;;;
          (if isType m2a relationType then
             pathScope <- lift (scopeOrThrow segment) ;;
             pk <- lift (primaryOf schema pathScope) ;;
             match meta relation with
             | None => throw TypeError
             | Some m =>
                 onQuery (leftJoin
                   (LeftJoinOnVal alias pathScope
                      (aliasOr parentAlias parentCollection ++ "." ++ field relation)
                      (alias ++ "." ++ pk)
                      (one_collection_field m) pathScope))
             end
           else ret tt) ;;;
          (if isType o2m relationType && (subQuery || isSome parentAlias) then
             pk <- lift (relatedPrimaryOf schema relation) ;;
             onQuery (leftJoin
               (LeftJoin alias (Some (collection relation))
                  (aliasOr parentAlias parentCollection ++ "." ++ pk)
                  (alias ++ "." ++ field relation)))
           else ret tt) ;;;
          if isType m2o relationType || subQuery then
            parent <- lift
              (if isType m2o relationType then
                 match related_collection relation with
                 | Some c => Ok c
                 | None => Throw TypeError
                 end
               else if isType m2a relationType then scopeOrThrow segment
               else Ok (collection relation)) ;;
            match remaining with
            | [] => ret tt
            | _ :: _ => followRelation remaining parent (Some alias)
            end
          else ret tt
      end
  end.

(** [addJoin(path, collection)] *)
Definition addJoin (path : list string) (collection_ : string) : M Pass unit :=
  followRelation path collection_ None.

(** The body of the loop of [addJoins] for a key that is not a group. *)
Definition addJoinsField (collection_ : string) (key : string) (value : Value)
  : M Pass unit :=
  filterPath <- lift (getFilterPath key value) ;;
  if (1 <? List.length filterPath)%nat then addJoin filterPath collection_
  else ret tt.

(** [addJoins(dbQuery, filter, collection)].  Only an object literal can
    hold the keys [_or] and [_and]; the entries of any other value are
    indexed. *)
Fixpoint addJoins (filter_ : Value) (collection_ : string) {struct filter_}
  : M Pass unit :=
  match filter_ with
  | VUndefined | VNull => throw TypeError
  | VObj props =>
      (fix loop (l : list (string * Value)) : M Pass unit :=
         match l with
         | [] => ret tt
         | (key, value) :: tl =>
             (if isLogicalKey key then
                match value with
                | VArr subFilters =>
                    skip <- lift (if String.eqb key "_or" then someEmpty subFilters
                                  else Ok false) ;;
                    if skip then ret tt
                    else (fix each (l' : list Value) : M Pass unit :=
                            match l' with
                            | [] => ret tt
                            | subFilter :: tl' =>
                                addJoins subFilter collection_ ;;; each tl'
                            end) subFilters
                | _ => throw TypeError
                end
              else addJoinsField collection_ key value) ;;;
             loop tl
         end) props
  | other =>
      match entries other with
      | None => throw TypeError
      | Some l => forEach (fun kv => addJoinsField collection_ (fst kv) (snd kv)) l
      end
  end.

(** The body of the loop of [addJoins] for one entry of the filter, as
    the fixpoint unfolds it. *)
Definition addJoinsEntry (collection_ : string) (key : string) (value : Value)
  : M Pass unit :=
  if isLogicalKey key then
    match value with
    | VArr subFilters =>
        skip <- lift (if String.eqb key "_or" then someEmpty subFilters
                      else Ok false) ;;
        if skip then ret tt
        else forEach (fun subFilter => addJoins subFilter collection_) subFilters
    | _ => throw TypeError
    end
  else addJoinsField collection_ key value.

(** The collection [getWhereColumn] is in.  Its type is [string], but the
    many-to-one branch hands on [relation.related_collection!], which is
    [null] for a relation without related collection: [None].  In a template
    string it prints as [null]. *)
Definition shownCollection (parent : option string) : string :=
  match parent with
  | Some c => c
  | None => "null"
  end.

(** [relations.find(...)] of [getWhereColumn].  [null] is no
    [relation.collection]; it is the [related_collection] of the relations
    that have none. *)
Definition findRelationOf (parent : option string) (pathRoot : string)
  : option Relation :=
  match parent with
  | Some c => findRelation schema c pathRoot
  | None =>
      List.find
        (fun relation =>
           negb (isSome (related_collection relation)) && oneFieldIs relation pathRoot)
        (relations schema)
  end.

(** Modelled from the spec: [getRelationType], which is not among the
    sources, at the collection [getWhereColumn] is in.  With [null] the
    many-to-one test of section 4.1 fails for every relation and the
    one-to-many test compares [related_collection] with [null]. *)
Definition getRelationTypeOf (relation : Relation) (parent : option string)
                             (field_ : string) : option RelationType :=
  match parent with
  | Some c => getRelationType relation c field_
  | None =>
      if match meta relation with
         | Some m => isSome (one_allowed_collections m)
         | None => false
         end
      then Some m2a
      else if negb (isSome (related_collection relation)) && oneFieldIs relation field_
      then Some o2m
      else None
  end.

(** [getWhereColumn(path, collection, alias)], reading the alias map of the
    pass.  [alias] is whatever [get] returned one hop earlier. *)
Fixpoint getWhereColumn (aliases : list (string * Value)) (path : list string)
                        (collection_ : option string) (alias : Value) {struct path}
  : Result (option string) :=
  match path with
  | [] => Throw TypeError
  | segment :: remainingParts =>
      let pathRoot := pathRootOf segment in
      match findRelationOf collection_ pathRoot with
      | None => Throw (notRelationalField (shownCollection collection_) pathRoot)
      | Some relation =>
          let relationType := getRelationTypeOf relation collection_ pathRoot in
          let alias' :=
            Lodash.get aliases
              (if truthy alias then toString alias :: path else path) in
          rbind (if isType m2a relationType then
                   rbind (scopeOrThrow segment) (fun pathScope => Ok (Some pathScope))
                 else if isType m2o relationType then Ok (related_collection relation)
                 else Ok (Some (collection relation)))
            (fun parent =>
               match remainingParts with
               | [] => Ok None
               | [last] =>
                   Ok (Some ((if truthy alias' then toString alias'
                              else shownCollection parent)
                               ++ "." ++ last))
               | _ :: _ :: _ => getWhereColumn aliases remainingParts parent alias'
               end)
      end
  end.

(** The body of the loop of [addWhereClauses] for a key that is not a
    group. *)
Definition addWhereField (collection_ : string) (logical : Logical)
                         (key : string) (value : Value) : M Pass unit :=
  filterPath <- lift (getFilterPath key value) ;;
  match filterPath with
  | [] => throw TypeError
  | first :: _ =>
      let pathRoot := pathRootOf first in
      let relation := findRelation schema collection_ pathRoot in
      operation <- lift (getOperation key value) ;;
      let filterOperator := fst operation in
      let filterValue := snd operation in
      let relationType :=
        match relation with
        | Some r => getRelationType r collection_ pathRoot
        | None => None
        end in
      if isType m2o relationType || isType m2a relationType
         || negb (isSome relationType)
      then
        if (1 <? List.length filterPath)%nat then
          p <- getState ;;
          columnName <- lift (getWhereColumn (aliasMap p) filterPath
                                (Some collection_) VUndefined) ;;
          match columnName with
          | None => ret tt
          | Some column =>
              if String.eqb column "" then ret tt
              else applyFilterToQuery column filterOperator filterValue logical
          end
        else
          applyFilterToQuery (collection_ ++ "." ++ first) filterOperator
            filterValue logical
      else if negb subQuery then
        match relation with
        | None => throw TypeError
        | Some r =>
            pk <- lift (relatedPrimaryOf schema r) ;;
            registerWhere logical whereIn
              (ArgSubquery (collection_ ++ "." ++ pk)
                 {| s_relation := r; s_value := value |})
        end
      else ret tt
  end.

(** [dbQuery[logical].where((subQuery) => { value.forEach(...) })]: the
    callback is kept, not called. *)
Definition addWhereGroup (collection_ : string) (logical : Logical)
                         (key : string) (value : Value) : M Pass unit :=
  p <- getState ;;
  registerWhere logical where_
    (ArgGroup {| g_value := value;
                 g_collection := collection_;
                 g_logical := if String.eqb key "_and" then and_ else or_;
                 g_subQuery := subQuery;
                 g_aliasMap := aliasMap p |}).

(** The body of the loop of [addWhereClauses]. *)
Definition addWhereEntry (collection_ : string) (logical : Logical)
                         (key : string) (value : Value) : M Pass unit :=
  if isLogicalKey key then
    if String.eqb key "_or" then
      match value with
      | VArr subFilters =>
          skip <- lift (someEmpty subFilters) ;;
          if skip then ret tt else addWhereGroup collection_ logical key value
      | _ => throw TypeError
      end
    else addWhereGroup collection_ logical key value
  else addWhereField collection_ logical key value.

(** [addWhereClauses(dbQuery, filter, collection, logical)] *)
Definition addWhereClauses (filter_ : Value) (collection_ : string)
                           (logical : Logical) : M Pass unit :=
  match entries filter_ with
  | None => throw TypeError
  | Some l =>
      forEach (fun kv => addWhereEntry collection_ logical (fst kv) (snd kv)) l
  end.

(** The two passes of [applyFilter] over a fresh alias map. *)
Definition applyFilterPass (rootQuery : QueryBuilder) (rootFilter : Value)
                           (collection_ : string) (n : nat) : Result (unit * Pass) :=
  (addJoins rootFilter collection_ ;;; addWhereClauses rootFilter collection_ and_)
    {| dbQuery := rootQuery; aliasMap := []; drawn := n |}.

End Filter.

(** [applyFilter(schema, rootQuery, rootFilter, collection, subQuery)],
    started after [n] draws of the alias generator.  [getGeometryHelper()]
    is taken to return; nothing in the scope of [applyFilter] uses what it
    returns. *)
Definition applyFilter (schema : SchemaOverview) (rootQuery : QueryBuilder)
                       (rootFilter : Value) (collection_ : string)
                       (subQuery : bool) (n : nat) : Result (QueryBuilder * nat) :=
  match applyFilterPass schema subQuery rootQuery rootFilter collection_ n with
  | Ok (_, p) => Ok (dbQuery p, drawn p)
  | Throw e => Throw e
  end.

(** [applySearch(schema, dbQuery, searchQuery, collection)].  The function
    is [async] and is not awaited: a failing schema access rejects its
    promise and leaves the builder as it was. *)
Definition applySearch (schema : SchemaOverview) (dbQuery_ : QueryBuilder)
                       (searchQuery collection_ : string) : QueryBuilder :=
  match findCollection collection_ (collections schema) with
  | None => dbQuery_
  | Some c =>
      addWhere {| w_bool := and_; w_method := where_;
                  w_args := ArgSearch {| q_fields := fields c;
                                         q_collection := collection_;
                                         q_searchQuery := searchQuery |} |}
        dbQuery_
  end.

(** [if (n)] on a number that may be absent. *)
Definition truthyNumber (o : option Z) : bool :=
  match o with Some z => negb (Z.eqb z 0) | None => false end.


(** [parseInt(value, 10)] of a number, as [limit] and [offset] of the
    builder apply it: below [10^21] the text of an integer is its digits
    and the number comes back; from there on the text is in exponent form
    and [parseInt] stops at its point or its [e]; the text of an infinity
    has no digit. *)
Definition parseInt10 (value : option Z) : option Z :=
  match value with
  | None => None
  | Some z => if (Z.abs z <? 10 ^ 21)%Z then Some z else Some (exponentLead E z)
  end.

(** [applyQuery(collection, dbQuery, query, schema, subQuery)] *)
Definition applyQuery (collection_ : string) (dbQuery_ : QueryBuilder)
                      (query : Query) (schema : SchemaOverview)
                      (subQuery : bool) (n : nat) : Result (QueryBuilder * nat) :=
  let q1 :=
    match sort query with
    | Some items =>
        Knex.orderBy
          (List.map (fun s => {| o_column := collection_ ++ "." ++ o_column s;
                                 o_order := o_order s |}) items) dbQuery_
    | None => dbQuery_
    end in
  let q2 :=
    match limit query with
    | Some l => Knex.limit (parseInt10 (Some l)) q1
    | None => q1
    end in
  rbind (match offset query with
         | Some o =>
             if truthyNumber (Some o) then Knex.offset (parseInt10 (Some o)) q2
             else Ok q2
         | None => Ok q2
         end)
    (fun q3 =>
  rbind (match page query, limit query with
         | Some p, Some l =>
             if truthyNumber (Some p) && truthyNumber (Some l)
             then Knex.offset (parseInt10 (numberTimes l (numberMinus p 1))) q3
             else Ok q3
         | _, _ => Ok q3
         end)
    (fun q4 =>
  rbind (if truthy (filter query)
         then applyFilter schema q4 (filter query) collection_ subQuery n
         else Ok (q4, n))
    (fun r =>
       Ok (match search query with
           | Some s =>
               if String.eqb s "" then fst r
               else applySearch schema (fst r) s collection_
           | None => fst r
           end, snd r)))).

(** What Knex does with the callback of a logical group when it compiles
    the query: the clauses of the sub-filters go to a builder of their
    own. *)
Definition runGroup (schema : SchemaOverview) (c : GroupClosure)
                    (subQuery_ : QueryBuilder) (n : nat)
  : Result (QueryBuilder * nat) :=
  match g_value c with
  | VArr subFilters =>
      match forEach (fun subFilter =>
                       addWhereClauses schema (g_subQuery c) subFilter
                         (g_collection c) (g_logical c))
                    subFilters
                    {| dbQuery := subQuery_; aliasMap := g_aliasMap c; drawn := n |}
      with
      | Ok (_, p) => Ok (dbQuery p, drawn p)
      | Throw e => Throw e
      end
  | _ => Throw TypeError
  end.

(** The callback of the one-to-many [whereIn], run on the builder of the
    subquery. *)
Definition runSubquery (schema : SchemaOverview) (c : SubqueryClosure)
                       (subQueryKnex : QueryBuilder) (n : nat)
  : Result (QueryBuilder * nat) :=
  let field_ := field (s_relation c) in
  let collection_ := collection (s_relation c) in
  let column := collection_ ++ "." ++ field_ in
  applyQuery collection_
    (Knex.from collection_ (Knex.select field_ column subQueryKnex))
    {| sort := None; limit := None; offset := None; page := None;
       filter := s_value c; search := None |}
    schema true n.

(** The callback of [applySearch]. *)
Definition runSearch (c : SearchClosure) (this : QueryBuilder) : QueryBuilder :=
  List.fold_left
    (fun q nf =>
       let name := fst nf in
       let column := q_collection c ++ "." ++ name in
       if memberOf (field_type (snd nf)) ["text"; "string"] then
         addWhere {| w_bool := or_; w_method := whereRaw;
                     w_args := ArgRaw "LOWER(??) LIKE ?"
                                 [VStr column;
                                  VStr ("%" ++ toLowerCase E (q_searchQuery c) ++ "%")] |} q
       else if memberOf (field_type (snd nf))
                 ["bigInteger"; "integer"; "decimal"; "float"] then
         match toNumber E (q_searchQuery c) with
         | Some number =>
             addWhere {| w_bool := or_; w_method := where_;
                         w_args := ArgObject column (VNum number) |} q
         | None => q
         end
       else if String.eqb (field_type (snd nf)) "uuid" && validate E (q_searchQuery c) then
         addWhere {| w_bool := or_; w_method := where_;
                     w_args := ArgObject column (VStr (q_searchQuery c)) |} q
       else q)
    (q_fields c) this.

End Compiler.

(* ===================================================================== *)
(** * [get-default-value.ts]                                              *)
(* ===================================================================== *)

(** [Number(value)]; [None] is [NaN]. *)
Definition numberOf (E : Collaborators) (value : Value) : option Z :=
  match value with
  | VUndefined => None
  | VNull => Some 0%Z
  | VBool b => Some (if b then 1%Z else 0%Z)
  | VNum z => Some z
  | VStr s => toNumber E s
  | VArr _ => toNumber E (toString value)
  | VObj _ => None
  end.

(** [castToBoolean(value)] *)
Definition castToBoolean (value : Value) : bool :=
  match value with
  | VStr s => negb (String.eqb s "false") && negb (String.eqb s "1")
  | other => truthy other
  end.

(** [value === null] and [value === s] *)
Definition isNull (value : Value) : bool :=
  match value with VNull => true | _ => false end.

Definition isString (s : string) (value : Value) : bool :=
  match value with VStr x => String.eqb x s | _ => false end.

(** The default wrapped in an extra pair of quotes. *)
Definition isQuoted (s : string) : bool :=
  (startsWith "'" s && endsWith "'" s)
  || (startsWith dquote s && endsWith dquote s).

Definition unquote (defaultValue : Value) : Value :=
  match defaultValue with
  | VStr s => if isQuoted s then VStr (slice_1_m1 s) else VStr s
  | other => other
  end.

Section GetDefaultValue.

Variable E : Collaborators.

(** The column of the schema inspector, and [getLocalType] of
    [./get-local-type], which is not among the sources. *)
Variable Column : Type.
Variable default_value : Column -> Value.
Variable getLocalType : Column -> string.

(** [getDefaultValue(column)] *)
Definition getDefaultValue (column : Column) : Value :=
  let type := getLocalType column in
  let defaultValue :=
    match default_value column with
    | VUndefined | VNull => VNull
    | other => other
    end in
  if isNull defaultValue then VNull
  else if isString "null" defaultValue then VNull
  else if isString "NULL" defaultValue then VNull
  else
    let defaultValue := unquote defaultValue in
    if memberOf type ["bigInteger"; "integer"; "decimal"; "float"] then
      match numberOf E defaultValue with
      | Some number => VNum number
      | None => defaultValue
      end
    else if String.eqb type "boolean" then VBool (castToBoolean defaultValue)
    else defaultValue.

End GetDefaultValue.

(* ===================================================================== *)
(** * The payload service: [processO2M]                                   *)
(* ===================================================================== *)

(** The database and the [ItemsService] behind the payload service, over a
    state of the database [W].  Every operation of the service reports the
    revisions it created, which the sources collect through
    [onRevisionCreate]. *)
Record DataLayer (W : Type) : Type := {
  (** [knex.select(...).from(collection).where({ [column]: key }).first()] *)
  selectFirst : W -> string -> string -> Value -> option (list (string * Value));
  upsertMany : string -> list Value -> W -> Result ((list Value * list Value) * W);
  createMany : string -> list Value -> W -> Result (list Value * W);
  updateOne : string -> Value -> Value -> W -> Result (list Value * W);
  deleteByQuery : string -> Query -> W -> Result W;
  updateByQuery : string -> Query -> Value -> W -> Result (list Value * W);
  (** [nestedUpdateSchema.validate(alterations).error?.message] *)
  validateAlterations : Value -> option string;
  (** [a == b] *)
  looseEq : Value -> Value -> bool
}.

(** [value[key]] *)
Definition prop (value : Value) (key : string) : Value :=
  match value with
  | VObj props => lookup key props
  | _ => VUndefined
  end.

(** [{ ...record, [key]: value }] *)
Definition spreadWith (record : Value) (key : string) (value : Value) : Value :=
  VObj (assign key value (match entries record with Some l => l | None => [] end)).

(** [a || b] *)
Definition orElse (a b : Value) : Value := if truthy a then a else b.

Definition filterOnly (f : Value) : Query :=
  {| sort := None; limit := None; offset := None; page := None;
     filter := f; search := None |}.

Section PayloadService.

Variable W : Type.
Variable D : DataLayer W.

(** [this.collection] and [this.schema] *)
Variable this_collection : string.
Variable this_schema : SchemaOverview.

(** The relations [processO2M] keeps: those whose [related_collection] is
    the collection of the service and whose [meta.one_field] is a key of
    the payload. *)
Definition relationsToProcess (payload : list (string * Value)) : list Relation :=
  List.filter
    (fun relation =>
       match meta relation with
       | Some m =>
           match one_field m with
           | Some f => if String.eqb f "" then false else hasKey f payload
           | None => false
           end
       | None => false
       end)
    (List.filter (fun relation => optStrEqb (related_collection relation) this_collection)
       (relations this_schema)).

(** One turn of the loop over a nested array of items.  The accumulator is
    [recordsToUpsert] and [savedPrimaryKeys]; the loop only reads the
    database. *)
Definition processItem (w : W) (relation : Relation) (payload : list (string * Value))
                       (parent : Value) (currentPrimaryKeyField relatedPrimaryKeyField : string)
                       (acc : list Value * list Value) (relatedRecord : Value)
  : Result (list Value * list Value) :=
  let owner := orElse parent (lookup currentPrimaryKeyField payload) in
  if isStringOrNumber relatedRecord then
    match selectFirst D w (collection relation) relatedPrimaryKeyField relatedRecord with
    | None => Throw ForbiddenException
    | Some existingRecord =>
        let linked := lookup (field relation) existingRecord in
        if negb (isNil linked)
           && (looseEq D linked parent
               || looseEq D linked (lookup currentPrimaryKeyField payload))
        then Ok (fst acc, (snd acc ++ [lookup relatedPrimaryKeyField existingRecord])%list)
        else Ok ((fst acc ++ [spreadWith (VObj [(relatedPrimaryKeyField, relatedRecord)])
                                (field relation) owner])%list,
                 snd acc)
    end
  else Ok ((fst acc ++ [spreadWith relatedRecord (field relation) owner])%list, snd acc).

Fixpoint processItems (w : W) (relation : Relation) (payload : list (string * Value))
                      (parent : Value) (currentPrimaryKeyField relatedPrimaryKeyField : string)
                      (acc : list Value * list Value) (items : list Value)
  : Result (list Value * list Value) :=
  match items with
  | [] => Ok acc
  | relatedRecord :: tl =>
      rbind (processItem w relation payload parent currentPrimaryKeyField
               relatedPrimaryKeyField acc relatedRecord)
        (fun acc' => processItems w relation payload parent currentPrimaryKeyField
                       relatedPrimaryKeyField acc' tl)
  end.

(** [{ _and: [{ [field]: { _eq: parent } }, { [pk]: { [operator]: keys } }] }] *)
Definition deselectQuery (relation : Relation) (parent : Value)
                         (relatedPrimaryKeyField operator : string) (keys_ : Value) : Query :=
  filterOnly
    (VObj [("_and",
            VArr [VObj [(field relation, VObj [("_eq", parent)])];
                  VObj [(relatedPrimaryKeyField, VObj [(operator, keys_)])]])]).

(** Delete or nullify what the query selects, by [one_deselect_action]. *)
Definition deselect (relation : Relation) (m : RelationMeta) (query : Query)
  : M W (list Value) :=
  fun w =>
    if optStrEqb (one_deselect_action m) "delete" then
      match deleteByQuery D (collection relation) query w with
      | Ok w' => Ok ([], w')
      | Throw e => Throw e
      end
    else updateByQuery D (collection relation) query
           (VObj [(field relation, VNull)]) w.

(** [alterations.create.map(...)] and [for (const item of alterations.update)]
    need an array. *)
Definition asArray (value : Value) : Result (list Value) :=
  match value with
  | VArr items => Ok items
  | _ => Throw TypeError
  end.

Fixpoint updateEach (relation : Relation) (primaryKeyField : string) (owner : Value)
                    (items : list Value) : M W (list Value) :=
  match items with
  | [] => ret []
  | item :: tl =>
      (revs <- updateOne D (collection relation) (prop item primaryKeyField)
                 (spreadWith item (field relation) owner) ;;
       more <- updateEach relation primaryKeyField owner tl ;;
       ret (revs ++ more)%list)%js
  end.

(** The body of the loop of [processO2M] over the relations; the result is
    the revisions it adds. *)
Definition processRelation (payload : list (string * Value)) (parent : Value)
                           (relation : Relation) : M W (list Value) :=
  (match meta relation with
   | None => ret []
   | Some m =>
       let nested := match one_field m with
                     | Some f => lookup f payload
                     | None => lookup "undefined" payload
                     end in
       if negb (truthy nested) then ret []
       else
         currentPrimaryKeyField <- lift (relatedPrimaryOf this_schema relation) ;;
         relatedPrimaryKeyField <- lift (primaryOf this_schema (collection relation)) ;;
         let owner := orElse parent (lookup currentPrimaryKeyField payload) in
         match nested with
         | VArr items =>
             w <- getState ;;
             acc <- lift (processItems w relation payload parent currentPrimaryKeyField
                            relatedPrimaryKeyField ([], []) items) ;;
             saved <- upsertMany D (collection relation) (fst acc) ;;
             let savedPrimaryKeys := (snd acc ++ fst saved)%list in
             more <- deselect relation m
                       (deselectQuery relation parent relatedPrimaryKeyField "_nin"
                          (VArr savedPrimaryKeys)) ;;
             ret (snd saved ++ more)%list
         | alterations =>
             match validateAlterations D alterations with
             | Some message =>
                 throw (InvalidPayloadException
                          ("Invalid one-to-many update structure: " ++ message))
             | None =>
                 r1 <- (if truthy (prop alterations "create") then
                          items <- lift (asArray (prop alterations "create")) ;;
                          createMany D (collection relation)
                            (List.map (fun item => spreadWith item (field relation) owner)
                               items)
                        else ret []) ;;
                 r2 <- (if truthy (prop alterations "update") then
                          primaryKeyField <- lift (primaryOf this_schema (collection relation)) ;;
                          items <- lift (asArray (prop alterations "update")) ;;
                          updateEach relation primaryKeyField owner items
                        else ret []) ;;
                 r3 <- (if truthy (prop alterations "delete") then
                          deselect relation m
                            (deselectQuery relation parent relatedPrimaryKeyField "_in"
                               (prop alterations "delete"))
                        else ret []) ;;
                 ret (r1 ++ r2 ++ r3)%list
             end
         end
   end)%js.

(** [for (const relation of relationsToProcess) { ... }] *)
Fixpoint processRelations (payload : list (string * Value)) (parent : Value)
                          (rels : list Relation) : M W (list Value) :=
  match rels with
  | [] => ret []
  | relation :: tl =>
      (revs <- processRelation payload parent relation ;;
       more <- processRelations payload parent tl ;;
       ret (revs ++ more)%list)%js
  end.

(** [processO2M(data, parent)]: the revisions, and the database after. *)
Definition processO2M (data : list (string * Value)) (parent : Value)
  : M W (list Value) :=
  processRelations data parent (relationsToProcess data).

End PayloadService.

(* ===================================================================== *)
(** * The payload service: [processM2O] and [processA2O]                  *)
(* ===================================================================== *)

(** [itemsService.createOne(record, ...)]: the primary key of the new item
    and the revisions created, over the same state of the database as the
    operations of [DataLayer]. *)
Record SingleWrites (W : Type) : Type := {
  createOne : string -> Value -> W -> Result ((Value * list Value) * W)
}.

(** The own properties of a nested record that can be enumerated: those of
    an object, and the indices of an array (lodash [isObject] lets arrays
    through). *)
Definition enumerableProps (record : Value) : list (string * Value) :=
  match record with
  | VObj props => props
  | VArr items => indexed 0 items
  | _ => []
  end.

(** The own properties [key in record] and [record[key]] see: an array
    also has its [length].  What a value inherits from its prototype is
    not modelled. *)
Definition ownProps (record : Value) : list (string * Value) :=
  match record with
  | VArr items =>
      (indexed 0 items ++ [("length", VNum (Z.of_nat (List.length items)))])%list
  | _ => enumerableProps record
  end.

(** [omit(record, key)] *)
Definition omit (record : Value) (key : string) : list (string * Value) :=
  List.filter (fun kv => negb (String.eqb (fst kv) key)) (enumerableProps record).

(** The two messages of [processA2O]. *)
Definition missingCollectionField (relation : Relation) (collectionField : string)
  : Exception :=
  InvalidPayloadException
    ("Can't update nested record " ++ dquote ++ collection relation ++ "."
     ++ field relation ++ dquote ++ " without field " ++ dquote
     ++ collection relation ++ "." ++ collectionField ++ dquote ++ " being set").

Definition collectionNotAllowed (relation : Relation) (relatedCollection : Value)
  : Exception :=
  InvalidPayloadException
    (dquote ++ collection relation ++ "." ++ field relation ++ dquote
     ++ " can't be linked to collection " ++ dquote ++ toString relatedCollection).

(** [allowedCollections.includes(relatedCollection)] *)
Definition includesValue (allowed : list string) (v : Value) : bool :=
  match v with
  | VStr s => memberOf s allowed
  | _ => false
  end.

Section NestedSingle.

Variable W : Type.
Variable D : DataLayer W.
Variable S1 : SingleWrites W.
Variable this_collection : string.
Variable this_schema : SchemaOverview.

(** The tail both loops share once the related collection and its primary
    key field are known: look the nested record up, update it when it
    exists and carries more than its key, create it otherwise, and put the
    primary key in its place.  The state is the database; the result is
    the payload and the revisions added. *)
Definition saveNested (payload : list (string * Value)) (relation : Relation)
                      (relatedCollection relatedPrimaryKeyField : string)
  : M W (list (string * Value) * list Value) :=
  (let relatedRecord := lookup (field relation) payload in
   if isStringOrNumber relatedRecord then ret (payload, [])
   else if negb (isObject relatedRecord) then throw TypeError
   else
     let hasPrimaryKey := hasKey relatedPrimaryKeyField (ownProps relatedRecord) in
     let relatedPrimaryKey := lookup relatedPrimaryKeyField (ownProps relatedRecord) in
     w <- getState ;;
     let exists_ :=
       hasPrimaryKey
       && isSome (selectFirst D w relatedCollection relatedPrimaryKeyField
                    relatedPrimaryKey) in
     if exists_ then
       revs <- (if (0 <? List.length (omit relatedRecord relatedPrimaryKeyField))%nat
                then updateOne D relatedCollection relatedPrimaryKey relatedRecord
                else ret []) ;;
       ret (assign (field relation) relatedPrimaryKey payload, revs)
     else
       created <- createOne S1 relatedCollection relatedRecord ;;
       ret (assign (field relation) (fst created) payload, snd created))%js.

(** The relations [processM2O] keeps: those of the collection of the
    service whose field holds an object in the payload. *)
Definition m2oRelationsToProcess (payload : list (string * Value)) : list Relation :=
  List.filter
    (fun relation =>
       hasKey (field relation) payload && isObject (lookup (field relation) payload))
    (List.filter (fun relation => String.eqb (collection relation) this_collection)
       (relations this_schema)).

(** The body of the loop of [processM2O]. *)
Definition processM2ORelation (payload : list (string * Value)) (relation : Relation)
  : M W (list (string * Value) * list Value) :=
  match related_collection relation with
  | None => ret (payload, [])
  | Some related =>
      if String.eqb related "" then ret (payload, [])
      else
        (relatedPrimaryKeyField <- lift (primaryOf this_schema related) ;;
         saveNested payload relation related relatedPrimaryKeyField)%js
  end.

(** A loop that threads the payload and collects the revisions. *)
Fixpoint overRelations (body : list (string * Value) -> Relation ->
                               M W (list (string * Value) * list Value))
                       (payload : list (string * Value)) (rels : list Relation)
  : M W (list (string * Value) * list Value) :=
  match rels with
  | [] => ret (payload, [])
  | relation :: tl =>
      (r <- body payload relation ;;
       more <- overRelations body (fst r) tl ;;
       ret (fst more, (snd r ++ snd more)%list))%js
  end.

(** [processM2O(data)]: the payload and the revisions. *)
Definition processM2O (data : list (string * Value))
  : M W (list (string * Value) * list Value) :=
  overRelations processM2ORelation data (m2oRelationsToProcess data).

(** The relations [processA2O] keeps: plain objects only. *)
Definition a2oRelationsToProcess (payload : list (string * Value)) : list Relation :=
  List.filter
    (fun relation =>
       hasKey (field relation) payload
       && isPlainObject (lookup (field relation) payload))
    (List.filter (fun relation => String.eqb (collection relation) this_collection)
       (relations this_schema)).

(** The body of the loop of [processA2O]. *)
Definition processA2ORelation (payload : list (string * Value)) (relation : Relation)
  : M W (list (string * Value) * list Value) :=
  match meta relation with
  | None => ret (payload, [])
  | Some m =>
      match one_collection_field m, one_allowed_collections m with
      | Some collectionField, Some allowedCollections =>
          if String.eqb collectionField "" then ret (payload, [])
          else
            let relatedCollection := lookup collectionField payload in
            if negb (truthy relatedCollection) then
              throw (missingCollectionField relation collectionField)
            else if negb (includesValue allowedCollections relatedCollection) then
              throw (collectionNotAllowed relation relatedCollection)
            else
              (relatedPrimary <- lift (primaryOf this_schema
                                         (toString relatedCollection)) ;;
               saveNested payload relation (toString relatedCollection)
                 relatedPrimary)%js
      | _, _ => ret (payload, [])
      end
  end.

(** [processA2O(data)]: the payload and the revisions. *)
Definition processA2O (data : list (string * Value))
  : M W (list (string * Value) * list Value) :=
  overRelations processA2ORelation data (a2oRelationsToProcess data).

End NestedSingle.

(* ===================================================================== *)
(** * A schema and collaborators to run the compiler on                   *)
(* ===================================================================== *)

Module Fixture.

Definition letter (n : nat) : ascii := Ascii.ascii_of_nat (97 + n mod 26).

(** Five lowercase letters, different for different draws below [26^5]. *)
Definition aliasOfNat (n : nat) : string :=
  let d1 := n / 26 in
  let d2 := d1 / 26 in
  let d3 := d2 / 26 in
  let d4 := d3 / 26 in
  String (letter d4)
    (String (letter d3)
       (String (letter d2)
          (String (letter d1)
             (String (letter n) EmptyString)))).

Definition comma : ascii := ","%char.

(** [toArray] of [@directus/shared/utils]: a string is split on commas, an
    array is kept, anything else is wrapped. *)
Definition sharedToArray (val : Value) : list Value :=
  match val with
  | VStr s => List.map VStr (split comma s)
  | VArr items => items
  | other => [other]
  end.

(** The first decimal digit of a positive integer. *)
Fixpoint leadingDigit (fuel : nat) (z : Z) : Z :=
  match fuel with
  | O => z
  | S fuel' => if (z <? 10)%Z then z else leadingDigit fuel' (z / 10)%Z
  end.

Definition collaborators : Collaborators :=
  {| generateAlias := aliasOfNat;
     toArray := sharedToArray;
     toNumber := fun s => option_map Z.of_int (NilZero.int_of_string s);
     toLowerCase := fun s => s;
     validate := fun _ => false;
     exponentLead := fun z => (Z.sgn z * leadingDigit 400 (Z.abs z))%Z |}.

Definition plainField (t : string) : FieldOverview :=
  {| field_type := t; special := [] |}.

(** [articles.author] is many-to-one to [authors] and the one-to-many
    [authors.articles]; [articles.page_id] is many-to-one to [pages] and the
    one-to-many [pages.articles]; [blocks.item] is many-to-any. *)
Definition schema : SchemaOverview :=
  {| collections :=
       [("articles", {| primary := "id";
                        fields := [("id", plainField "integer");
                                   ("title", plainField "string");
                                   ("author", plainField "integer");
                                   ("page_id", plainField "integer")] |});
        ("authors", {| primary := "id";
                       fields := [("id", plainField "integer");
                                  ("name", plainField "string")] |});
        ("pages", {| primary := "id";
                     fields := [("id", plainField "integer");
                                ("slug", plainField "string")] |});
        ("blocks", {| primary := "id";
                      fields := [("id", plainField "integer");
                                 ("item", plainField "string");
                                 ("collection", plainField "string")] |})];
     relations :=
       [{| collection := "articles"; field := "author";
           related_collection := Some "authors";
           meta := Some {| one_field := Some "articles";
                           one_collection_field := None;
                           one_allowed_collections := None;
                           one_deselect_action := None |} |};
        {| collection := "articles"; field := "page_id";
           related_collection := Some "pages";
           meta := Some {| one_field := Some "articles";
                           one_collection_field := None;
                           one_allowed_collections := None;
                           one_deselect_action := None |} |};
        {| collection := "blocks"; field := "item";
           related_collection := None;
           meta := Some {| one_field := None;
                           one_collection_field := Some "collection";
                           one_allowed_collections := Some ["articles"; "authors"];
                           one_deselect_action := None |} |}] |}.

(** [{ [key]: { [operator]: operand } }] and [{ [key]: nested }] *)
Definition leaf (key operator : string) (operand : Value) : Value :=
  VObj [(key, VObj [(operator, operand)])].

Definition nest (key : string) (nested : Value) : Value :=
  VObj [(key, nested)].

(** A database for the payload service: the rows of each collection.  The
    service operations report what they are asked and leave the rows. *)
Definition World : Type := list (string * list (list (string * Value))).

Definition sameKey (a b : Value) : bool :=
  match a, b with
  | VStr x, VStr y => String.eqb x y
  | VNum x, VNum y => Z.eqb x y
  | VNum x, VStr y => String.eqb (numToString x) y
  | VStr x, VNum y => String.eqb x (numToString y)
  | _, _ => false
  end.

Fixpoint rowsOf (name : string) (w : World) : list (list (string * Value)) :=
  match w with
  | [] => []
  | (k, rows) :: tl => if String.eqb k name then rows else rowsOf name tl
  end.

Definition dataLayer : DataLayer World :=
  {| selectFirst := fun w name column key =>
       List.find (fun row => sameKey (lookup column row) key) (rowsOf name w);
     upsertMany := fun _ records w =>
       Ok ((List.map (fun r => prop r "id") records, []), w);
     createMany := fun _ _ w => Ok ([], w);
     updateOne := fun _ _ _ w => Ok ([], w);
     deleteByQuery := fun _ _ w => Ok w;
     updateByQuery := fun _ _ _ w => Ok ([], w);
     validateAlterations := fun _ => None;
     looseEq := sameKey |}.

(** One article, number 1, written by author 7. *)
Definition world : World :=
  [("articles", [[("id", VNum 1); ("title", VStr "first"); ("author", VNum 7)]]);
   ("authors", [[("id", VNum 7); ("name", VStr "Rijk")]])].

End Fixture.

(** A second schema, with a chain of two many-to-one relations:
    [comments.article] to [articles], [articles.author] to [authors]. *)
Module Chained.

Definition manyToOne (collection_ field_ related : string) : Relation :=
  {| collection := collection_; field := field_;
     related_collection := Some related;
     meta := Some {| one_field := None;
                     one_collection_field := None;
                     one_allowed_collections := None;
                     one_deselect_action := None |} |}.

Definition schema : SchemaOverview :=
  {| collections :=
       [("comments", {| primary := "id";
                        fields := [("id", Fixture.plainField "integer");
                                   ("body", Fixture.plainField "text");
                                   ("article", Fixture.plainField "integer")] |});
        ("articles", {| primary := "id";
                        fields := [("id", Fixture.plainField "integer");
                                   ("title", Fixture.plainField "string");
                                   ("author", Fixture.plainField "integer")] |});
        ("authors", {| primary := "uuid";
                       fields := [("uuid", Fixture.plainField "uuid");
                                  ("name", Fixture.plainField "string")] |})];
     relations :=
       [manyToOne "comments" "article" "articles";
        manyToOne "articles" "author" "authors"] |}.

End Chained.

(** Collaborators of the payload service for the examples: a service that
    numbers every item it creates 100, and a data layer whose validation
    only lets objects through. *)
Module Nested.

Definition singleWrites : SingleWrites Fixture.World :=
  {| createOne := fun _ _ w => Ok ((VNum 100, [VNum 100]), w) |}.

Definition validating : DataLayer Fixture.World :=
  {| selectFirst := selectFirst Fixture.dataLayer;
     upsertMany := upsertMany Fixture.dataLayer;
     createMany := createMany Fixture.dataLayer;
     updateOne := updateOne Fixture.dataLayer;
     deleteByQuery := deleteByQuery Fixture.dataLayer;
     updateByQuery := updateByQuery Fixture.dataLayer;
     validateAlterations := fun v =>
       match v with
       | VObj _ => None
       | _ => Some "value must be of type object"
       end;
     looseEq := looseEq Fixture.dataLayer |}.

(** [authors.articles], the one-to-many side of [articles.author]. *)
Definition authorOfArticle : Relation :=
  {| collection := "articles"; field := "author";
     related_collection := Some "authors";
     meta := Some {| one_field := Some "articles";
                     one_collection_field := None;
                     one_allowed_collections := None;
                     one_deselect_action := None |} |}.

(** [blocks.item], many-to-any. *)
Definition itemOfBlock : Relation :=
  {| collection := "blocks"; field := "item";
     related_collection := None;
     meta := Some {| one_field := None;
                     one_collection_field := Some "collection";
                     one_allowed_collections := Some ["articles"; "authors"];
                     one_deselect_action := None |} |}.

End Nested.

(** A permission filter with a group inside a group:
    [{_or: [{title: {_eq: 'a'}}, {_or: [{}, {title: {_eq: 'b'}}]}]}]. *)
Module Grouped.

Definition inner : list Value :=
  [VObj []; Fixture.leaf "title" "_eq" (VStr "b")].

Definition outer : list Value :=
  [Fixture.leaf "title" "_eq" (VStr "a"); VObj [("_or", VArr inner)]].

Definition rootFilter : Value := VObj [("_or", VArr outer)].

(** What the callback of the outer group closes over on [articles]. *)
Definition closure : GroupClosure :=
  {| g_value := VArr outer; g_collection := "articles"; g_logical := or_;
     g_subQuery := false; g_aliasMap := [] |}.

End Grouped.

(* ===================================================================== *)
(** * Vocabulary of the statements                                        *)
(* ===================================================================== *)

(** The pass after one more clause, and after one more join. *)
Definition withWhere (logical : Logical) (method : WhereMethod) (args : WhereArgs)
                     (p : Pass) : Pass :=
  {| dbQuery := addWhere {| w_bool := logical; w_method := method; w_args := args |}
                  (dbQuery p);
     aliasMap := aliasMap p; drawn := drawn p |}.

Definition withJoin (j : JoinClause) (p : Pass) : Pass :=
  {| dbQuery := leftJoin j (dbQuery p); aliasMap := aliasMap p; drawn := drawn p |}.

(** The operators of the first [switch] of [applyFilterToQuery]. *)
Definition valueless : list string := ["_null"; "_nnull"; "_empty"; "_nempty"].

(** The method of the opposite sense. *)
Definition inverted (method : WhereMethod) : WhereMethod :=
  match method with
  | where_ => whereNot
  | whereNot => where_
  | whereNull => whereNotNull
  | whereNotNull => whereNull
  | whereIn => whereNotIn
  | whereNotIn => whereIn
  | whereBetween => whereNotBetween
  | whereNotBetween => whereBetween
  | whereRaw => whereRaw
  end.

(** The method a valueless operator uses for an operand: inverted when the
    operand is [false]. *)
Definition sense (compareValue : Value) (method : WhereMethod) : WhereMethod :=
  if isFalse compareValue then inverted method else method.




(** An integer the doubles hold exactly, and one whose text is its digits. *)
Definition exactNumber (z : Z) : Prop := (Z.abs z <= 2 ^ 53)%Z.

Definition plainDigits (z : Z) : Prop := (Z.abs z < 10 ^ 21)%Z.


(** The pass after a hop drew its alias and recorded it for the path. *)
Definition afterHop (E : Collaborators) (parentAlias : option string)
                    (path : list string) (p : Pass) : Pass :=
  {| dbQuery := dbQuery p;
     aliasMap := Lodash.set (aliasMap p) (aliasPath parentAlias path)
                   (VStr (generateAlias E (drawn p)));
     drawn := S (drawn p) |}.

(** The join of a one-to-many hop and of a many-to-one hop. *)
Definition o2mJoin (alias parent pk : string) (relation : Relation) : JoinClause :=
  LeftJoin alias (Some (collection relation)) (parent ++ "." ++ pk)
    (alias ++ "." ++ field relation).

Definition m2oJoin (alias parent pk : string) (relation : Relation) : JoinClause :=
  LeftJoin alias (related_collection relation) (parent ++ "." ++ field relation)
    (alias ++ "." ++ pk).

(** A builder with more joins at the end. *)
Definition withJoins (more : list JoinClause) (q : QueryBuilder) : QueryBuilder :=
  {| b_select := b_select q; b_from := b_from q; b_order := b_order q;
     b_limit := b_limit q; b_offset := b_offset q;
     b_joins := b_joins q ++ more; b_wheres := b_wheres q |}.

(** What a finished computation leaves, as [applyFilter] reports it. *)
Definition outcome (r : Result (unit * Pass)) : Result (QueryBuilder * nat) :=
  match r with
  | Ok (_, p) => Ok (dbQuery p, drawn p)
  | Throw e => Throw e
  end.

(** The pass after [k] traversals of the same many-to-one path, one after
    the other: each draws an alias, records it for the path and joins. *)
Fixpoint afterLeaves (E : Collaborators) (join : string -> JoinClause)
                     (path : list string) (k : nat) (p : Pass) : Pass :=
  match k with
  | O => p
  | S k' =>
      afterLeaves E join path k'
        (withJoin (join (generateAlias E (drawn p))) (afterHop E None path p))
  end.

(** [alias || parent] *)
Definition aliasOrParent (alias parent : string) : string :=
  if String.eqb alias "" then parent else alias.

(** The join of a many-to-one hop, as a function of the alias drawn. *)
Definition m2oJoinFor (parent pk : string) (relation : Relation) : string -> JoinClause :=
  fun alias => m2oJoin alias parent pk relation.

(** A computation that, when it returns, has only added joins. *)
Definition JoinsOnly {A : Type} (m : M Pass A) : Prop :=
  forall p a p', m p = Ok (a, p') ->
    exists more, dbQuery p' = withJoins more (dbQuery p).

(** A computation, and a plain result, that is never the Forbidden
    exception. *)
Definition NeverForbidden {S A : Type} (m : M S A) : Prop :=
  forall s, m s <> Throw ForbiddenException.

Definition NotForbidden {A : Type} (r : Result A) : Prop :=
  r <> Throw ForbiddenException.

(** The tokens of the two [switch] statements of [applyFilterToQuery]. *)
Definition operatorTable : list string :=
  ["_null"; "_nnull"; "_empty"; "_nempty";
   "_eq"; "_neq"; "_contains"; "_ncontains"; "_starts_with"; "_nstarts_with";
   "_ends_with"; "_nends_with"; "_gt"; "_gte"; "_lt"; "_lte"; "in"; "nin";
   "_between"; "_nbetween"; "_intersects"; "_nintersects"; "_intersects_bbox";
   "_nintersects_bbox"].

(** The operators whose negated form takes the arguments of the positive
    one: every pair of the table but [_empty] and [_nempty], whose
    comparisons differ, and the pairs of the geometry helper. *)
Definition negationPairs : list (string * string) :=
  [("_null", "_nnull"); ("_eq", "_neq"); ("_contains", "_ncontains");
   ("_starts_with", "_nstarts_with"); ("_ends_with", "_nends_with");
   ("in", "nin"); ("_between", "_nbetween")].

(** The operators whose case names the geometry helper. *)
Definition geometryOperators : list string :=
  ["_intersects"; "_nintersects"; "_intersects_bbox"; "_nintersects_bbox"].

(** [val !== undefined] *)
Definition isDefined (val : Value) : bool := negb (isUndefined val).

(** The hops of a path whose segments but the last are many-to-one
    relations with a related collection the schema knows, and whose last
    segment is a plain field: for each hop the relation, the related
    collection and its primary key.  [None] for any other path. *)
Fixpoint m2oHops (schema : SchemaOverview) (collection_ : string)
                 (path : list string) {struct path}
  : option (list (Relation * string * string)) :=
  match path with
  | [] => None
  | segment :: rest =>
      match rest with
      | [] =>
          match findRelation schema collection_ (pathRootOf segment) with
          | None => Some []
          | Some _ => None
          end
      | _ :: _ =>
          match findRelation schema collection_ (pathRootOf segment) with
          | Some relation =>
              if isType m2o (getRelationType relation collection_ (pathRootOf segment))
              then
                match related_collection relation with
                | Some related =>
                    match primaryOf schema related with
                    | Ok pk =>
                        option_map (cons (relation, related, pk))
                          (m2oHops schema related rest)
                    | Throw _ => None
                    end
                | None => None
                end
              else None
          | None => None
          end
      end
  end.

(** The joins of such hops: each joins the related collection under the
    alias of its draw, on the foreign key of the table before it. *)
Fixpoint chainJoins (E : Collaborators) (parent : string) (d : nat)
                    (hops : list (Relation * string * string)) : list JoinClause :=
  match hops with
  | [] => []
  | (relation, related, pk) :: tl =>
      LeftJoin (generateAlias E d) (Some related)
        (parent ++ "." ++ field relation) (generateAlias E d ++ "." ++ pk)
      :: chainJoins E (generateAlias E d) (S d) tl
  end.

(** The aliases of [k] draws from the [d]-th on. *)
Definition aliasesFrom (E : Collaborators) (d k : nat) : list string :=
  List.map (generateAlias E) (List.seq d k).

(** [alias] as [getWhereColumn] receives it. *)
Definition aliasValue (parentAlias : option string) : Value :=
  match parentAlias with
  | Some a => VStr a
  | None => VUndefined
  end.

(** A builder with more clauses at the end. *)
Definition withWheres (more : list WhereClause) (q : QueryBuilder) : QueryBuilder :=
  {| b_select := b_select q; b_from := b_from q; b_order := b_order q;
     b_limit := b_limit q; b_offset := b_offset q;
     b_joins := b_joins q; b_wheres := b_wheres q ++ more |}.

(** A computation that, when it returns, leaves the pass related to the
    pass it started from. *)
Definition Preserves (R : Pass -> Pass -> Prop) {A : Type} (m : M Pass A) : Prop :=
  forall p a p', m p = Ok (a, p') -> R p p'.

(** What the join pass may do: add joins and draw aliases. *)
Definition JoinStep (p p' : Pass) : Prop :=
  (exists joins_, dbQuery p' = withJoins joins_ (dbQuery p))
  /\ drawn p <= drawn p'.

(** What the predicate pass may do: add clauses under one connective. *)
Definition ClauseStep (logical : Logical) (p p' : Pass) : Prop :=
  exists clauses,
    p' = {| dbQuery := withWheres clauses (dbQuery p);
            aliasMap := aliasMap p; drawn := drawn p |}
    /\ Forall (fun w => w_bool w = logical) clauses.

(** The sort of a query, as [applyQuery] hands it to [orderBy]. *)
Definition qualified (collection_ : string) (query : Query) : list OrderBy :=
  match sort query with
  | Some items =>
      List.map (fun s => {| o_column := collection_ ++ "." ++ o_column s;
                            o_order := o_order s |}) items
  | None => []
  end.

(** The offset a call of [offset] leaves in the builder when it returns:
    the integer read from its argument, or the offset the builder had when
    there is none to read. *)
Definition offsetRead (val before : option Z) : option Z :=
  match val with
  | Some z => Some z
  | None => before
  end.

(** The offset [applyQuery] leaves in the builder when it returns: the one
    read from [limit * (page - 1)] when page and limit are both non-zero,
    else the one read from the explicit offset when it is non-zero, else
    the one the builder had. *)
Definition offsetAfter (E : Collaborators) (query : Query) (before : option Z)
  : option Z :=
  let explicit :=
    match offset query with
    | Some o =>
        if truthyNumber (Some o) then offsetRead (parseInt10 E (Some o)) before
        else before
    | None => before
    end in
  match page query, limit query with
  | Some p, Some l =>
      if truthyNumber (Some p) && truthyNumber (Some l)
      then offsetRead (parseInt10 E (numberTimes l (numberMinus p 1))) explicit
      else explicit
  | _, _ => explicit
  end.

(** [s] between two quote characters [c]. *)
Definition quotedWith (c : ascii) (s : string) : string :=
  String c (s ++ String c EmptyString).

(** The quote characters the default of a column may be wrapped in. *)
Definition isQuoteChar (c : ascii) : Prop :=
  c = "'"%char \/ c = Ascii.ascii_of_nat 34.

(** The column types [getDefaultValue] parses as numbers. *)
Definition numericTypes : list string :=
  ["bigInteger"; "integer"; "decimal"; "float"].

(** The payloads [a] and [b] have the same keys, in the same order. *)
Definition sameKeys (a b : list (string * Value)) : Prop :=
  List.map fst a = List.map fst b.

(** [key] is the field of a relation of [collection_]. *)
Definition relationalField (schema : SchemaOverview) (collection_ key : string) : bool :=
  List.existsb
    (fun relation =>
       String.eqb (collection relation) collection_ && String.eqb (field relation) key)
    (relations schema).

(** What [payload] was made of [data]: a step of the loops over nested
    single records keeps the payload or assigns the field of the relation. *)
Definition keptOrAssigned (relation : Relation) (data payload : list (string * Value))
  : Prop :=
  payload = data \/ exists v, payload = assign (field relation) v data.

(* ===================================================================== *)
(** * Properties                                                          *)
(* ===================================================================== *)

Arguments findRelation : simpl never.
Arguments pathRootOf : simpl never.
Arguments pathScopeOf : simpl never.
Arguments getRelationType : simpl never.
Arguments primaryOf : simpl never.
Arguments relatedPrimaryOf : simpl never.
Arguments scopeOrThrow : simpl never.
Arguments notRelationalField : simpl never.

(** ** Running the monad *)

Lemma forEach_app {S A : Type} (body : A -> M S unit) (l1 l2 : list A) (s : S) :
  forEach body (l1 ++ l2) s = bind (forEach body l1) (fun _ => forEach body l2) s.
Proof.
  revert s. induction l1 as [|x l1 IH]; intros s; simpl.
  - reflexivity.
  - unfold bind. destruct (body x s) as [[u s']|e]; [|reflexivity].
    rewrite IH. reflexivity.
Qed.

(** ** The compiler on small inputs *)

Example getFilterPath_nested :
  getFilterPath "a" (VObj [("b", VObj [("c", VObj [("_eq", VNum 1)])])])
  = Ok ["a"; "b"; "c"].
Proof. reflexivity. Qed.

Example getOperation_nested :
  getOperation "a" (VObj [("b", VObj [("c", VObj [("_eq", VNum 1)])])])
  = Ok ("_eq", VNum 1).
Proof. reflexivity. Qed.

Example getOperation_bare_scalar : getOperation "a" (VNum 3) = Ok ("_eq", VNum 3).
Proof. reflexivity. Qed.

Example scope_of_segment :
  pathRootOf "item:articles" = "item"
  /\ pathScopeOf "item:articles" = Some "articles"
  /\ pathScopeOf "item" = None
  /\ pathScopeOf "item:" = Some "".
Proof. repeat split; reflexivity. Qed.

(** [{_and: [{a: {_eq: 1}}, {b: {_eq: 2}}]}] against [items]: one group,
    whose callback registers [items.a = 1] and [items.b = 2]. *)
Example and_group_of_two :
  forall c,
    c = {| g_value := VArr [Fixture.leaf "a" "_eq" (VNum 1);
                            Fixture.leaf "b" "_eq" (VNum 2)];
           g_collection := "items"; g_logical := and_; g_subQuery := false;
           g_aliasMap := [] |} ->
    applyFilter Fixture.collaborators Fixture.schema Knex.empty
      (VObj [("_and", VArr [Fixture.leaf "a" "_eq" (VNum 1);
                            Fixture.leaf "b" "_eq" (VNum 2)])])
      "items" false 0
    = Ok (addWhere {| w_bool := and_; w_method := where_; w_args := ArgGroup c |}
            Knex.empty, 0)
    /\ runGroup Fixture.collaborators Fixture.schema c Knex.empty 0
       = Ok (addWhere {| w_bool := and_; w_method := where_;
                         w_args := ArgObject "items.b" (VNum 2) |}
               (addWhere {| w_bool := and_; w_method := where_;
                            w_args := ArgObject "items.a" (VNum 1) |}
                  Knex.empty), 0).
Proof. intros c ->. split; reflexivity. Qed.

(** A many-to-one hop followed by a one-to-many hop: both are joined, and
    the predicate goes to the alias of the second. *)
Example intermediate_one_to_many_is_joined :
  applyFilter Fixture.collaborators Fixture.schema Knex.empty
    (Fixture.nest "author"
       (Fixture.nest "articles" (Fixture.leaf "title" "_eq" (VStr "x"))))
    "articles" false 0
  = Ok (addWhere {| w_bool := and_; w_method := where_;
                    w_args := ArgObject "aaaab.title" (VStr "x") |}
          (withJoins
             [LeftJoin "aaaaa" (Some "authors") "articles.author" "aaaaa.id";
              LeftJoin "aaaab" (Some "articles") "aaaaa.id" "aaaab.author"]
             Knex.empty), 2).
Proof. reflexivity. Qed.

(** The callback of the search on ["42"]: a LIKE on the text column, an
    equality on the integer column. *)
Example search_for_42 :
  runSearch Fixture.collaborators
    {| q_fields := [("title", Fixture.plainField "string");
                    ("id", Fixture.plainField "integer")];
       q_collection := "articles"; q_searchQuery := "42" |} Knex.empty
  = addWhere {| w_bool := or_; w_method := where_;
                w_args := ArgObject "articles.id" (VNum 42) |}
      (addWhere {| w_bool := or_; w_method := whereRaw;
                   w_args := ArgRaw "LOWER(??) LIKE ?"
                               [VStr "articles.title"; VStr "%42%"] |}
         Knex.empty).
Proof. reflexivity. Qed.

(** [134217729 * (134217730 - 1)] is [2^54 + 2^28 + 1] before rounding. *)
Example product_is_rounded :
  numberTimes 134217729 (numberMinus 134217730 1) = Some 18014398777917440%Z
  /\ numberTimes 10 (numberMinus 2 1) = Some 10%Z
  /\ nearestDouble (2 ^ 53 + 1) = Some (2 ^ 53)%Z
  /\ nearestDouble (2 ^ 53 + 3) = Some (2 ^ 53 + 4)%Z
  /\ nearestDouble (2 ^ 1024) = None.
Proof. repeat split; vm_compute; reflexivity. Qed.

Example unquote_default :
  unquote (VStr "'false'") = VStr "false" /\ unquote (VStr "'") = VStr ""
  /\ unquote (VStr "false") = VStr "false".
Proof. repeat split; reflexivity. Qed.

(** ** [get-default-value.ts] *)

Lemma castToBoolean_string (s : string) :
  castToBoolean (VStr s) = false <-> s = "false" \/ s = "1".
Proof.
  simpl. split.
  - intros H. apply andb_false_iff in H. destruct H as [H|H];
      apply negb_false_iff, String.eqb_eq in H; auto.
  - intros [->| ->]; reflexivity.
Qed.

(** C10.  On a boolean column, [getDefaultValue] returns [null] for the
    defaults [null], ['null'] and ['NULL'] and otherwise casts the default
    (after the quote stripping) with [castToBoolean]; [castToBoolean] is
    false on a string exactly when the string is ['false'] or ['1'], so
    the default ['0'] gives [true] and ['1'] gives [false]; a value that is
    not a string is cast by its truthiness. *)
Theorem getDefaultValue_boolean
  (E : Collaborators) (Column : Type) (default_value : Column -> Value)
  (getLocalType : Column -> string) (column : Column)
  (Hbool : getLocalType column = "boolean") :
  let result := getDefaultValue E default_value getLocalType column in
  (forall s, castToBoolean (VStr s) = false <-> s = "false" \/ s = "1")
  /\ (forall v, (forall s, v <> VStr s) -> castToBoolean v = truthy v)
  /\ (default_value column = VNull \/ default_value column = VStr "null"
      \/ default_value column = VStr "NULL" -> result = VNull)
  /\ (forall s, default_value column = VStr s -> s <> "null" -> s <> "NULL" ->
        result = VBool (castToBoolean (unquote (VStr s))))
  /\ (default_value column = VStr "0" -> result = VBool true)
  /\ (default_value column = VStr "1" -> result = VBool false)
  /\ (forall v, default_value column = v -> (forall s, v <> VStr s) ->
        v <> VNull -> v <> VUndefined -> result = VBool (truthy v)).
Proof.
  intros result. subst result. unfold getDefaultValue. rewrite Hbool.
  change (memberOf "boolean" ["bigInteger"; "integer"; "decimal"; "float"])
    with false.
  change (String.eqb "boolean" "boolean") with true. cbv iota.
  split; [apply castToBoolean_string|].
  split; [intros v Hv; destruct v; try reflexivity;
          exfalso; exact (Hv s eq_refl)|].
  split; [intros [H|[H|H]]; rewrite H; reflexivity|].
  split.
  { intros s Hs Hn HN. rewrite Hs. cbv beta iota delta [isNull isString].
    apply String.eqb_neq in Hn, HN. rewrite Hn, HN. reflexivity. }
  split; [intros H; rewrite H; reflexivity|].
  split; [intros H; rewrite H; reflexivity|].
  intros v Hv Hs Hn Hu. rewrite Hv.
  destruct v; try reflexivity; try congruence;
    exfalso; exact (Hs s eq_refl).
Qed.

Lemma getDefaultValue_boolean_witness :
  getDefaultValue Fixture.collaborators (fun c : Value => c)
    (fun _ => "boolean") (VStr "0") = VBool true
  /\ getDefaultValue Fixture.collaborators (fun c : Value => c)
       (fun _ => "boolean") (VStr "1") = VBool false.
Proof.
  pose proof (@getDefaultValue_boolean Fixture.collaborators Value (fun c => c)
                (fun _ => "boolean") (VStr "0") eq_refl) as H0.
  pose proof (@getDefaultValue_boolean Fixture.collaborators Value (fun c => c)
                (fun _ => "boolean") (VStr "1") eq_refl) as H1.
  split.
  - apply H0. reflexivity.
  - apply H1. reflexivity.
Defined.

(** ** The operator table *)

Lemma eqb_of_neq (a b : string) : a <> b -> String.eqb a b = false.
Proof. apply String.eqb_neq. Qed.

(** C6, at the code.  With an undefined operand, [applyFilterToQuery]
    registers nothing and returns normally for every operator other than
    [_null], [_nnull], [_empty] and [_nempty]; these four register a clause
    whatever the operand is, the undefined one included, with the method of
    the opposite sense when the operand is [false].  The clause of
    [_nempty] is [whereNot(key, '!=', '')], [where(key, '!=', '')] on
    [false]: against the one of [_empty] both the method and the comparison
    are the opposite ones, where [_nnull] differs from [_null] by the
    method alone. *)
Theorem applyFilterToQuery_absent_operand
  (E : Collaborators) (key : string) (logical : Logical) (p : Pass) :
  (forall operator, ~ In operator valueless ->
     applyFilterToQuery E key operator VUndefined logical p = Ok (tt, p))
  /\ (forall compareValue,
        applyFilterToQuery E key "_null" compareValue logical p
        = Ok (tt, withWhere logical (sense compareValue whereNull) (ArgColumn key) p)
        /\ applyFilterToQuery E key "_nnull" compareValue logical p
           = Ok (tt, withWhere logical (sense compareValue whereNotNull)
                       (ArgColumn key) p)
        /\ applyFilterToQuery E key "_empty" compareValue logical p
           = Ok (tt, withWhere logical (sense compareValue where_)
                       (ArgCompare key "=" (VStr "")) p)
        /\ applyFilterToQuery E key "_nempty" compareValue logical p
           = Ok (tt, withWhere logical (sense compareValue whereNot)
                       (ArgCompare key "!=" (VStr "")) p))
  /\ sense VUndefined whereNull = whereNull
  /\ sense (VBool false) whereNull = whereNotNull
  /\ sense VUndefined whereNotNull = whereNotNull
  /\ sense (VBool false) whereNotNull = whereNull
  /\ sense VUndefined where_ = where_
  /\ sense (VBool false) where_ = whereNot
  /\ sense VUndefined whereNot = whereNot
  /\ sense (VBool false) whereNot = where_.
Proof.
  split.
  { intros operator Hnot.
    assert (H1 : operator <> "_null") by (intros ->; apply Hnot; simpl; auto).
    assert (H2 : operator <> "_nnull") by (intros ->; apply Hnot; simpl; auto).
    assert (H3 : operator <> "_empty") by (intros ->; apply Hnot; simpl; auto).
    assert (H4 : operator <> "_nempty") by (intros ->; apply Hnot; simpl; auto).
    unfold applyFilterToQuery, applyValuelessOperator.
    rewrite (eqb_of_neq H1), (eqb_of_neq H2), (eqb_of_neq H3), (eqb_of_neq H4).
    reflexivity. }
  split.
  { intros compareValue.
    repeat split;
      unfold applyFilterToQuery, applyValuelessOperator, sense;
      destruct compareValue as [| |[|]| | | |]; reflexivity. }
  repeat split.
Qed.

(** [_nempty: true] and [_empty: true] on [articles.title]. *)
Lemma applyFilterToQuery_absent_operand_witness :
  applyFilterToQuery Fixture.collaborators "articles.title" "_nempty" (VBool true)
    and_ {| dbQuery := Knex.empty; aliasMap := []; drawn := 0 |}
  = Ok (tt, withWhere and_ whereNot (ArgCompare "articles.title" "!=" (VStr ""))
              {| dbQuery := Knex.empty; aliasMap := []; drawn := 0 |})
  /\ applyFilterToQuery Fixture.collaborators "articles.title" "_empty" (VBool true)
       and_ {| dbQuery := Knex.empty; aliasMap := []; drawn := 0 |}
     = Ok (tt, withWhere and_ where_ (ArgCompare "articles.title" "=" (VStr ""))
                 {| dbQuery := Knex.empty; aliasMap := []; drawn := 0 |}).
Proof.
  pose proof (proj1 (proj2
    (applyFilterToQuery_absent_operand Fixture.collaborators "articles.title"
       and_ {| dbQuery := Knex.empty; aliasMap := []; drawn := 0 |}))
    (VBool true)) as H.
  split; [exact (proj2 (proj2 (proj2 H)))|exact (proj1 (proj2 (proj2 H)))].
Defined.

(** ** Paging *)


Lemma exact_plainDigits (z : Z) : exactNumber z -> plainDigits z.
Proof.
  unfold exactNumber, plainDigits. intros H.
  assert (H53 : (2 ^ 53 < 10 ^ 21)%Z) by reflexivity. lia.
Qed.








(** ** The two passes over a filter object *)

Section Passes.

Variable E : Collaborators.
Variable schema : SchemaOverview.
Variable subQuery : bool.

Lemma addJoins_obj_nil (collection_ : string) (p : Pass) :
  addJoins E schema subQuery (VObj []) collection_ p = Ok (tt, p).
Proof. reflexivity. Qed.

Lemma addJoins_obj_cons (collection_ key : string) (value : Value)
      (tl : list (string * Value)) (p : Pass) :
  addJoins E schema subQuery (VObj ((key, value) :: tl)) collection_ p
  = bind (addJoinsEntry E schema subQuery collection_ key value)
      (fun _ => addJoins E schema subQuery (VObj tl) collection_) p.
Proof.
  assert (Heach : forall l q,
    (fix each (l' : list Value) : M Pass unit :=
       match l' with
       | [] => ret tt
       | subFilter :: tl' =>
           bind (addJoins E schema subQuery subFilter collection_) (fun _ => each tl')
       end) l q
    = forEach (fun subFilter => addJoins E schema subQuery subFilter collection_) l q).
  { induction l as [|x l IH]; intros q; [reflexivity|].
    cbn [forEach]. unfold bind.
    destruct (addJoins E schema subQuery x collection_ q) as [[u q']|e];
      [apply IH|reflexivity]. }
  cbn [addJoins]. unfold addJoinsEntry.
  destruct (isLogicalKey key); [|reflexivity].
  destruct value; try reflexivity.
  unfold bind.
  destruct (lift (if String.eqb key "_or" then someEmpty items else Ok false) p)
    as [[skip p']|e]; [|reflexivity].
  destruct skip; [reflexivity|].
  rewrite <- Heach. reflexivity.
Qed.

Lemma addJoins_obj_app (collection_ : string) (pre post : list (string * Value))
      (p : Pass) :
  addJoins E schema subQuery (VObj (pre ++ post)) collection_ p
  = bind (addJoins E schema subQuery (VObj pre) collection_)
      (fun _ => addJoins E schema subQuery (VObj post) collection_) p.
Proof.
  revert p. induction pre as [|[k v] pre IH]; intros p.
  - reflexivity.
  - rewrite <- app_comm_cons. unfold bind. rewrite !addJoins_obj_cons.
    unfold bind.
    destruct (addJoinsEntry E schema subQuery collection_ k v p) as [[u p']|e];
      [rewrite IH; reflexivity|reflexivity].
Qed.

Lemma addWhereClauses_obj (collection_ : string) (logical : Logical)
      (props : list (string * Value)) :
  addWhereClauses E schema subQuery (VObj props) collection_ logical
  = forEach (fun kv => addWhereEntry E schema subQuery collection_ logical
                         (fst kv) (snd kv)) props.
Proof. reflexivity. Qed.

Lemma addWhereClauses_obj_app (collection_ : string) (logical : Logical)
      (pre post : list (string * Value)) (p : Pass) :
  addWhereClauses E schema subQuery (VObj (pre ++ post)) collection_ logical p
  = bind (addWhereClauses E schema subQuery (VObj pre) collection_ logical)
      (fun _ => addWhereClauses E schema subQuery (VObj post) collection_ logical) p.
Proof. rewrite !addWhereClauses_obj. apply forEach_app. Qed.

Lemma addWhereClauses_obj_cons (collection_ : string) (logical : Logical)
      (key : string) (value : Value) (tl : list (string * Value)) (p : Pass) :
  addWhereClauses E schema subQuery (VObj ((key, value) :: tl)) collection_ logical p
  = bind (addWhereEntry E schema subQuery collection_ logical key value)
      (fun _ => addWhereClauses E schema subQuery (VObj tl) collection_ logical) p.
Proof. reflexivity. Qed.

End Passes.

(** ** The short-circuit of [_or] *)

Lemma someEmpty_found (subFilters : list Value) :
  (forall c, In c subFilters -> isPlainObject c = true) ->
  In (VObj []) subFilters ->
  someEmpty subFilters = Ok true.
Proof.
  induction subFilters as [|c l IH]; intros Hobj Hin; [destruct Hin|].
  simpl. destruct c as [| | | | | |props];
    try (specialize (Hobj _ (or_introl eq_refl)); discriminate Hobj).
  destruct props as [|[k v] props]; [reflexivity|].
  simpl. apply IH.
  - intros c Hc. apply Hobj. right. exact Hc.
  - destruct Hin as [Hin|Hin]; [discriminate Hin|exact Hin].
Qed.

(** C4, at the code.  An [_or] group one of whose sub-filters is the empty
    object adds nothing in either pass: the join pass and the predicate
    pass over a filter holding the group do what they do over the filter
    without it, whatever the builder, the alias map and the enclosing
    connective, and a filter made of the group alone leaves the query as
    it was.  The callback of an enclosing group does the same: the
    sub-filter that holds the group registers what it registers without it,
    so that under an enclosing [_or] the group is left out of the
    disjunction. *)
Theorem or_with_empty_subfilter_is_skipped
  (E : Collaborators) (schema : SchemaOverview) (subQuery : bool)
  (collection_ : string) (pre post : list (string * Value))
  (subFilters : list Value)
  (Hobj : forall c, In c subFilters -> isPlainObject c = true)
  (Hempty : In (VObj []) subFilters) :
  (forall p,
     addJoins E schema subQuery
       (VObj (pre ++ ("_or", VArr subFilters) :: post)) collection_ p
     = addJoins E schema subQuery (VObj (pre ++ post)) collection_ p)
  /\ (forall logical p,
        addWhereClauses E schema subQuery
          (VObj (pre ++ ("_or", VArr subFilters) :: post)) collection_ logical p
        = addWhereClauses E schema subQuery (VObj (pre ++ post)) collection_
            logical p)
  /\ (forall rootQuery n,
        applyFilter E schema rootQuery
          (VObj (pre ++ ("_or", VArr subFilters) :: post)) collection_ subQuery n
        = applyFilter E schema rootQuery (VObj (pre ++ post)) collection_
            subQuery n)
  /\ (forall rootQuery n,
        applyFilter E schema rootQuery (VObj [("_or", VArr subFilters)])
          collection_ subQuery n
        = Ok (rootQuery, n))
  /\ (forall before after logical aliases subQuery_ n,
        runGroup E schema
          {| g_value := VArr (before
                              ++ VObj (pre ++ ("_or", VArr subFilters) :: post)
                              :: after);
             g_collection := collection_; g_logical := logical;
             g_subQuery := subQuery; g_aliasMap := aliases |} subQuery_ n
        = runGroup E schema
            {| g_value := VArr (before ++ VObj (pre ++ post) :: after);
               g_collection := collection_; g_logical := logical;
               g_subQuery := subQuery; g_aliasMap := aliases |} subQuery_ n).
Proof.
  pose proof (someEmpty_found subFilters Hobj Hempty) as Hsome.
  assert (HJ : forall p,
    addJoins E schema subQuery
      (VObj (pre ++ ("_or", VArr subFilters) :: post)) collection_ p
    = addJoins E schema subQuery (VObj (pre ++ post)) collection_ p).
  { intros p. rewrite !addJoins_obj_app. unfold bind at 1 2.
    destruct (addJoins E schema subQuery (VObj pre) collection_ p) as [[u p']|e];
      [|reflexivity].
    rewrite addJoins_obj_cons. unfold bind, addJoinsEntry. simpl.
    unfold lift. rewrite Hsome. reflexivity. }
  assert (HW : forall logical p,
    addWhereClauses E schema subQuery
      (VObj (pre ++ ("_or", VArr subFilters) :: post)) collection_ logical p
    = addWhereClauses E schema subQuery (VObj (pre ++ post)) collection_ logical p).
  { intros logical p. rewrite !addWhereClauses_obj_app. unfold bind at 1 2.
    destruct (addWhereClauses E schema subQuery (VObj pre) collection_ logical p)
      as [[u p']|e]; [|reflexivity].
    rewrite addWhereClauses_obj_cons. unfold bind, addWhereEntry. simpl.
    unfold lift. rewrite Hsome. reflexivity. }
  split; [exact HJ|]. split; [exact HW|]. split; [|split].
  - intros rootQuery n. unfold applyFilter, applyFilterPass, bind.
    rewrite HJ.
    destruct (addJoins E schema subQuery (VObj (pre ++ post)) collection_ _)
      as [[u p']|e]; [|reflexivity].
    rewrite HW. reflexivity.
  - intros rootQuery n. unfold applyFilter, applyFilterPass, bind.
    rewrite addJoins_obj_cons. unfold bind, addJoinsEntry. simpl.
    unfold lift. rewrite Hsome. simpl.
    unfold addWhereClauses. simpl. unfold bind, addWhereEntry. simpl.
    unfold lift. rewrite Hsome. reflexivity.
  - intros before after logical aliases subQuery_ n.
    unfold runGroup. cbn [g_value g_collection g_logical g_subQuery g_aliasMap].
    rewrite !forEach_app. unfold bind.
    destruct (forEach _ before _) as [[u p']|e]; [|reflexivity].
    cbn [forEach]. unfold bind. rewrite HW. reflexivity.
Qed.

(** The nested groups on [articles]: the root registers the outer group,
    whose callback registers the first disjunct alone. *)
Lemma or_with_empty_subfilter_is_skipped_witness :
  applyFilter Fixture.collaborators Fixture.schema Knex.empty
    Grouped.rootFilter "articles" false 0
  = Ok (addWhere {| w_bool := and_; w_method := where_;
                    w_args := ArgGroup Grouped.closure |}
          Knex.empty, 0)
  /\ runGroup Fixture.collaborators Fixture.schema Grouped.closure Knex.empty 0
     = Ok (addWhere {| w_bool := or_; w_method := where_;
                       w_args := ArgObject "articles.title" (VStr "a") |}
             Knex.empty, 0).
Proof.
  split; [reflexivity|].
  refine (eq_trans
    (proj2 (proj2 (proj2 (proj2
       (@or_with_empty_subfilter_is_skipped Fixture.collaborators Fixture.schema
          false "articles" [] [] Grouped.inner _ _))))
       [Fixture.leaf "title" "_eq" (VStr "a")] [] or_ [] Knex.empty 0) _).
  - intros c [<-|[<-|[]]]; reflexivity.
  - simpl. auto.
  - reflexivity.
Defined.

(** ** Paths *)

Lemma getFilterPath_head (key : string) (value : Value) (path : list string) :
  getFilterPath key value = Ok path -> exists rest, path = key :: rest.
Proof.
  destruct value as [| | | | | |props]; simpl; try discriminate;
    try (intros [= <-]; eexists; reflexivity).
  destruct props as [|[k v] props]; [discriminate|].
  destruct (startsWith "_" k).
  - intros [= <-]. eexists; reflexivity.
  - destruct (getFilterPath k v); simpl; [|discriminate].
    intros [= <-]. eexists; reflexivity.
Qed.


(** A segment that is no relation of the parent ends the chain. *)
Lemma followRelation_plain
      (E : Collaborators) (schema : SchemaOverview) (subQuery : bool)
      (segment : string) (remaining : list string) (parentCollection : string)
      (parentAlias : option string) (p : Pass) :
  findRelation schema parentCollection (pathRootOf segment) = None ->
  followRelation E schema subQuery (segment :: remaining) parentCollection
    parentAlias p
  = Ok (tt, p).
Proof. intros H. cbn [followRelation]. rewrite H. reflexivity. Qed.


(** A key whose path is the key alone never reaches [addJoin]. *)
Lemma addJoinsEntry_single_segment
      (E : Collaborators) (schema : SchemaOverview) (subQuery : bool)
      (collection_ key : string) (value : Value) (path : list string) (p : Pass) :
  isLogicalKey key = false ->
  getFilterPath key value = Ok path ->
  List.length path = 1%nat ->
  addJoinsEntry E schema subQuery collection_ key value p = Ok (tt, p).
Proof.
  intros Hkey Hpath Hone. unfold addJoinsEntry. rewrite Hkey.
  unfold addJoinsField, bind, lift. rewrite Hpath, Hone. reflexivity.
Qed.




(** ** The membership operators *)

(** What [applyFilterToQuery] does once it is handed the token [in]. *)
Lemma applyFilterToQuery_in (E : Collaborators) (key : string) (logical : Logical)
      (v1 v2 : Value) (p : Pass) :
  isUndefined v1 = false -> isUndefined v2 = false ->
  applyFilterToQuery E key "in" (VArr [v1; VUndefined; v2]) logical p
  = Ok (tt, withWhere logical whereIn
              (ArgValues key (toArray E (VArr [v1; v2]))) p).
Proof.
  intros H1 H2. unfold applyFilterToQuery, dropUndefined. simpl.
  rewrite H1, H2. reflexivity.
Qed.

(** The token that reaches it from a filter is never [in]: [getOperation]
    returns a key that starts with an underscore, or [_eq]. *)
Lemma getOperation_operator :
  forall (value : Value) (key operator : string) (operand : Value),
    getOperation key value = Ok (operator, operand) ->
    startsWith "_" operator = true.
Proof.
  fix IH 1. intros value key operator operand.
  destruct value as [| | | | | |props]; simpl;
    destruct (startsWith "_" key && negb (key =? "_and") && negb (key =? "_or"))
      eqn:Hk;
    try (intros [= <- <-];
         apply andb_true_iff in Hk; destruct Hk as [Hk _];
         apply andb_true_iff in Hk; destruct Hk as [Hk _]; exact Hk);
    try (intros [= <- <-]; reflexivity).
  destruct props as [|[k v] tl]; [discriminate|]. apply IH.
Qed.

Lemma in_is_not_an_operator (key : string) (value operand : Value) :
  getOperation key value <> Ok ("in", operand)
  /\ getOperation key value <> Ok ("nin", operand).
Proof.
  split; intros H; apply getOperation_operator in H; discriminate H.
Qed.

(** The token the payload service uses for membership, [_in], is not in
    the table: the clause is dropped. *)
Lemma applyFilterToQuery_underscore_in (E : Collaborators) (key : string)
      (logical : Logical) (compareValue : Value) (p : Pass) :
  applyFilterToQuery E key "_in" compareValue logical p = Ok (tt, p)
  /\ applyFilterToQuery E key "_nin" compareValue logical p = Ok (tt, p).
Proof.
  unfold applyFilterToQuery. split; destruct compareValue; reflexivity.
Qed.

(** C3, at the code.  The filter [{field: {in: [v1, undefined, v2]}}] on a
    field that is no relation does not compile to a membership clause:
    [in] is read as a second path segment, and [getWhereColumn] throws
    InvalidQuery because the field is not relational. *)
Theorem in_filter_on_plain_field_is_rejected
  (E : Collaborators) (schema : SchemaOverview) (subQuery : bool)
  (rootQuery : QueryBuilder) (collection_ field_ : string) (v1 v2 : Value) (n : nat)
  (Hkey : isLogicalKey field_ = false)
  (Hplain : findRelation schema collection_ (pathRootOf field_) = None) :
  applyFilter E schema rootQuery
    (VObj [(field_, VObj [("in", VArr [v1; VUndefined; v2])])])
    collection_ subQuery n
  = Throw (notRelationalField collection_ (pathRootOf field_)).
Proof.
  unfold applyFilter, applyFilterPass, bind.
  rewrite addJoins_obj_cons. unfold bind, addJoinsEntry. rewrite Hkey.
  unfold addJoinsField, bind, lift. simpl.
  unfold addJoin. rewrite (followRelation_plain _ _ _ _ _ _ _ _ Hplain). simpl.
  unfold addWhereClauses. simpl. unfold bind, addWhereEntry. rewrite Hkey.
  unfold addWhereField, bind, lift. simpl. rewrite Hplain.
  destruct (startsWith "_" field_ && negb (field_ =? "_and") && negb (field_ =? "_or"));
    reflexivity.
Qed.

Lemma in_filter_on_plain_field_is_rejected_witness :
  applyFilter Fixture.collaborators Fixture.schema Knex.empty
    (Fixture.leaf "title" "in" (VArr [VNum 1; VUndefined; VNum 2]))
    "articles" false 0
  = Throw (notRelationalField "articles" "title").
Proof.
  apply (@in_filter_on_plain_field_is_rejected Fixture.collaborators Fixture.schema
           false Knex.empty "articles" "title" (VNum 1) (VNum 2) 0);
    reflexivity.
Defined.

(** ** What the join pass touches *)

Lemma withJoins_nil (q : QueryBuilder) : withJoins [] q = q.
Proof. destruct q. unfold withJoins. simpl. rewrite app_nil_r. reflexivity. Qed.

Lemma withJoins_app (m1 m2 : list JoinClause) (q : QueryBuilder) :
  withJoins m2 (withJoins m1 q) = withJoins (m1 ++ m2) q.
Proof. unfold withJoins. simpl. rewrite app_assoc. reflexivity. Qed.

Lemma leftJoin_withJoins (j : JoinClause) (q : QueryBuilder) :
  leftJoin j q = withJoins [j] q.
Proof. reflexivity. Qed.

Lemma JoinsOnly_ret {A : Type} (a : A) : JoinsOnly (ret a).
Proof.
  intros p a' p' [= <- <-]. exists []. symmetry. apply withJoins_nil.
Qed.

Lemma JoinsOnly_throw {A : Type} (e : Exception) : JoinsOnly (@throw Pass A e).
Proof. intros p a p' H. discriminate H. Qed.

Lemma JoinsOnly_lift {A : Type} (r : Result A) : JoinsOnly (lift r).
Proof.
  intros p a p' H. unfold lift in H. destruct r; [|discriminate H].
  injection H as <- <-. exists []. symmetry. apply withJoins_nil.
Qed.

Lemma JoinsOnly_bind {A B : Type} (m : M Pass A) (k : A -> M Pass B) :
  JoinsOnly m -> (forall a, JoinsOnly (k a)) -> JoinsOnly (bind m k).
Proof.
  intros Hm Hk p b p' H. unfold bind in H.
  destruct (m p) as [[a p1]|e] eqn:Hmp; [|discriminate H].
  destruct (Hm _ _ _ Hmp) as [m1 H1]. destruct (Hk a _ _ _ H) as [m2 H2].
  exists (m1 ++ m2)%list. rewrite H2, H1. apply withJoins_app.
Qed.

Lemma JoinsOnly_leftJoin (j : JoinClause) : JoinsOnly (onQuery (leftJoin j)).
Proof. intros p a p' [= <- <-]. exists [j]. reflexivity. Qed.

Lemma JoinsOnly_drawAlias (E : Collaborators) : JoinsOnly (drawAlias E).
Proof. intros p a p' [= <- <-]. exists []. symmetry. apply withJoins_nil. Qed.

Lemma JoinsOnly_recordAlias (path : list string) (alias : string) :
  JoinsOnly (recordAlias path alias).
Proof. intros p a p' [= <- <-]. exists []. symmetry. apply withJoins_nil. Qed.

Create HintDb joins.

#[local] Hint Resolve JoinsOnly_ret JoinsOnly_throw JoinsOnly_lift
  JoinsOnly_leftJoin JoinsOnly_drawAlias JoinsOnly_recordAlias : joins.

Ltac joins_only :=
  repeat first
    [ apply JoinsOnly_bind; [|intro]
    | match goal with
      | |- JoinsOnly (if ?c then _ else _) => destruct c
      | |- JoinsOnly (match ?x with _ => _ end) => destruct x
      end
    | solve [auto with joins] ].

Lemma followRelation_JoinsOnly
      (E : Collaborators) (schema : SchemaOverview) (subQuery : bool)
      (pathParts : list string) :
  forall parentCollection parentAlias,
    JoinsOnly (followRelation E schema subQuery pathParts parentCollection parentAlias).
Proof.
  induction pathParts as [|segment remaining IH]; intros parentCollection parentAlias.
  - cbn [followRelation]. auto with joins.
  - cbn [followRelation].
    destruct (findRelation schema parentCollection (pathRootOf segment));
      [|auto with joins].
    apply JoinsOnly_bind; [auto with joins|intros alias].
    apply JoinsOnly_bind; [auto with joins|intros _].
    apply JoinsOnly_bind; [joins_only|intros _].
    apply JoinsOnly_bind; [joins_only|intros _].
    apply JoinsOnly_bind; [joins_only|intros _].
    destruct (isType m2o _ || subQuery); [|auto with joins].
    apply JoinsOnly_bind; [auto with joins|intros parent].
    destruct remaining; [auto with joins|apply IH].
Qed.

(** ** One-to-many at the root and inside a subquery *)

Section OneToMany.

Variable E : Collaborators.
Variable schema : SchemaOverview.
Variable collection_ key : string.
Variable value : Value.
Variable path : list string.
Variable relation : Relation.

Hypothesis Hkey : isLogicalKey key = false.
Hypothesis Hpath : getFilterPath key value = Ok path.
Hypothesis Hrel : findRelation schema collection_ (pathRootOf key) = Some relation.
Hypothesis Htype : getRelationType relation collection_ (pathRootOf key) = Some o2m.

(** At the root the hop draws and records an alias, and joins nothing. *)
Lemma addJoinsEntry_o2m_root (p : Pass) :
  addJoinsEntry E schema false collection_ key value p
  = Ok (tt, if (1 <? List.length path)%nat then afterHop E None path p else p).
Proof.
  destruct (getFilterPath_head _ _ Hpath) as [rest Hp].
  unfold addJoinsEntry. rewrite Hkey. unfold addJoinsField, bind, lift.
  rewrite Hpath. destruct (1 <? List.length path)%nat; [|reflexivity].
  unfold addJoin. rewrite Hp. cbn [followRelation]. rewrite Hrel, Htype.
  reflexivity.
Qed.

(** Inside a subquery the hop joins the related collection and goes on
    with the rest of the path. *)
Lemma addJoinsEntry_o2m_subquery (pk : string) (p : Pass) :
  relatedPrimaryOf schema relation = Ok pk ->
  (1 < List.length path)%nat ->
  addJoinsEntry E schema true collection_ key value p
  = followRelation E schema true (List.tl path) (collection relation)
      (Some (generateAlias E (drawn p)))
      (withJoin (o2mJoin (generateAlias E (drawn p)) collection_ pk relation)
         (afterHop E None path p)).
Proof.
  intros Hpk Hlen.
  destruct (getFilterPath_head _ _ Hpath) as [rest Hp].
  unfold addJoinsEntry. rewrite Hkey. unfold addJoinsField, bind, lift.
  rewrite Hpath. apply Nat.ltb_lt in Hlen. rewrite Hlen.
  unfold addJoin. rewrite Hp in *. cbn [followRelation]. rewrite Hrel, Htype.
  unfold bind, drawAlias, recordAlias, modify, lift. simpl.
  rewrite Hpk. simpl.
  destruct rest as [|s rest]; [discriminate Hlen|]. reflexivity.
Qed.

(** The predicate pass at the root registers the correlated subquery. *)
Lemma addWhereEntry_o2m_root (pk : string) (logical : Logical) (p : Pass) :
  (exists operation, getOperation key value = Ok operation) ->
  relatedPrimaryOf schema relation = Ok pk ->
  addWhereEntry E schema false collection_ logical key value p
  = Ok (tt, withWhere logical whereIn
              (ArgSubquery (collection_ ++ "." ++ pk)
                 {| s_relation := relation; s_value := value |}) p).
Proof.
  intros [operation Hop] Hpk.
  destruct (getFilterPath_head _ _ Hpath) as [rest Hp].
  unfold addWhereEntry. rewrite Hkey. unfold addWhereField, bind, lift.
  rewrite Hpath, Hp, Hrel, Hop, Htype. simpl. rewrite Hpk. reflexivity.
Qed.

(** The predicate pass inside a subquery registers nothing for the key. *)
Lemma addWhereEntry_o2m_subquery (logical : Logical) (p : Pass) :
  (exists operation, getOperation key value = Ok operation) ->
  addWhereEntry E schema true collection_ logical key value p = Ok (tt, p).
Proof.
  intros [operation Hop].
  destruct (getFilterPath_head _ _ Hpath) as [rest Hp].
  unfold addWhereEntry. rewrite Hkey. unfold addWhereField, bind, lift.
  rewrite Hpath, Hp, Hrel, Hop, Htype. reflexivity.
Qed.

(** Inside a subquery the two passes over the key register no clause. *)
Lemma applyFilter_o2m_subquery_wheres (rootQuery b : QueryBuilder) (n n' : nat) :
  (exists operation, getOperation key value = Ok operation) ->
  applyFilter E schema rootQuery (VObj [(key, value)]) collection_ true n
  = Ok (b, n') ->
  b_wheres b = b_wheres rootQuery.
Proof.
  intros Hop Hok.
  unfold applyFilter, applyFilterPass, bind in Hok.
  rewrite addJoins_obj_cons in Hok. unfold bind in Hok.
  destruct (addJoinsEntry E schema true collection_ key value _)
    as [[u p1]|e] eqn:HJ; [|discriminate Hok].
  rewrite addJoins_obj_nil in Hok.
  rewrite addWhereClauses_obj_cons in Hok. unfold bind in Hok.
  rewrite (addWhereEntry_o2m_subquery and_ p1 Hop) in Hok.
  injection Hok as <- <-.
  assert (HJO : JoinsOnly (addJoinsEntry E schema true collection_ key value)).
  { unfold addJoinsEntry. rewrite Hkey. unfold addJoinsField.
    apply JoinsOnly_bind; [auto with joins|intros fp].
    destruct (1 <? List.length fp)%nat; [|auto with joins].
    apply followRelation_JoinsOnly. }
  destruct (HJO _ _ _ HJ) as [more Hmore]. rewrite Hmore. reflexivity.
Qed.

(** Inside a subquery a key whose path is the key alone leaves the builder
    as it was. *)
Lemma applyFilter_o2m_subquery_single (rootQuery : QueryBuilder) (n : nat) :
  (exists operation, getOperation key value = Ok operation) ->
  List.length path = 1%nat ->
  applyFilter E schema rootQuery (VObj [(key, value)]) collection_ true n
  = Ok (rootQuery, n).
Proof.
  intros Hop Hone.
  unfold applyFilter, applyFilterPass, bind.
  rewrite addJoins_obj_cons. unfold bind.
  erewrite addJoinsEntry_single_segment by eassumption.
  rewrite addJoins_obj_nil. rewrite addWhereClauses_obj_cons. unfold bind.
  rewrite (addWhereEntry_o2m_subquery and_ _ Hop). reflexivity.
Qed.

End OneToMany.

(** C2, as the code has it.  For a filter whose only key resolves to a
    one-to-many relation: at the root the pass joins nothing and registers
    [collection.primaryKey IN (subquery)], the subquery selecting the
    foreign key from the related collection and applying the nested filter
    with the subquery flag set; inside a subquery, when the path of the key
    has two segments or more, it joins the related collection and goes on
    with the rest of the path; inside a subquery it registers no clause
    whatever the path, and when the path is the key alone it leaves the
    builder as it was. *)
Theorem one_to_many_root_and_subquery
  (E : Collaborators) (schema : SchemaOverview) (collection_ key : string)
  (value : Value) (path : list string) (relation : Relation) (pk : string)
  (rootQuery : QueryBuilder) (n : nat)
  (Hkey : isLogicalKey key = false)
  (Hpath : getFilterPath key value = Ok path)
  (Hop : exists operation, getOperation key value = Ok operation)
  (Hrel : findRelation schema collection_ (pathRootOf key) = Some relation)
  (Htype : getRelationType relation collection_ (pathRootOf key) = Some o2m)
  (Hpk : relatedPrimaryOf schema relation = Ok pk) :
  let closure := {| s_relation := relation; s_value := value |} in
  let alias := generateAlias E n in
  let start := {| dbQuery := rootQuery; aliasMap := []; drawn := n |} in
  applyFilter E schema rootQuery (VObj [(key, value)]) collection_ false n
  = Ok (addWhere {| w_bool := and_; w_method := whereIn;
                    w_args := ArgSubquery (collection_ ++ "." ++ pk) closure |}
          rootQuery,
        if (1 <? List.length path)%nat then S n else n)
  /\ (forall subQueryKnex m,
        runSubquery E schema closure subQueryKnex m
        = applyQuery E (collection relation)
            (Knex.from (collection relation)
               (Knex.select (field relation)
                  (collection relation ++ "." ++ field relation) subQueryKnex))
            (filterOnly value) schema true m)
  /\ ((1 < List.length path)%nat ->
      applyFilter E schema rootQuery (VObj [(key, value)]) collection_ true n
      = outcome
          (followRelation E schema true (List.tl path) (collection relation)
             (Some alias)
             (withJoin (o2mJoin alias collection_ pk relation)
                (afterHop E None path start)))
      /\ forall b n',
           applyFilter E schema rootQuery (VObj [(key, value)]) collection_ true n
           = Ok (b, n') ->
           exists more,
             b_joins b
             = (b_joins rootQuery ++ o2mJoin alias collection_ pk relation :: more)%list
             /\ b_wheres b = b_wheres rootQuery)
  /\ (forall b n',
        applyFilter E schema rootQuery (VObj [(key, value)]) collection_ true n
        = Ok (b, n') ->
        b_wheres b = b_wheres rootQuery)
  /\ (List.length path = 1%nat ->
      applyFilter E schema rootQuery (VObj [(key, value)]) collection_ true n
      = Ok (rootQuery, n)).
Proof.
  intros closure alias start.
  split; [|split; [|split; [|split]]].
  4: { intros b n' Hok.
       eapply applyFilter_o2m_subquery_wheres; eassumption. }
  4: { intros Hone.
       eapply applyFilter_o2m_subquery_single; eassumption. }
  - unfold applyFilter, applyFilterPass, bind.
    rewrite addJoins_obj_cons. unfold bind.
    erewrite addJoinsEntry_o2m_root by eassumption.
    rewrite addJoins_obj_nil. rewrite addWhereClauses_obj_cons. unfold bind.
    erewrite addWhereEntry_o2m_root by eassumption.
    destruct (1 <? List.length path)%nat; reflexivity.
  - intros subQueryKnex m. reflexivity.
  - intros Hlen.
    assert (Heq :
      applyFilter E schema rootQuery (VObj [(key, value)]) collection_ true n
      = outcome
          (followRelation E schema true (List.tl path) (collection relation)
             (Some alias)
             (withJoin (o2mJoin alias collection_ pk relation)
                (afterHop E None path start)))).
    { subst start alias. unfold applyFilter, applyFilterPass, bind.
      rewrite addJoins_obj_cons. unfold bind.
      erewrite addJoinsEntry_o2m_subquery by eassumption.
      cbn [drawn].
      destruct (followRelation E schema true (List.tl path) (collection relation)
                  (Some (generateAlias E n)) _) as [[u p1]|e]; [|reflexivity].
      rewrite addJoins_obj_nil. rewrite addWhereClauses_obj_cons. unfold bind.
      erewrite addWhereEntry_o2m_subquery by eassumption.
      reflexivity. }
    split; [exact Heq|].
    intros b n' Hok. rewrite Heq in Hok. unfold outcome in Hok.
    destruct (followRelation E schema true (List.tl path) (collection relation)
                (Some alias) _) as [[u p1]|e] eqn:Hf; [|discriminate Hok].
    injection Hok as <- <-.
    destruct (@followRelation_JoinsOnly _ _ _ _ _ _ _ _ _ Hf) as [more Hmore].
    exists more. rewrite Hmore. simpl. rewrite <- app_assoc. split; reflexivity.
Qed.

(** [{articles: {title: {_eq: 'x'}}}] on [authors] *)
Lemma one_to_many_root_and_subquery_witness :
  applyFilter Fixture.collaborators Fixture.schema Knex.empty
    (Fixture.nest "articles" (Fixture.leaf "title" "_eq" (VStr "x")))
    "authors" true 0
  = Ok (leftJoin (LeftJoin "aaaaa" (Some "articles") "authors.id" "aaaaa.author")
          Knex.empty, 1).
Proof.
  refine (eq_trans (proj1 (proj1 (proj2 (proj2
    (@one_to_many_root_and_subquery Fixture.collaborators Fixture.schema
       "authors" "articles" (Fixture.leaf "title" "_eq" (VStr "x"))
       ["articles"; "title"]
       {| collection := "articles"; field := "author";
          related_collection := Some "authors";
          meta := Some {| one_field := Some "articles";
                          one_collection_field := None;
                          one_allowed_collections := None;
                          one_deselect_action := None |} |}
       "id" Knex.empty 0 _ _ _ _ _ _))) _)) _).
  - reflexivity.
  - reflexivity.
  - eexists. reflexivity.
  - reflexivity.
  - reflexivity.
  - reflexivity.
  - simpl. lia.
  - reflexivity.
Defined.

(** C2 as stated fails inside a subquery for a key whose path has one
    segment: [{articles: {_null: true}}] on [authors] resolves to the
    one-to-many [authors.articles] and no join is registered. *)
Lemma one_to_many_single_segment_not_joined :
  exists relation,
    findRelation Fixture.schema "authors" (pathRootOf "articles") = Some relation
    /\ getRelationType relation "authors" (pathRootOf "articles") = Some o2m
    /\ applyFilter Fixture.collaborators Fixture.schema Knex.empty
         (Fixture.leaf "articles" "_null" (VBool true)) "authors" true 0
       = Ok (Knex.empty, 0).
Proof. eexists. repeat split; reflexivity. Qed.

(** C7, as the code has it.  Inside a subquery, a key that resolves to a
    one-to-many relation of the current collection registers no clause in
    the predicate pass, whatever the builder and the connective; the join
    pass registers the join to the related collection when the path of the
    key has two segments or more, and nothing when the path is the key
    alone, which leaves the builder as it was. *)
Theorem one_to_many_in_subquery_drops_predicate
  (E : Collaborators) (schema : SchemaOverview) (collection_ key : string)
  (value : Value) (path : list string) (relation : Relation)
  (Hkey : isLogicalKey key = false)
  (Hpath : getFilterPath key value = Ok path)
  (Hop : exists operation, getOperation key value = Ok operation)
  (Hrel : findRelation schema collection_ (pathRootOf key) = Some relation)
  (Htype : getRelationType relation collection_ (pathRootOf key) = Some o2m) :
  (forall logical p,
     addWhereEntry E schema true collection_ logical key value p = Ok (tt, p))
  /\ (forall pk p,
        relatedPrimaryOf schema relation = Ok pk ->
        (1 < List.length path)%nat ->
        addJoinsEntry E schema true collection_ key value p
        = followRelation E schema true (List.tl path) (collection relation)
            (Some (generateAlias E (drawn p)))
            (withJoin (o2mJoin (generateAlias E (drawn p)) collection_ pk relation)
               (afterHop E None path p))
        /\ forall p',
             addJoinsEntry E schema true collection_ key value p = Ok (tt, p') ->
             exists more,
               b_joins (dbQuery p')
               = (b_joins (dbQuery p)
                  ++ o2mJoin (generateAlias E (drawn p)) collection_ pk relation
                  :: more)%list
               /\ b_wheres (dbQuery p') = b_wheres (dbQuery p))
  /\ (forall rootQuery n b n',
        applyFilter E schema rootQuery (VObj [(key, value)]) collection_ true n
        = Ok (b, n') ->
        b_wheres b = b_wheres rootQuery)
  /\ (List.length path = 1%nat ->
      (forall p,
         addJoinsEntry E schema true collection_ key value p = Ok (tt, p))
      /\ (forall rootQuery n,
            applyFilter E schema rootQuery (VObj [(key, value)]) collection_ true n
            = Ok (rootQuery, n))).
Proof.
  split; [|split; [|split]].
  4: { intros Hone. split.
       - intros p. eapply addJoinsEntry_single_segment; eassumption.
       - intros rootQuery n.
         eapply applyFilter_o2m_subquery_single; eassumption. }
  - intros logical p.
    eapply addWhereEntry_o2m_subquery; eassumption.
  - intros pk p Hpk Hlen.
    assert (Heq := @addJoinsEntry_o2m_subquery E schema collection_ key value path
                     relation Hkey Hpath Hrel Htype pk p Hpk Hlen).
    split; [exact Heq|].
    intros p' Hok. rewrite Heq in Hok.
    destruct (@followRelation_JoinsOnly _ _ _ _ _ _ _ _ _ Hok) as [more Hmore].
    exists more. rewrite Hmore. simpl. rewrite <- app_assoc. split; reflexivity.
  - intros rootQuery n b n' Hok.
    eapply applyFilter_o2m_subquery_wheres; eassumption.
Qed.

(** [{articles: {title: {_eq: 'x'}}}] on [authors], inside a subquery: the
    comparison with ['x'] registers nothing. *)
Lemma one_to_many_in_subquery_drops_predicate_witness :
  addWhereEntry Fixture.collaborators Fixture.schema true "authors" and_ "articles"
    (Fixture.leaf "title" "_eq" (VStr "x"))
    {| dbQuery := Knex.empty; aliasMap := []; drawn := 0 |}
  = Ok (tt, {| dbQuery := Knex.empty; aliasMap := []; drawn := 0 |}).
Proof.
  refine (proj1
    (@one_to_many_in_subquery_drops_predicate Fixture.collaborators Fixture.schema
       "authors" "articles" (Fixture.leaf "title" "_eq" (VStr "x"))
       ["articles"; "title"]
       {| collection := "articles"; field := "author";
          related_collection := Some "authors";
          meta := Some {| one_field := Some "articles";
                          one_collection_field := None;
                          one_allowed_collections := None;
                          one_deselect_action := None |} |}
       _ _ _ _ _) and_ _).
  - reflexivity.
  - reflexivity.
  - eexists. reflexivity.
  - reflexivity.
  - reflexivity.
Defined.

(** C7 as stated fails for a key whose path has one segment:
    [{articles: {_eq: 1}}] on [authors] resolves to the one-to-many
    [authors.articles], and inside a subquery neither a join nor a clause
    is registered. *)
Lemma one_to_many_single_segment_no_join_in_subquery :
  exists relation,
    findRelation Fixture.schema "authors" (pathRootOf "articles") = Some relation
    /\ getRelationType relation "authors" (pathRootOf "articles") = Some o2m
    /\ applyFilter Fixture.collaborators Fixture.schema Knex.empty
         (Fixture.leaf "articles" "_eq" (VNum 1)) "authors" true 0
       = Ok (Knex.empty, 0).
Proof. eexists. repeat split; reflexivity. Qed.

(** ** The alias map *)

Lemma lookup_assign_same (key : string) (v : Value) (props : list (string * Value)) :
  lookup key (assign key v props) = v.
Proof.
  induction props as [|[k w] tl IH]; simpl.
  - rewrite String.eqb_refl. reflexivity.
  - destruct (String.eqb k key) eqn:Hk; simpl; rewrite Hk; [reflexivity|exact IH].
Qed.

(** [get(set(object, path, value), path)] is [value]. *)
Lemma get_set_same (path : list string) :
  forall (object : list (string * Value)) (v : Value),
    path <> [] -> Lodash.get (Lodash.set object path v) path = v.
Proof.
  assert (H : forall path object v, path <> [] ->
            Lodash.getFrom (VObj (Lodash.set object path v)) path = v).
  { clear path. induction path as [|key rest IH]; intros object v Hne;
      [contradiction|].
    destruct rest as [|key' rest'].
    - cbn [Lodash.set Lodash.getFrom]. apply lookup_assign_same.
    - change (Lodash.set object (key :: key' :: rest') v)
        with (assign key
                (VObj (Lodash.set
                         (match lookup key object with
                          | VObj props => props
                          | _ => []
                          end) (key' :: rest') v)) object).
      cbn [Lodash.getFrom]. rewrite lookup_assign_same.
      apply IH. discriminate. }
  intros object v Hne. destruct path as [|key rest]; [contradiction|].
  unfold Lodash.get. apply H. exact Hne.
Qed.

(** ** Several leaves on one path *)

Section SamePath.

Variable E : Collaborators.
Variable schema : SchemaOverview.
Variable subQuery : bool.
Variable collection_ root leaf_ : string.
Variable relation : Relation.
Variable related pk : string.

Hypothesis Hkey : isLogicalKey root = false.
Hypothesis Hrel : findRelation schema collection_ (pathRootOf root) = Some relation.
Hypothesis Htype : getRelationType relation collection_ (pathRootOf root) = Some m2o.
Hypothesis Hrelated : related_collection relation = Some related.
Hypothesis Hpk : primaryOf schema related = Ok pk.
Hypothesis Hplain : findRelation schema related (pathRootOf leaf_) = None.

(** One traversal: a draw, a record, a join. *)
Lemma addJoins_leaf (v : Value) (p : Pass) :
  getFilterPath root v = Ok [root; leaf_] ->
  addJoins E schema subQuery (VObj [(root, v)]) collection_ p
  = Ok (tt, afterLeaves E (m2oJoinFor collection_ pk relation) [root; leaf_] 1 p).
Proof.
  intros Hpath. rewrite addJoins_obj_cons. unfold bind, addJoinsEntry.
  rewrite Hkey. unfold addJoinsField, bind, lift. rewrite Hpath.
  cbn [List.length Nat.ltb Nat.leb]. unfold addJoin. cbn [followRelation].
  rewrite Hrel, Htype.
  unfold bind, drawAlias, recordAlias, modify, lift, relatedPrimaryOf. simpl.
  rewrite Hrelated, Hpk. simpl. rewrite Hplain.
  unfold m2oJoinFor, m2oJoin. rewrite Hrelated. reflexivity.
Qed.

Lemma afterLeaves_S (k : nat) (p : Pass) :
  afterLeaves E (m2oJoinFor collection_ pk relation) [root; leaf_] (S k) p
  = afterLeaves E (m2oJoinFor collection_ pk relation) [root; leaf_] k (afterLeaves E (m2oJoinFor collection_ pk relation) [root; leaf_] 1 p).
Proof. reflexivity. Qed.

(** [k] traversals, one per leaf. *)
Lemma addJoins_leaves (operands : list Value) :
  (forall v, In v operands -> getFilterPath root v = Ok [root; leaf_]) ->
  forall p,
    forEach (fun subFilter => addJoins E schema subQuery subFilter collection_)
      (List.map (fun v => VObj [(root, v)]) operands) p
    = Ok (tt, afterLeaves E (m2oJoinFor collection_ pk relation) [root; leaf_] (List.length operands) p).
Proof.
  induction operands as [|v tl IH]; intros Hall p; [reflexivity|].
  cbn [List.map forEach List.length]. unfold bind.
  rewrite addJoins_leaf by (apply Hall; left; reflexivity).
  rewrite IH by (intros w Hw; apply Hall; right; exact Hw).
  reflexivity.
Qed.

Lemma afterLeaves_drawn (k : nat) :
  forall p, drawn (afterLeaves E (m2oJoinFor collection_ pk relation) [root; leaf_] k p) = drawn p + k.
Proof.
  induction k as [|k IH]; intros p; simpl.
  - rewrite Nat.add_0_r. reflexivity.
  - rewrite IH. simpl. lia.
Qed.

Lemma afterLeaves_joins (k : nat) :
  forall p,
    dbQuery (afterLeaves E (m2oJoinFor collection_ pk relation) [root; leaf_] k p)
    = withJoins (List.map (fun i => m2oJoinFor collection_ pk relation (generateAlias E (drawn p + i)))
                   (List.seq 0 k)) (dbQuery p).
Proof.
  induction k as [|k IH]; intros p.
  - simpl. symmetry. apply withJoins_nil.
  - cbn [afterLeaves]. rewrite IH. cbn [List.seq List.map].
    unfold withJoin, afterHop. cbn [dbQuery drawn].
    rewrite leftJoin_withJoins, withJoins_app. rewrite Nat.add_0_r.
    rewrite <- List.seq_shift, List.map_map. f_equal.
    cbn [app]. f_equal. apply List.map_ext. intros i. do 2 f_equal. lia.
Qed.

Lemma afterLeaves_alias (k : nat) :
  forall p,
    Lodash.get (aliasMap (afterLeaves E (m2oJoinFor collection_ pk relation) [root; leaf_] (S k) p)) [root; leaf_]
    = VStr (generateAlias E (drawn p + k)).
Proof.
  induction k as [|k IH]; intros p.
  - cbn [afterLeaves]. unfold withJoin, afterHop. cbn [aliasMap aliasPath drawn].
    rewrite get_set_same by discriminate. rewrite Nat.add_0_r. reflexivity.
  - rewrite afterLeaves_S. rewrite IH. f_equal. f_equal.
    cbn [afterLeaves]. unfold withJoin, afterHop. cbn [drawn]. lia.
Qed.

(** The predicate of a leaf is compiled against the alias the map holds
    for the path. *)
Lemma addWhereClauses_leaf (v : Value) (operation : string * Value)
      (logical : Logical) (alias : string) (p : Pass) :
  getFilterPath root v = Ok [root; leaf_] ->
  getOperation root v = Ok operation ->
  Lodash.get (aliasMap p) [root; leaf_] = VStr alias ->
  addWhereClauses E schema subQuery (VObj [(root, v)]) collection_ logical p
  = applyFilterToQuery E (aliasOrParent alias related ++ "." ++ leaf_)
      (fst operation) (snd operation) logical p.
Proof.
  intros Hpath Hop Hget. rewrite addWhereClauses_obj_cons.
  unfold bind, addWhereEntry. rewrite Hkey.
  unfold addWhereField, bind, lift. rewrite Hpath, Hrel, Hop, Htype.
  cbn [isType RelationType_eqb orb List.length Nat.ltb Nat.leb getState].
  cbn [getWhereColumn findRelationOf getRelationTypeOf truthy]. rewrite Hrel, Htype.
  cbn [isType RelationType_eqb]. rewrite Hrelated.
  cbn [rbind shownCollection]. rewrite Hget. cbn [truthy toString]. unfold aliasOrParent.
  destruct (String.eqb alias "") eqn:Ha; cbn [negb].
  - destruct (String.eqb (related ++ "." ++ leaf_) "") eqn:Hc.
    + apply String.eqb_eq in Hc. destruct related; discriminate Hc.
    + destruct (applyFilterToQuery E _ _ _ _ p) as [[[] p']|e]; reflexivity.
  - destruct (String.eqb (alias ++ "." ++ leaf_) "") eqn:Hc.
    + apply String.eqb_eq in Hc. destruct alias; discriminate Hc.
    + destruct (applyFilterToQuery E _ _ _ _ p) as [[[] p']|e]; reflexivity.
Qed.

End SamePath.

Lemma someEmpty_keyed (key : string) (operands : list Value) :
  someEmpty (List.map (fun v => VObj [(key, v)]) operands) = Ok false.
Proof. induction operands as [|v tl IH]; [reflexivity|exact IH]. Qed.

(** C1, as the code has it.  When the sub-filters of a group are leaves on
    the same two-segment path through a many-to-one relation, the join
    pass registers one LEFT JOIN for each leaf, each under an alias of its
    own; the alias map holds for the path the alias drawn last, and the
    predicate of every leaf is compiled against that alias. *)
Theorem same_path_is_joined_once_per_leaf
  (E : Collaborators) (schema : SchemaOverview) (subQuery : bool)
  (collection_ group root leaf_ : string) (relation : Relation)
  (related pk : string) (operands : list Value)
  (rootQuery : QueryBuilder) (n : nat)
  (Hgroup : group = "_and" \/ group = "_or")
  (Hkey : isLogicalKey root = false)
  (Hrel : findRelation schema collection_ (pathRootOf root) = Some relation)
  (Htype : getRelationType relation collection_ (pathRootOf root) = Some m2o)
  (Hrelated : related_collection relation = Some related)
  (Hpk : primaryOf schema related = Ok pk)
  (Hplain : findRelation schema related (pathRootOf leaf_) = None)
  (Hleaves : forall v, In v operands -> getFilterPath root v = Ok [root; leaf_])
  (Hmany : (2 <= List.length operands)%nat) :
  let children := List.map (fun v => VObj [(root, v)]) operands in
  let k := List.length operands in
  let last := generateAlias E (n + k - 1) in
  exists aliases,
    applyFilter E schema rootQuery (VObj [(group, VArr children)]) collection_
      subQuery n
    = Ok (addWhere
            {| w_bool := and_; w_method := where_;
               w_args := ArgGroup
                 {| g_value := VArr children;
                    g_collection := collection_;
                    g_logical := if String.eqb group "_and" then and_ else or_;
                    g_subQuery := subQuery;
                    g_aliasMap := aliases |} |}
            (withJoins
               (List.map (fun i => m2oJoin (generateAlias E (n + i)) collection_
                                     pk relation)
                  (List.seq 0 k))
               rootQuery),
          n + k)
    /\ Lodash.get aliases [root; leaf_] = VStr last
    /\ forall v operation logical p,
         In v operands ->
         getOperation root v = Ok operation ->
         aliasMap p = aliases ->
         addWhereClauses E schema subQuery (VObj [(root, v)]) collection_ logical p
         = applyFilterToQuery E (aliasOrParent last related ++ "." ++ leaf_)
             (fst operation) (snd operation) logical p.
Proof.
  intros children k last.
  set (start := {| dbQuery := rootQuery; aliasMap := []; drawn := n |}).
  set (final := afterLeaves E (m2oJoinFor collection_ pk relation) [root; leaf_] k start).
  assert (Hlast : Lodash.get (aliasMap final) [root; leaf_] = VStr last).
  { subst final last k. destruct (List.length operands) as [|k'] eqn:Hk;
      [inversion Hmany|].
    erewrite afterLeaves_alias. subst start. cbn [drawn].
    do 2 f_equal. lia. }
  exists (aliasMap final). split; [|split].
  - subst children. destruct Hgroup as [-> | ->].
    all: unfold applyFilter, applyFilterPass, bind;
      rewrite addJoins_obj_cons; unfold bind, addJoinsEntry;
      cbv beta iota delta [isLogicalKey String.eqb Ascii.eqb Bool.eqb orb];
      unfold bind, lift; try rewrite someEmpty_keyed;
      erewrite addJoins_leaves by eassumption;
      rewrite addJoins_obj_nil; rewrite addWhereClauses_obj_cons;
      unfold bind, addWhereEntry;
      cbv beta iota delta [isLogicalKey String.eqb Ascii.eqb Bool.eqb orb];
      unfold bind, lift; try rewrite someEmpty_keyed;
      unfold addWhereGroup, bind, getState, registerWhere, onQuery, modify;
      cbn [addWhereClauses entries forEach ret dbQuery drawn aliasMap];
      fold k; fold final;
      subst final;
      rewrite afterLeaves_joins, afterLeaves_drawn;
      reflexivity.
  - exact Hlast.
  - intros v operation logical p Hin Hop Hmap.
    eapply addWhereClauses_leaf; try eassumption.
    + apply Hleaves. exact Hin.
    + rewrite Hmap. exact Hlast.
Qed.

(** [{_and: [{author: {name: {_eq: 'a'}}}, {author: {name: {_eq: 'b'}}}]}]
    on [articles]: two joins, and [aaaab], drawn last, is the alias of the
    path. *)
Lemma same_path_is_joined_once_per_leaf_witness :
  exists aliases,
    applyFilter Fixture.collaborators Fixture.schema Knex.empty
      (VObj [("_and", VArr [Fixture.nest "author" (Fixture.leaf "name" "_eq" (VStr "a"));
                            Fixture.nest "author" (Fixture.leaf "name" "_eq" (VStr "b"))])])
      "articles" false 0
    = Ok (addWhere
            {| w_bool := and_; w_method := where_;
               w_args := ArgGroup
                 {| g_value :=
                      VArr [Fixture.nest "author" (Fixture.leaf "name" "_eq" (VStr "a"));
                            Fixture.nest "author" (Fixture.leaf "name" "_eq" (VStr "b"))];
                    g_collection := "articles";
                    g_logical := and_;
                    g_subQuery := false;
                    g_aliasMap := aliases |} |}
            (withJoins
               [LeftJoin "aaaaa" (Some "authors") "articles.author" "aaaaa.id";
                LeftJoin "aaaab" (Some "authors") "articles.author" "aaaab.id"]
               Knex.empty),
          2)
    /\ Lodash.get aliases ["author"; "name"] = VStr "aaaab".
Proof.
  destruct (@same_path_is_joined_once_per_leaf Fixture.collaborators Fixture.schema
              false "articles" "_and" "author" "name"
              {| collection := "articles"; field := "author";
                 related_collection := Some "authors";
                 meta := Some {| one_field := Some "articles";
                                 one_collection_field := None;
                                 one_allowed_collections := None;
                                 one_deselect_action := None |} |}
              "authors" "id"
              [Fixture.leaf "name" "_eq" (VStr "a"); Fixture.leaf "name" "_eq" (VStr "b")]
              Knex.empty 0)
    as [aliases [H1 [H2 _]]].
  - left. reflexivity.
  - reflexivity.
  - reflexivity.
  - reflexivity.
  - reflexivity.
  - reflexivity.
  - reflexivity.
  - intros v [<-|[<-|[]]]; reflexivity.
  - simpl. lia.
  - exists aliases. split; [exact H1|exact H2].
Defined.

(** C1 as stated fails: two leaves on the path [author.name] give two LEFT
    JOINs to [authors], under the aliases of the first and of the second
    draw. *)
Lemma same_path_is_joined_twice :
  match applyFilter Fixture.collaborators Fixture.schema Knex.empty
          (VObj [("_and",
                  VArr [Fixture.nest "author" (Fixture.leaf "name" "_eq" (VStr "a"));
                        Fixture.nest "author" (Fixture.leaf "name" "_eq" (VStr "b"))])])
          "articles" false 0
  with
  | Ok (b, _) => b_joins b
  | Throw _ => []
  end
  = [LeftJoin "aaaaa" (Some "authors") "articles.author" "aaaaa.id";
     LeftJoin "aaaab" (Some "authors") "articles.author" "aaaab.id"].
Proof. reflexivity. Qed.

(** ** Exceptions of the compiler *)

Lemma NeverForbidden_ret {S A : Type} (a : A) : NeverForbidden (@ret S A a).
Proof. intros s. discriminate. Qed.

Lemma NeverForbidden_throw {S A : Type} (e : Exception) :
  isForbidden e = false -> NeverForbidden (@throw S A e).
Proof. intros He s [= ->]. discriminate He. Qed.

Lemma NeverForbidden_lift {S A : Type} (r : Result A) :
  NotForbidden r -> NeverForbidden (@lift S A r).
Proof.
  intros Hr s. unfold lift. destruct r as [a|e]; [discriminate|].
  intros [= ->]. apply Hr. reflexivity.
Qed.

Lemma NeverForbidden_bind {S A B : Type} (m : M S A) (k : A -> M S B) :
  NeverForbidden m -> (forall a, NeverForbidden (k a)) -> NeverForbidden (bind m k).
Proof.
  intros Hm Hk s. unfold bind. destruct (m s) as [[a s']|e] eqn:Hms.
  - apply Hk.
  - intros [= ->]. apply (Hm s). exact Hms.
Qed.

Lemma NeverForbidden_modify {S : Type} (f : S -> S) : NeverForbidden (modify f).
Proof. intros s. discriminate. Qed.

Lemma NeverForbidden_getState {S : Type} : NeverForbidden (@getState S).
Proof. intros s. discriminate. Qed.

Lemma NeverForbidden_drawAlias (E : Collaborators) : NeverForbidden (drawAlias E).
Proof. intros s. discriminate. Qed.

Lemma NeverForbidden_forEach {S A : Type} (body : A -> M S unit) (l : list A) :
  (forall x, In x l -> NeverForbidden (body x)) -> NeverForbidden (forEach body l).
Proof.
  induction l as [|x tl IH]; intros H; cbn [forEach].
  - apply NeverForbidden_ret.
  - apply NeverForbidden_bind; [apply H; left; reflexivity|].
    intros _. apply IH. intros y Hy. apply H. right. exact Hy.
Qed.

Lemma NotForbidden_ok {A : Type} (a : A) : NotForbidden (Ok a).
Proof. discriminate. Qed.

Lemma NotForbidden_rbind {A B : Type} (r : Result A) (k : A -> Result B) :
  NotForbidden r -> (forall a, NotForbidden (k a)) -> NotForbidden (rbind r k).
Proof.
  intros Hr Hk. destruct r as [a|e]; simpl; [apply Hk|].
  intros [= ->]. apply Hr. reflexivity.
Qed.

Lemma NotForbidden_getFilterPath :
  forall (value : Value) (key : string), NotForbidden (getFilterPath key value).
Proof.
  fix IH 1. intros value key.
  destruct value as [| | | | | |props]; simpl; try discriminate.
  destruct props as [|[k v] tl]; [discriminate|].
  destruct (startsWith "_" k); [discriminate|].
  apply NotForbidden_rbind; [apply IH|discriminate].
Qed.

Lemma NotForbidden_getOperation :
  forall (value : Value) (key : string), NotForbidden (getOperation key value).
Proof.
  fix IH 1. intros value key.
  destruct value as [| | | | | |props]; simpl;
    destruct (startsWith "_" key && negb (key =? "_and") && negb (key =? "_or"));
    try discriminate.
  destruct props as [|[k v] tl]; [discriminate|apply IH].
Qed.

Lemma NotForbidden_someEmpty (subFilters : list Value) :
  NotForbidden (someEmpty subFilters).
Proof.
  induction subFilters as [|c tl IH]; simpl; [discriminate|].
  destruct (keys c) as [[|k ks]|]; [discriminate|exact IH|discriminate].
Qed.

Lemma NotForbidden_scopeOrThrow (segment : string) :
  NotForbidden (scopeOrThrow segment).
Proof.
  unfold scopeOrThrow. destruct (pathScopeOf segment) as [scope|]; [|discriminate].
  destruct (String.eqb scope ""); discriminate.
Qed.

Lemma NotForbidden_primaryOf (schema : SchemaOverview) (name : string) :
  NotForbidden (primaryOf schema name).
Proof.
  unfold primaryOf. destruct (findCollection name (collections schema)); discriminate.
Qed.

Lemma NotForbidden_relatedPrimaryOf (schema : SchemaOverview) (relation : Relation) :
  NotForbidden (relatedPrimaryOf schema relation).
Proof.
  unfold relatedPrimaryOf. destruct (related_collection relation);
    [apply NotForbidden_primaryOf|discriminate].
Qed.

Create HintDb forbidden.

#[local] Hint Resolve NeverForbidden_ret NeverForbidden_lift NeverForbidden_modify
  NeverForbidden_getState NeverForbidden_drawAlias NotForbidden_ok
  NotForbidden_getFilterPath NotForbidden_getOperation NotForbidden_someEmpty
  NotForbidden_scopeOrThrow NotForbidden_primaryOf NotForbidden_relatedPrimaryOf
  : forbidden.

#[local] Hint Extern 1 (NeverForbidden (throw _)) =>
  apply NeverForbidden_throw; reflexivity : forbidden.
#[local] Hint Extern 1 (NeverForbidden (onQuery _)) =>
  apply NeverForbidden_modify : forbidden.
#[local] Hint Extern 1 (NeverForbidden (recordAlias _ _)) =>
  apply NeverForbidden_modify : forbidden.
#[local] Hint Extern 1 (NeverForbidden (registerWhere _ _ _)) =>
  apply NeverForbidden_modify : forbidden.
#[local] Hint Extern 1 (NotForbidden (Throw _)) => discriminate : forbidden.

Ltac never_forbidden :=
  repeat first
    [ apply NeverForbidden_bind; [|intro]
    | apply NotForbidden_rbind; [|intro]
    | apply NeverForbidden_lift
    | match goal with
      | |- NeverForbidden (if ?c then _ else _) => destruct c
      | |- NeverForbidden (match ?x with _ => _ end) => destruct x
      | |- NotForbidden (if ?c then _ else _) => destruct c
      | |- NotForbidden (match ?x with _ => _ end) => destruct x
      end
    | solve [auto with forbidden] ].

Lemma NeverForbidden_followRelation
      (E : Collaborators) (schema : SchemaOverview) (subQuery : bool)
      (pathParts : list string) :
  forall parentCollection parentAlias,
    NeverForbidden (followRelation E schema subQuery pathParts parentCollection
                      parentAlias).
Proof.
  induction pathParts as [|segment remaining IH]; intros parentCollection parentAlias.
  - cbn [followRelation]. auto with forbidden.
  - cbn [followRelation].
    destruct (findRelation schema parentCollection (pathRootOf segment));
      [|auto with forbidden].
    apply NeverForbidden_bind; [auto with forbidden|intros alias].
    apply NeverForbidden_bind; [auto with forbidden|intros _].
    apply NeverForbidden_bind; [never_forbidden|intros _].
    apply NeverForbidden_bind; [never_forbidden|intros _].
    apply NeverForbidden_bind; [never_forbidden|intros _].
    destruct (isType m2o _ || subQuery); [|auto with forbidden].
    apply NeverForbidden_bind; [never_forbidden|intros parent].
    destruct remaining; [auto with forbidden|apply IH].
Qed.

Lemma NeverForbidden_addJoinsField
      (E : Collaborators) (schema : SchemaOverview) (subQuery : bool)
      (collection_ key : string) (value : Value) :
  NeverForbidden (addJoinsField E schema subQuery collection_ key value).
Proof.
  unfold addJoinsField. apply NeverForbidden_bind; [auto with forbidden|intros fp].
  destruct (1 <? List.length fp)%nat; [|auto with forbidden].
  apply NeverForbidden_followRelation.
Qed.

Lemma NeverForbidden_addJoins
      (E : Collaborators) (schema : SchemaOverview) (subQuery : bool) :
  forall (filter_ : Value) (collection_ : string),
    NeverForbidden (addJoins E schema subQuery filter_ collection_).
Proof.
  fix IH 1. intros filter_ collection_.
  destruct filter_ as [| | | | | |props].
  1-2: cbn [addJoins]; auto with forbidden.
  1-4: cbn [addJoins entries]; try (intros s; discriminate);
       apply NeverForbidden_forEach; intros x _;
       apply NeverForbidden_addJoinsField.
  induction props as [|[key value] tl IHl]; intros s.
  - rewrite addJoins_obj_nil. discriminate.
  - rewrite addJoins_obj_cons. revert s.
    apply NeverForbidden_bind; [|intros _; exact IHl].
    unfold addJoinsEntry.
    destruct (isLogicalKey key); [|apply NeverForbidden_addJoinsField].
    destruct value as [| | | | |items|]; auto with forbidden.
    apply NeverForbidden_bind; [never_forbidden|intros skip].
    destruct skip; [auto with forbidden|].
    clear IHl. induction items as [|x items IHi]; cbn [forEach].
    + auto with forbidden.
    + apply NeverForbidden_bind; [apply IH|intros _; exact IHi].
Qed.

Lemma NeverForbidden_applyFilterToQuery
      (E : Collaborators) (key operator : string) (compareValue : Value)
      (logical : Logical) :
  NeverForbidden (applyFilterToQuery E key operator compareValue logical).
Proof.
  unfold applyFilterToQuery. apply NeverForbidden_bind.
  - unfold applyValuelessOperator. never_forbidden.
  - intros _. destruct (isUndefined compareValue); [auto with forbidden|].
    unfold applyValueOperator. never_forbidden.
Qed.

Lemma NotForbidden_getWhereColumn
      (schema : SchemaOverview) (aliases : list (string * Value)) (path : list string) :
  forall collection_ alias,
    NotForbidden (getWhereColumn schema aliases path collection_ alias).
Proof.
  induction path as [|segment remaining IH]; intros collection_ alias.
  - discriminate.
  - cbn [getWhereColumn].
    destruct (findRelationOf schema collection_ (pathRootOf segment));
      [|discriminate].
    apply NotForbidden_rbind; [never_forbidden|intros parent].
    destruct remaining as [|x [|y rest]]; [discriminate|discriminate|apply IH].
Qed.

Lemma NeverForbidden_addWhereEntry
      (E : Collaborators) (schema : SchemaOverview) (subQuery : bool)
      (collection_ : string) (logical : Logical) (key : string) (value : Value) :
  NeverForbidden (addWhereEntry E schema subQuery collection_ logical key value).
Proof.
  unfold addWhereEntry, addWhereGroup.
  destruct (isLogicalKey key).
  - never_forbidden.
  - unfold addWhereField.
    apply NeverForbidden_bind; [auto with forbidden|intros fp].
    destruct fp as [|first rest]; [auto with forbidden|].
    apply NeverForbidden_bind; [auto with forbidden|intros operation].
    match goal with |- NeverForbidden (if ?c then _ else _) => destruct c end.
    + destruct (1 <? _)%nat; [|apply NeverForbidden_applyFilterToQuery].
      apply NeverForbidden_bind; [auto with forbidden|intros p].
      apply NeverForbidden_bind;
        [apply NeverForbidden_lift, NotForbidden_getWhereColumn|intros column].
      destruct column as [column|]; [|auto with forbidden].
      destruct (String.eqb column "");
        [auto with forbidden|apply NeverForbidden_applyFilterToQuery].
    + never_forbidden.
Qed.

Lemma NeverForbidden_addWhereClauses
      (E : Collaborators) (schema : SchemaOverview) (subQuery : bool)
      (filter_ : Value) (collection_ : string) (logical : Logical) :
  NeverForbidden (addWhereClauses E schema subQuery filter_ collection_ logical).
Proof.
  unfold addWhereClauses. destruct (entries filter_); [|auto with forbidden].
  apply NeverForbidden_forEach. intros x _. apply NeverForbidden_addWhereEntry.
Qed.

Lemma applyFilter_never_forbidden
      (E : Collaborators) (schema : SchemaOverview) (rootQuery : QueryBuilder)
      (rootFilter : Value) (collection_ : string) (subQuery : bool) (n : nat) :
  applyFilter E schema rootQuery rootFilter collection_ subQuery n
  <> Throw ForbiddenException.
Proof.
  unfold applyFilter, applyFilterPass.
  destruct (bind _ _ _) as [[u p]|e] eqn:H; [discriminate|].
  intros [= ->]. revert H.
  apply NeverForbidden_bind; [apply NeverForbidden_addJoins|intros _].
  apply NeverForbidden_addWhereClauses.
Qed.

Lemma applyQuery_never_forbidden
      (E : Collaborators) (collection_ : string) (dbQuery_ : QueryBuilder)
      (query : Query) (schema : SchemaOverview) (subQuery : bool) (n : nat) :
  applyQuery E collection_ dbQuery_ query schema subQuery n
  <> Throw ForbiddenException.
Proof.
  assert (Hoffset : forall val b, NotForbidden (Knex.offset val b)).
  { intros [z|] b; unfold Knex.offset; [|discriminate].
    destruct (z <? 0)%Z; discriminate. }
  unfold applyQuery. apply NotForbidden_rbind.
  { destruct (offset query) as [o|]; [|discriminate].
    destruct (truthyNumber (Some o)); [apply Hoffset|discriminate]. }
  intros q3. apply NotForbidden_rbind.
  { destruct (page query) as [pg|], (limit query) as [l|]; try discriminate.
    destruct (truthyNumber (Some pg) && truthyNumber (Some l));
      [apply Hoffset|discriminate]. }
  intros q4. apply NotForbidden_rbind; [|discriminate].
  destruct (truthy (filter query)); [apply applyFilter_never_forbidden|discriminate].
Qed.

(** The callbacks Knex runs later throw it no more than the passes do. *)
Lemma callbacks_never_forbidden
      (E : Collaborators) (schema : SchemaOverview) (q : QueryBuilder) (n : nat) :
  (forall c, runGroup E schema c q n <> Throw ForbiddenException)
  /\ (forall c, runSubquery E schema c q n <> Throw ForbiddenException).
Proof.
  split; intros c.
  - unfold runGroup. destruct (g_value c) as [| | | | |subFilters|]; try discriminate.
    destruct (forEach _ subFilters _) as [[u p]|e] eqn:H; [discriminate|].
    intros [= ->]. revert H. apply NeverForbidden_forEach.
    intros x _. apply NeverForbidden_addWhereClauses.
  - unfold runSubquery. apply applyQuery_never_forbidden.
Qed.

(** ** [processO2M] *)

Section ProcessO2M.

Variable W : Type.
Variable D : DataLayer W.
Variable this_collection : string.
Variable this_schema : SchemaOverview.

(** The loop over the nested items throws nothing but Forbidden. *)
Lemma processItem_throws (w : W) (relation : Relation) (payload : list (string * Value))
      (parent : Value) (cur rel : string) (acc : list Value * list Value)
      (item : Value) (e : Exception) :
  processItem D w relation payload parent cur rel acc item = Throw e ->
  e = ForbiddenException.
Proof.
  unfold processItem. destruct (isStringOrNumber item); [|discriminate].
  destruct (selectFirst D w (collection relation) rel item);
    [|intros [= <-]; reflexivity].
  destruct (negb _ && _); discriminate.
Qed.

(** A bare key without a record makes the loop throw Forbidden, wherever it
    stands in the array. *)
Lemma processItems_missing (w : W) (relation : Relation)
      (payload : list (string * Value)) (parent : Value) (cur rel : string)
      (before after : list Value) (missing : Value) :
  isStringOrNumber missing = true ->
  selectFirst D w (collection relation) rel missing = None ->
  forall acc,
    processItems D w relation payload parent cur rel acc (before ++ missing :: after)
    = Throw ForbiddenException.
Proof.
  intros Hbare Hnone. induction before as [|x before IH]; intros acc.
  - cbn [app processItems]. unfold processItem. rewrite Hbare, Hnone. reflexivity.
  - cbn [app processItems].
    destruct (processItem D w relation payload parent cur rel acc x) as [acc'|e] eqn:Hx.
    + cbn [rbind]. apply IH.
    + cbn [rbind]. f_equal. eapply processItem_throws. exact Hx.
Qed.

Lemma processRelations_app (payload : list (string * Value)) (parent : Value)
      (pre post : list Relation) (w w' : W) (revs : list Value) :
  processRelations D this_schema payload parent pre w = Ok (revs, w') ->
  processRelations D this_schema payload parent (pre ++ post) w
  = match processRelations D this_schema payload parent post w' with
    | Ok (more, w'') => Ok ((revs ++ more)%list, w'')
    | Throw e => Throw e
    end.
Proof.
  revert w revs. induction pre as [|r pre IH]; intros w revs H.
  - injection H as <- <-. cbn [app].
    destruct (processRelations D this_schema payload parent post w) as [[more w'']|e];
      reflexivity.
  - cbn [app processRelations] in *. unfold bind in *.
    destruct (processRelation D this_schema payload parent r w) as [[r1 w1]|e];
      [|discriminate H].
    destruct (processRelations D this_schema payload parent pre w1) as [[r2 w2]|e] eqn:Hpre;
      [|discriminate H].
    injection H as <- <-.
    rewrite (IH _ _ Hpre).
    destruct (processRelations D this_schema payload parent post _) as [[more w'']|e];
      [|reflexivity].
    unfold ret. rewrite app_assoc. reflexivity.
Qed.

End ProcessO2M.

(** C9.  When the nested array of a one-to-many field holds a bare primary
    key, a string or a number, for which the related collection has no
    record, [processO2M] throws Forbidden (the relations processed before
    having returned); [applyFilter], [applyQuery] and the callbacks they
    register throw Forbidden on no input. *)
Theorem processO2M_missing_record_is_forbidden
  (W : Type) (D : DataLayer W) (this_collection : string)
  (this_schema : SchemaOverview) (data : list (string * Value)) (parent : Value)
  (pre post : list Relation) (relation : Relation) (m : RelationMeta)
  (one : string) (before after : list Value) (missing : Value)
  (currentPrimaryKeyField relatedPrimaryKeyField : string)
  (w0 w : W) (revisions : list Value)
  (Hsplit : relationsToProcess this_collection this_schema data
            = (pre ++ relation :: post)%list)
  (Hpre : processRelations D this_schema data parent pre w0 = Ok (revisions, w))
  (Hmeta : meta relation = Some m)
  (Hone : one_field m = Some one)
  (Hitems : lookup one data = VArr (before ++ missing :: after))
  (Hcurrent : relatedPrimaryOf this_schema relation = Ok currentPrimaryKeyField)
  (Hrelated : primaryOf this_schema (collection relation) = Ok relatedPrimaryKeyField)
  (Hbare : isStringOrNumber missing = true)
  (Hmissing : selectFirst D w (collection relation) relatedPrimaryKeyField missing
              = None) :
  processO2M D this_collection this_schema data parent w0 = Throw ForbiddenException
  /\ (forall E schema rootQuery rootFilter collection_ subQuery n,
        applyFilter E schema rootQuery rootFilter collection_ subQuery n
        <> Throw ForbiddenException)
  /\ (forall E collection_ dbQuery_ query schema subQuery n,
        applyQuery E collection_ dbQuery_ query schema subQuery n
        <> Throw ForbiddenException)
  /\ (forall E schema q n,
        (forall c, runGroup E schema c q n <> Throw ForbiddenException)
        /\ (forall c, runSubquery E schema c q n <> Throw ForbiddenException)).
Proof.
  split; [|split; [|split]].
  - unfold processO2M. rewrite Hsplit.
    erewrite processRelations_app by exact Hpre.
    cbn [processRelations]. unfold bind at 1.
    assert (HR : processRelation D this_schema data parent relation w
                 = Throw ForbiddenException).
    { unfold processRelation. rewrite Hmeta, Hone, Hitems. cbn [truthy negb].
      unfold bind, lift, getState. rewrite Hcurrent, Hrelated.
      erewrite processItems_missing by eassumption. reflexivity. }
    rewrite HR. reflexivity.
  - intros. apply applyFilter_never_forbidden.
  - intros. apply applyQuery_never_forbidden.
  - intros. apply callbacks_never_forbidden.
Qed.

(** [{id: 7, articles: [1, 2]}] on [authors]: article 1 exists, article 2
    does not. *)
Lemma processO2M_missing_record_is_forbidden_witness :
  processO2M Fixture.dataLayer "authors" Fixture.schema
    [("id", VNum 7); ("articles", VArr [VNum 1; VNum 2])] (VNum 7) Fixture.world
  = Throw ForbiddenException.
Proof.
  refine (proj1
    (@processO2M_missing_record_is_forbidden Fixture.World Fixture.dataLayer
       "authors" Fixture.schema
       [("id", VNum 7); ("articles", VArr [VNum 1; VNum 2])] (VNum 7)
       [] []
       {| collection := "articles"; field := "author";
          related_collection := Some "authors";
          meta := Some {| one_field := Some "articles";
                          one_collection_field := None;
                          one_allowed_collections := None;
                          one_deselect_action := None |} |}
       {| one_field := Some "articles";
          one_collection_field := None;
          one_allowed_collections := None;
          one_deselect_action := None |}
       "articles" [VNum 1] [] (VNum 2) "id" "id" Fixture.world Fixture.world []
       _ _ _ _ _ _ _ _ _)); reflexivity.
Defined.

(* ===================================================================== *)
(** * Further properties of [apply-query.ts]                              *)
(* ===================================================================== *)

(** ** Paths and operations *)

(** X1.  The path [getFilterPath] returns starts with the key it was given,
    and no later segment starts with an underscore. *)
Theorem getFilterPath_segments :
  forall (value : Value) (key : string) (path : list string),
    getFilterPath key value = Ok path ->
    exists rest,
      path = key :: rest
      /\ Forall (fun segment => startsWith "_" segment = false) rest.
Proof.
  fix IH 1. intros value key path.
  destruct value as [| | | | | |props]; simpl; try discriminate;
    try (intros [= <-]; exists []; split; [reflexivity|constructor]).
  destruct props as [|[k v] tl]; [discriminate|].
  destruct (startsWith "_" k) eqn:Hk.
  - intros [= <-]. exists []. split; [reflexivity|constructor].
  - destruct (getFilterPath k v) as [sub|e] eqn:Hsub; simpl; [|discriminate].
    intros [= <-]. destruct (IH v k sub Hsub) as [rest [-> Hrest]].
    exists (k :: rest). split; [reflexivity|]. constructor; assumption.
Qed.

Lemma getFilterPath_segments_witness :
  exists rest,
    ["author"; "articles"; "title"] = "author" :: rest
    /\ Forall (fun segment => startsWith "_" segment = false) rest.
Proof.
  apply (getFilterPath_segments
           (Fixture.nest "articles" (Fixture.leaf "title" "_eq" (VStr "x")))
           "author").
  reflexivity.
Defined.

(** X2.  The operator [getOperation] extracts always starts with an
    underscore and is never one of the logical keys [_and] and [_or]. *)
Theorem getOperation_token :
  forall (value : Value) (key operator : string) (operand : Value),
    getOperation key value = Ok (operator, operand) ->
    startsWith "_" operator = true
    /\ operator <> "_and" /\ operator <> "_or".
Proof.
  fix IH 1. intros value key operator operand.
  assert (Hop : forall v,
            startsWith "_" key && negb (key =? "_and") && negb (key =? "_or") = true ->
            Ok (key, v) = Ok (operator, operand) ->
            startsWith "_" operator = true
            /\ operator <> "_and" /\ operator <> "_or").
  { intros v Hk [= <- <-].
    apply andb_true_iff in Hk. destruct Hk as [Hk Hor].
    apply andb_true_iff in Hk. destruct Hk as [Hk Hand].
    apply negb_true_iff, String.eqb_neq in Hor, Hand. auto. }
  assert (Heq : forall v,
            Ok ("_eq", v) = Ok (operator, operand) ->
            startsWith "_" operator = true
            /\ operator <> "_and" /\ operator <> "_or").
  { intros v [= <- <-]. repeat split; discriminate. }
  destruct value as [| | | | | |props]; simpl;
    destruct (startsWith "_" key && negb (key =? "_and") && negb (key =? "_or"))
      eqn:Hk;
    try (apply Hop; reflexivity); try apply Heq.
  destruct props as [|[k v] tl]; [discriminate|apply IH].
Qed.

Lemma getOperation_token_witness :
  startsWith "_" "_contains" = true
  /\ "_contains" <> "_and" /\ "_contains" <> "_or".
Proof.
  apply (@getOperation_token
           (Fixture.nest "articles" (Fixture.leaf "title" "_contains" (VStr "x")))
           "author" "_contains" (VStr "x")).
  reflexivity.
Defined.

(** ** The operator table *)

Ltac split_operator operator :=
  repeat match goal with
         | |- context [String.eqb operator ?t] =>
             destruct (String.eqb_spec operator t) as [->|]
         end.

(** X3.  [applyFilterToQuery] throws for the four operators of the
    geometry helper with a defined operand, a ReferenceError, and for
    nothing else; wherever it returns it has registered at most one clause,
    with the connective it was given, and left the joins, the alias map and
    the draws alone. *)
Theorem applyFilterToQuery_at_most_one_clause
  (E : Collaborators) (key operator : string) (compareValue : Value)
  (logical : Logical) (p : Pass) :
  (In operator geometryOperators -> isUndefined compareValue = false ->
   applyFilterToQuery E key operator compareValue logical p = Throw ReferenceError)
  /\ (~ In operator geometryOperators \/ isUndefined compareValue = true ->
      applyFilterToQuery E key operator compareValue logical p = Ok (tt, p)
      \/ exists method args,
           applyFilterToQuery E key operator compareValue logical p
           = Ok (tt, withWhere logical method args p)).
Proof.
  split.
  - intros Hgeo Hu. unfold applyFilterToQuery, bind. rewrite Hu.
    unfold geometryOperators in Hgeo. simpl in Hgeo.
    destruct Hgeo as [<-|[<-|[<-|[<-|[]]]]]; reflexivity.
  - intros Hnot.
    unfold applyFilterToQuery, applyValuelessOperator, applyValueOperator.
    destruct (isUndefined compareValue) eqn:Hu.
    + destruct (String.eqb_spec operator "_null") as [->|];
        [right; eexists; eexists; reflexivity|].
      destruct (String.eqb_spec operator "_nnull") as [->|];
        [right; eexists; eexists; reflexivity|].
      destruct (String.eqb_spec operator "_empty") as [->|];
        [right; eexists; eexists; reflexivity|].
      destruct (String.eqb_spec operator "_nempty") as [->|];
        [right; eexists; eexists; reflexivity|].
      left. reflexivity.
    + assert (Hgeo : ~ In operator geometryOperators)
        by (destruct Hnot as [H|H]; [exact H|discriminate H]).
      destruct (String.eqb_spec operator "_null") as [->|];
        [right; eexists; eexists; reflexivity|].
      destruct (String.eqb_spec operator "_nnull") as [->|];
        [right; eexists; eexists; reflexivity|].
      destruct (String.eqb_spec operator "_empty") as [->|];
        [right; eexists; eexists; reflexivity|].
      destruct (String.eqb_spec operator "_nempty") as [->|];
        [right; eexists; eexists; reflexivity|].
      unfold bind, ret.
      split_operator operator;
        try (right; eexists; eexists; reflexivity);
        try (exfalso; apply Hgeo; unfold geometryOperators; simpl; tauto).
      left. reflexivity.
Qed.

(** X4.  An operator that is not in the table is ignored: whatever the
    operand, nothing is registered and nothing is thrown. *)
Theorem applyFilterToQuery_unknown_operator
  (E : Collaborators) (key operator : string) (compareValue : Value)
  (logical : Logical) (p : Pass)
  (Hunknown : ~ In operator operatorTable) :
  applyFilterToQuery E key operator compareValue logical p = Ok (tt, p).
Proof.
  unfold applyFilterToQuery, applyValuelessOperator, applyValueOperator, bind.
  split_operator operator;
    try (exfalso; apply Hunknown; unfold operatorTable; simpl; tauto).
  destruct (isUndefined compareValue); reflexivity.
Qed.

Lemma applyFilterToQuery_unknown_operator_witness :
  applyFilterToQuery Fixture.collaborators "articles.id" "_in"
    (VArr [VNum 1; VNum 2]) and_
    {| dbQuery := Knex.empty; aliasMap := []; drawn := 0 |}
  = Ok (tt, {| dbQuery := Knex.empty; aliasMap := []; drawn := 0 |}).
Proof.
  apply (@applyFilterToQuery_unknown_operator Fixture.collaborators "articles.id"
           "_in" (VArr [VNum 1; VNum 2]) and_
           {| dbQuery := Knex.empty; aliasMap := []; drawn := 0 |}).
  unfold operatorTable. simpl.
  intros H. repeat (destruct H as [H|H]; [discriminate H|]). exact H.
Defined.

Lemma filter_defined_twice (items : list Value) :
  List.filter isDefined (List.filter isDefined items) = List.filter isDefined items.
Proof.
  induction items as [|x tl IH]; [reflexivity|].
  simpl. destruct (isDefined x) eqn:Hx; [|exact IH].
  simpl. rewrite Hx, IH. reflexivity.
Qed.

(** X5.  The undefined entries of an array operand never reach the
    builder: for every operator, the array and the array without its
    undefined entries register the same clause. *)
Theorem applyFilterToQuery_ignores_undefined_entries
  (E : Collaborators) (key operator : string) (items : list Value)
  (logical : Logical) (p : Pass) :
  applyFilterToQuery E key operator (VArr items) logical p
  = applyFilterToQuery E key operator (VArr (List.filter isDefined items)) logical p.
Proof.
  unfold applyFilterToQuery, applyValuelessOperator.
  cbn [isFalse isUndefined dropUndefined].
  change (fun val : Value => negb (isUndefined val)) with isDefined.
  rewrite filter_defined_twice. reflexivity.
Qed.

(** X6.  For the pairs [_null]/[_nnull], [_eq]/[_neq],
    [_contains]/[_ncontains], [_starts_with]/[_nstarts_with],
    [_ends_with]/[_nends_with], [in]/[nin] and [_between]/[_nbetween], with
    a defined operand, the negated operator registers the arguments of the
    positive one under the method of the opposite sense.  [_nempty] does
    not: against [_empty] it has both the opposite method and the opposite
    comparison, [!=] for [=]. *)
Theorem applyFilterToQuery_negation_pairs
  (E : Collaborators) (key positive negative : string) (compareValue : Value)
  (logical : Logical) (p : Pass)
  (Hpair : In (positive, negative) negationPairs)
  (Hdefined : isUndefined compareValue = false) :
  (exists method args,
     applyFilterToQuery E key positive compareValue logical p
     = Ok (tt, withWhere logical method args p)
     /\ applyFilterToQuery E key negative compareValue logical p
        = Ok (tt, withWhere logical (inverted method) args p))
  /\ (exists method,
        applyFilterToQuery E key "_empty" compareValue logical p
        = Ok (tt, withWhere logical method (ArgCompare key "=" (VStr "")) p)
        /\ applyFilterToQuery E key "_nempty" compareValue logical p
           = Ok (tt, withWhere logical (inverted method)
                       (ArgCompare key "!=" (VStr "")) p)).
Proof.
  split.
  - unfold negationPairs in Hpair. simpl in Hpair.
    unfold applyFilterToQuery, bind.
    destruct Hpair as [Hpair|Hpair].
    { injection Hpair as <- <-. cbn. rewrite Hdefined.
      destruct (isFalse compareValue); eexists; eexists; split; reflexivity. }
    repeat (destruct Hpair as [Hpair|Hpair];
            [injection Hpair as <- <-; cbn; rewrite Hdefined;
             eexists; eexists; split; reflexivity|]).
    destruct Hpair.
  - unfold applyFilterToQuery, bind. cbn. rewrite Hdefined.
    destruct (isFalse compareValue); eexists; split; reflexivity.
Qed.

Lemma applyFilterToQuery_negation_pairs_witness :
  exists method args,
    applyFilterToQuery Fixture.collaborators "articles.title" "_contains"
      (VStr "x") or_ {| dbQuery := Knex.empty; aliasMap := []; drawn := 0 |}
    = Ok (tt, withWhere or_ method args
                {| dbQuery := Knex.empty; aliasMap := []; drawn := 0 |})
    /\ applyFilterToQuery Fixture.collaborators "articles.title" "_ncontains"
         (VStr "x") or_ {| dbQuery := Knex.empty; aliasMap := []; drawn := 0 |}
       = Ok (tt, withWhere or_ (inverted method) args
                   {| dbQuery := Knex.empty; aliasMap := []; drawn := 0 |}).
Proof.
  apply (@applyFilterToQuery_negation_pairs Fixture.collaborators "articles.title"
           "_contains" "_ncontains" (VStr "x") or_
           {| dbQuery := Knex.empty; aliasMap := []; drawn := 0 |}).
  - unfold negationPairs. simpl. auto.
  - reflexivity.
Defined.

(** ** Paths over plain fields *)

(** X7.  A key whose path has two segments or more but whose first segment
    is no relation of the collection passes the join pass untouched and
    makes the predicate pass throw InvalidQuery: the field is not
    relational. *)
Theorem nested_path_on_plain_field_is_rejected
  (E : Collaborators) (schema : SchemaOverview) (subQuery : bool)
  (collection_ key : string) (value : Value) (path : list string)
  (operation : string * Value)
  (Hkey : isLogicalKey key = false)
  (Hpath : getFilterPath key value = Ok path)
  (Hlen : (1 < List.length path)%nat)
  (Hop : getOperation key value = Ok operation)
  (Hplain : findRelation schema collection_ (pathRootOf key) = None) :
  (forall p, addJoinsEntry E schema subQuery collection_ key value p = Ok (tt, p))
  /\ (forall logical p,
        addWhereEntry E schema subQuery collection_ logical key value p
        = Throw (notRelationalField collection_ (pathRootOf key)))
  /\ (forall rootQuery n,
        applyFilter E schema rootQuery (VObj [(key, value)]) collection_ subQuery n
        = Throw (notRelationalField collection_ (pathRootOf key))).
Proof.
  destruct (getFilterPath_head _ _ Hpath) as [rest ->].
  apply Nat.ltb_lt in Hlen.
  assert (HJ : forall p,
    addJoinsEntry E schema subQuery collection_ key value p = Ok (tt, p)).
  { intros p. unfold addJoinsEntry. rewrite Hkey.
    unfold addJoinsField, bind, lift. rewrite Hpath, Hlen. unfold addJoin.
    apply followRelation_plain. exact Hplain. }
  assert (HW : forall logical p,
    addWhereEntry E schema subQuery collection_ logical key value p
    = Throw (notRelationalField collection_ (pathRootOf key))).
  { intros logical p. unfold addWhereEntry. rewrite Hkey.
    unfold addWhereField, bind, lift. rewrite Hpath, Hplain, Hop.
    cbn [isType isSome negb orb]. rewrite Hlen. cbn [getState getWhereColumn findRelationOf getRelationTypeOf].
    rewrite Hplain. reflexivity. }
  split; [exact HJ|]. split; [exact HW|].
  intros rootQuery n. unfold applyFilter, applyFilterPass, bind.
  rewrite addJoins_obj_cons. unfold bind. rewrite HJ, addJoins_obj_nil.
  rewrite addWhereClauses_obj_cons. unfold bind. rewrite HW. reflexivity.
Qed.

(** [{title: {length: {_gt: 3}}}] on [articles] *)
Lemma nested_path_on_plain_field_is_rejected_witness :
  applyFilter Fixture.collaborators Fixture.schema Knex.empty
    (Fixture.nest "title" (Fixture.leaf "length" "_gt" (VNum 3))) "articles" false 0
  = Throw (notRelationalField "articles" "title").
Proof.
  refine (proj2 (proj2
    (@nested_path_on_plain_field_is_rejected Fixture.collaborators Fixture.schema
       false "articles" "title" (Fixture.leaf "length" "_gt" (VNum 3))
       ["title"; "length"] ("_gt", VNum 3) _ _ _ _ _)) Knex.empty 0).
  - reflexivity.
  - reflexivity.
  - simpl. lia.
  - reflexivity.
  - reflexivity.
Defined.

(** ** Chains of many-to-one hops *)

Lemma lookup_assign_other (k q : string) (v : Value) (props : list (string * Value)) :
  k <> q -> lookup k (assign q v props) = lookup k props.
Proof.
  intros Hne. induction props as [|[k' w] tl IH]; simpl.
  - destruct (String.eqb_spec q k) as [->|]; [contradiction|reflexivity].
  - destruct (String.eqb_spec k' q) as [->|]; simpl.
    + destruct (String.eqb_spec q k) as [->|]; [contradiction|reflexivity].
    + destruct (String.eqb_spec k' k); [reflexivity|exact IH].
Qed.

(** [set] at a path leaves what [get] finds under another first key. *)
Lemma get_set_other (k q : string) (ps qs : list string)
      (object : list (string * Value)) (v : Value) :
  k <> q ->
  Lodash.get (Lodash.set object (q :: qs) v) (k :: ps) = Lodash.get object (k :: ps).
Proof.
  intros Hne. unfold Lodash.get. cbn [Lodash.getFrom].
  destruct qs as [|q' qs'].
  - cbn [Lodash.set]. rewrite lookup_assign_other by exact Hne. reflexivity.
  - change (Lodash.set object (q :: q' :: qs') v)
      with (assign q
              (VObj (Lodash.set
                       (match lookup q object with
                        | VObj props => props
                        | _ => []
                        end) (q' :: qs') v)) object).
    rewrite lookup_assign_other by exact Hne. reflexivity.
Qed.

Lemma m2oHops_step (schema : SchemaOverview) (collection_ segment next : string)
      (rest : list string) :
  m2oHops schema collection_ (segment :: next :: rest)
  = match findRelation schema collection_ (pathRootOf segment) with
    | Some relation =>
        if isType m2o (getRelationType relation collection_ (pathRootOf segment))
        then
          match related_collection relation with
          | Some related =>
              match primaryOf schema related with
              | Ok pk =>
                  option_map (cons (relation, related, pk))
                    (m2oHops schema related (next :: rest))
              | Throw _ => None
              end
          | None => None
          end
        else None
    | None => None
    end.
Proof. reflexivity. Qed.

Lemma m2oHops_nil (schema : SchemaOverview) (collection_ : string) (path : list string) :
  m2oHops schema collection_ path = Some [] ->
  exists leaf, path = [leaf]
               /\ findRelation schema collection_ (pathRootOf leaf) = None.
Proof.
  destruct path as [|segment [|s rest]]; [discriminate| |].
  - cbn [m2oHops].
    destruct (findRelation schema collection_ (pathRootOf segment)) eqn:H;
      [discriminate|]. intros _. exists segment. split; [reflexivity|exact H].
  - rewrite m2oHops_step.
    destruct (findRelation schema collection_ (pathRootOf segment)) as [r|];
      [|discriminate].
    destruct (isType m2o _); [|discriminate].
    destruct (related_collection r) as [rc|]; [|discriminate].
    destruct (primaryOf schema rc); [|discriminate].
    destruct (m2oHops schema rc (s :: rest)); discriminate.
Qed.

Lemma m2oHops_cons (schema : SchemaOverview) (collection_ : string) (path : list string)
      (relation : Relation) (related pk : string)
      (tl : list (Relation * string * string)) :
  m2oHops schema collection_ path = Some ((relation, related, pk) :: tl) ->
  exists segment next rest,
    path = segment :: next :: rest
    /\ findRelation schema collection_ (pathRootOf segment) = Some relation
    /\ getRelationType relation collection_ (pathRootOf segment) = Some m2o
    /\ related_collection relation = Some related
    /\ primaryOf schema related = Ok pk
    /\ m2oHops schema related (next :: rest) = Some tl.
Proof.
  destruct path as [|segment [|next rest]]; [discriminate| |].
  - cbn [m2oHops].
    destruct (findRelation schema collection_ (pathRootOf segment)); discriminate.
  - rewrite m2oHops_step.
    destruct (findRelation schema collection_ (pathRootOf segment)) as [r|] eqn:Hrel;
      [|discriminate].
    destruct (getRelationType r collection_ (pathRootOf segment)) as [[| |]|] eqn:Ht;
      cbn [isType RelationType_eqb]; try discriminate.
    destruct (related_collection r) as [rc|] eqn:Hrc; [|discriminate].
    destruct (primaryOf schema rc) as [k|] eqn:Hk; [|discriminate].
    destruct (m2oHops schema rc (next :: rest)) as [hops|] eqn:Hh; [|discriminate].
    cbn [option_map]. intros [= <- <- <- <-].
    exists segment, next, rest. repeat split; assumption.
Qed.

Lemma aliasesFrom_S (E : Collaborators) (d k : nat) :
  aliasesFrom E d (S k) = generateAlias E d :: aliasesFrom E (S d) k.
Proof. reflexivity. Qed.

Lemma aliasPath_cons (parentAlias : option string) (segment : string)
      (rest : list string) :
  match parentAlias with Some a => a <> "" | None => True end ->
  aliasPath parentAlias (segment :: rest)
  = List.hd "" (aliasPath parentAlias (segment :: rest))
    :: List.tl (aliasPath parentAlias (segment :: rest))
  /\ (if truthy (aliasValue parentAlias)
      then toString (aliasValue parentAlias) :: segment :: rest
      else segment :: rest)
     = aliasPath parentAlias (segment :: rest)
  /\ (forall parent, parent <> "" -> aliasOr (Some parent) segment = parent).
Proof.
  intros Hok. destruct parentAlias as [a|]; cbn.
  - apply String.eqb_neq in Hok. rewrite Hok. cbn. repeat split.
    intros parent Hp. apply String.eqb_neq in Hp. rewrite Hp. reflexivity.
  - repeat split.
    intros parent Hp. apply String.eqb_neq in Hp. rewrite Hp. reflexivity.
Qed.

Section Chain.

Variable E : Collaborators.
Variable schema : SchemaOverview.
Variable subQuery : bool.

Lemma followRelation_m2o_hop (segment next : string) (rest : list string)
      (collection_ : string) (parentAlias : option string) (relation : Relation)
      (related pk : string) (p : Pass) :
  findRelation schema collection_ (pathRootOf segment) = Some relation ->
  getRelationType relation collection_ (pathRootOf segment) = Some m2o ->
  related_collection relation = Some related ->
  primaryOf schema related = Ok pk ->
  followRelation E schema subQuery (segment :: next :: rest) collection_ parentAlias p
  = followRelation E schema subQuery (next :: rest) related
      (Some (generateAlias E (drawn p)))
      (withJoin
         (LeftJoin (generateAlias E (drawn p)) (Some related)
            (aliasOr parentAlias collection_ ++ "." ++ field relation)
            (generateAlias E (drawn p) ++ "." ++ pk))
         (afterHop E parentAlias (segment :: next :: rest) p)).
Proof.
  intros Hrel Htype Hrelated Hpk.
  change (followRelation E schema subQuery (segment :: next :: rest) collection_
            parentAlias p)
    with (match findRelation schema collection_ (pathRootOf segment) with
          | None => ret tt
          | Some relation0 =>
              let relationType :=
                getRelationType relation0 collection_ (pathRootOf segment) in
              bind (drawAlias E) (fun alias =>
              bind (recordAlias (aliasPath parentAlias (segment :: next :: rest)) alias)
                (fun _ =>
              bind (if isType m2o relationType then
                      bind (lift (relatedPrimaryOf schema relation0)) (fun pk0 =>
                        onQuery (leftJoin
                          (LeftJoin alias (related_collection relation0)
                             (aliasOr parentAlias collection_ ++ "." ++ field relation0)
                             (alias ++ "." ++ pk0))))
                    else ret tt) (fun _ =>
              bind (if isType m2a relationType then
                      bind (lift (scopeOrThrow segment)) (fun pathScope =>
                      bind (lift (primaryOf schema pathScope)) (fun pk0 =>
                        match meta relation0 with
                        | None => throw TypeError
                        | Some m =>
                            onQuery (leftJoin
                              (LeftJoinOnVal alias pathScope
                                 (aliasOr parentAlias collection_ ++ "." ++ field relation0)
                                 (alias ++ "." ++ pk0)
                                 (one_collection_field m) pathScope))
                        end))
                    else ret tt) (fun _ =>
              bind (if isType o2m relationType && (subQuery || isSome parentAlias) then
                      bind (lift (relatedPrimaryOf schema relation0)) (fun pk0 =>
                        onQuery (leftJoin
                          (LeftJoin alias (Some (collection relation0))
                             (aliasOr parentAlias collection_ ++ "." ++ pk0)
                             (alias ++ "." ++ field relation0))))
                    else ret tt) (fun _ =>
              if isType m2o relationType || subQuery then
                bind (lift
                        (if isType m2o relationType then
                           match related_collection relation0 with
                           | Some c => Ok c
                           | None => Throw TypeError
                           end
                         else if isType m2a relationType then scopeOrThrow segment
                         else Ok (collection relation0))) (fun parent =>
                  followRelation E schema subQuery (next :: rest) parent (Some alias))
              else ret tt)))))
          end p).
  rewrite Hrel. cbv zeta. rewrite Htype.
  cbn [isType RelationType_eqb andb orb].
  unfold bind, drawAlias, recordAlias, modify, lift, relatedPrimaryOf, onQuery, ret.
  rewrite Hrelated, Hpk. reflexivity.
Qed.

Lemma getWhereColumn_m2o_hop (aliases : list (string * Value))
      (segment next : string) (rest : list string) (collection_ : string)
      (alias : Value) (relation : Relation) (related : string) :
  findRelation schema collection_ (pathRootOf segment) = Some relation ->
  getRelationType relation collection_ (pathRootOf segment) = Some m2o ->
  related_collection relation = Some related ->
  getWhereColumn schema aliases (segment :: next :: rest) (Some collection_) alias
  = match rest with
    | [] =>
        Ok (Some ((if truthy (Lodash.get aliases
                                (if truthy alias
                                 then toString alias :: segment :: [next]
                                 else segment :: [next]))
                   then toString (Lodash.get aliases
                                    (if truthy alias
                                     then toString alias :: segment :: [next]
                                     else segment :: [next]))
                   else related) ++ "." ++ next))
    | _ :: _ =>
        getWhereColumn schema aliases (next :: rest) (Some related)
          (Lodash.get aliases
             (if truthy alias then toString alias :: segment :: next :: rest
              else segment :: next :: rest))
    end.
Proof.
  intros Hrel Htype Hrelated.
  destruct rest as [|r rest].
  - cbn [getWhereColumn findRelationOf getRelationTypeOf]. rewrite Hrel, Htype.
    cbn [isType RelationType_eqb]. rewrite Hrelated.
    reflexivity.
  - change (getWhereColumn schema aliases (segment :: next :: r :: rest)
              (Some collection_) alias)
      with (match findRelation schema collection_ (pathRootOf segment) with
            | None => Throw (notRelationalField collection_ (pathRootOf segment))
            | Some relation0 =>
                rbind (if isType m2a (getRelationType relation0 collection_
                                        (pathRootOf segment))
                       then rbind (scopeOrThrow segment)
                              (fun pathScope => Ok (Some pathScope))
                       else if isType m2o (getRelationType relation0 collection_
                                             (pathRootOf segment))
                            then Ok (related_collection relation0)
                            else Ok (Some (collection relation0)))
                  (fun parent =>
                     getWhereColumn schema aliases (next :: r :: rest) parent
                       (Lodash.get aliases
                          (if truthy alias
                           then toString alias :: segment :: next :: r :: rest
                           else segment :: next :: r :: rest)))
            end).
    rewrite Hrel, Htype. cbn [isType RelationType_eqb].
    rewrite Hrelated. reflexivity.
Qed.

Lemma aliasOr_some (a collection_ : string) :
  a <> "" -> aliasOr (Some a) collection_ = a.
Proof. intros H. unfold aliasOr. apply String.eqb_neq in H. rewrite H. reflexivity. Qed.

Lemma last_cons_cons {A : Type} (x y : A) (l : list A) (d : A) :
  List.last (x :: y :: l) d = List.last (y :: l) d.
Proof. reflexivity. Qed.

(** The join pass and the column lookup over a chain, from any hop on. *)
Lemma m2o_chain_from (hops : list (Relation * string * string)) :
  forall (path : list string) (collection_ : string) (parentAlias : option string)
         (p : Pass),
    m2oHops schema collection_ path = Some hops ->
    match parentAlias with Some a => a <> "" | None => True end ->
    Forall (fun a => a <> "") (aliasesFrom E (drawn p) (List.length hops)) ->
    NoDup (aliasesFrom E (drawn p) (List.length hops)) ->
    ~ In (List.hd "" (aliasPath parentAlias path))
         (aliasesFrom E (drawn p) (List.length hops)) ->
    exists p',
      followRelation E schema subQuery path collection_ parentAlias p = Ok (tt, p')
      /\ dbQuery p'
         = withJoins (chainJoins E (aliasOr parentAlias collection_) (drawn p) hops)
             (dbQuery p)
      /\ drawn p' = drawn p + List.length hops
      /\ (forall k ps,
            k <> List.hd "" (aliasPath parentAlias path) ->
            ~ In k (aliasesFrom E (drawn p) (List.length hops)) ->
            Lodash.get (aliasMap p') (k :: ps) = Lodash.get (aliasMap p) (k :: ps))
      /\ (hops <> [] ->
          getWhereColumn schema (aliasMap p') path (Some collection_)
            (aliasValue parentAlias)
          = Ok (Some (List.last (aliasesFrom E (drawn p) (List.length hops)) ""
                        ++ "." ++ List.last path ""))).
Proof.
  induction hops as [|[[relation related] pk] tl IH];
    intros path collection_ parentAlias p Hhops Hparent Hne Hnodup Hfresh.
  - destruct (m2oHops_nil _ _ _ Hhops) as [leaf [-> Hplain]].
    exists p. split; [apply followRelation_plain; exact Hplain|].
    split; [symmetry; apply withJoins_nil|].
    split; [cbn; lia|]. split; [reflexivity|]. intros H. contradiction.
  - destruct (m2oHops_cons _ _ _ Hhops)
      as [segment [next [rest [-> [Hrel [Htype [Hrelated [Hpk Htl]]]]]]]].
    cbn [List.length] in *. rewrite aliasesFrom_S in *.
    set (a := generateAlias E (drawn p)) in *.
    inversion Hne as [|? ? Ha Hne']; subst.
    inversion Hnodup as [|? ? Hnotin Hnodup']; subst.
    destruct (aliasPath_cons parentAlias segment (next :: rest) Hparent)
      as [HK [Htruthy Hor]].
    set (K := aliasPath parentAlias (segment :: next :: rest)) in *.
    set (p1 := withJoin
                 (LeftJoin a (Some related)
                    (aliasOr parentAlias collection_ ++ "." ++ field relation)
                    (a ++ "." ++ pk))
                 (afterHop E parentAlias (segment :: next :: rest) p)).
    assert (Hd1 : drawn p1 = S (drawn p)) by reflexivity.
    destruct (IH (next :: rest) related (Some a) p1 Htl Ha) as
      [p' [Hrun [Hjoins [Hdrawn [Hframe Hcolumn]]]]].
    { rewrite Hd1. exact Hne'. }
    { rewrite Hd1. exact Hnodup'. }
    { rewrite Hd1. cbn [aliasPath]. apply String.eqb_neq in Ha. rewrite Ha.
      cbn [List.hd]. exact Hnotin. }
    assert (HaK : a <> List.hd "" K).
    { intros Heq. apply Hfresh. left. exact Heq. }
    assert (HgetK : Lodash.get (aliasMap p') K = VStr a).
    { rewrite HK. rewrite Hframe.
      - rewrite <- HK. unfold p1, withJoin, afterHop. cbn [aliasMap].
        fold K. apply get_set_same. rewrite HK. discriminate.
      - cbn [aliasPath]. pose proof Ha as Ha'. apply String.eqb_neq in Ha'.
        rewrite Ha'. cbn [List.hd]. intros Heq. apply HaK. symmetry. exact Heq.
      - rewrite Hd1. intros Hin. apply Hfresh. right. exact Hin. }
    exists p'. split; [|split; [|split; [|split]]].
    + rewrite (followRelation_m2o_hop _ _ _ _ _ _ Hrel Htype Hrelated Hpk).
      exact Hrun.
    + rewrite Hjoins. unfold p1, withJoin, afterHop. cbn [dbQuery drawn].
      rewrite leftJoin_withJoins, withJoins_app. cbn [chainJoins app].
      fold a. rewrite (aliasOr_some related Ha). reflexivity.
    + rewrite Hdrawn, Hd1. lia.
    + intros k ps Hk Hnin. rewrite Hframe.
      * unfold p1, withJoin, afterHop. cbn [aliasMap]. fold K. rewrite HK.
        apply get_set_other. exact Hk.
      * cbn [aliasPath]. pose proof Ha as Ha'. apply String.eqb_neq in Ha'.
        rewrite Ha'. cbn [List.hd]. intros ->. apply Hnin. left. reflexivity.
      * rewrite Hd1. intros Hin. apply Hnin. right. exact Hin.
    + intros _.
      erewrite getWhereColumn_m2o_hop by eassumption.
      destruct rest as [|r rest].
      * rewrite Htruthy. fold K. rewrite HgetK. cbn [truthy toString].
        pose proof Ha as Ha'. apply String.eqb_neq in Ha'. rewrite Ha'.
        cbn [negb]. destruct tl as [|h tl'].
        -- reflexivity.
        -- destruct h as [[r0 rc0] pk0].
           destruct (m2oHops_cons _ _ _ Htl) as [s [n0 [rs [Hbad _]]]].
           discriminate Hbad.
      * rewrite Htruthy. fold K. rewrite HgetK.
        destruct tl as [|h tl'].
        -- destruct (m2oHops_nil _ _ _ Htl) as [leaf [Hbad _]]. discriminate Hbad.
        -- rewrite Hd1 in Hcolumn.
           change (VStr a) with (aliasValue (Some a)).
           rewrite Hcolumn by discriminate.
           rewrite (last_cons_cons segment next (r :: rest)).
           reflexivity.
Qed.

End Chain.

Lemma column_not_empty (table name : string) :
  String.eqb (table ++ "." ++ name) "" = false.
Proof. apply String.eqb_neq. destruct table; discriminate. Qed.

(** X8.  A key whose path runs through many-to-one relations down to a
    plain field gets one LEFT JOIN for each hop, each on the foreign key of
    the table before it and the primary key of the related collection, and
    its predicate is compiled on the last segment under the alias of the
    last join.  The aliases drawn are taken to be non-empty, different from
    one another and from the key. *)
Theorem many_to_one_chain_joins_and_column
  (E : Collaborators) (schema : SchemaOverview) (subQuery : bool)
  (collection_ key : string) (value : Value) (path : list string)
  (operation : string * Value) (hops : list (Relation * string * string))
  (rootQuery : QueryBuilder) (n : nat)
  (Hkey : isLogicalKey key = false)
  (Hpath : getFilterPath key value = Ok path)
  (Hop : getOperation key value = Ok operation)
  (Hhops : m2oHops schema collection_ path = Some hops)
  (Hsome : hops <> [])
  (Hne : Forall (fun a => a <> "") (aliasesFrom E n (List.length hops)))
  (Hnodup : NoDup (aliasesFrom E n (List.length hops)))
  (Hfresh : ~ In key (aliasesFrom E n (List.length hops))) :
  exists p',
    dbQuery p' = withJoins (chainJoins E collection_ n hops) rootQuery
    /\ drawn p' = n + List.length hops
    /\ applyFilter E schema rootQuery (VObj [(key, value)]) collection_ subQuery n
       = outcome
           (applyFilterToQuery E
              (List.last (aliasesFrom E n (List.length hops)) "" ++ "."
               ++ List.last path "")
              (fst operation) (snd operation) and_ p').
Proof.
  destruct (getFilterPath_head _ _ Hpath) as [rest Hp]. subst path.
  set (start := {| dbQuery := rootQuery; aliasMap := []; drawn := n |}).
  destruct (@m2o_chain_from E schema subQuery hops (key :: rest) collection_ None
              start Hhops I Hne Hnodup Hfresh)
    as [p' [Hrun [Hjoins [Hdrawn [_ Hcolumn]]]]].
  specialize (Hcolumn Hsome). cbn [aliasValue drawn start] in Hcolumn.
  exists p'. split; [exact Hjoins|]. split; [exact Hdrawn|].
  destruct hops as [|[[relation related] pk] tl]; [contradiction|].
  destruct (m2oHops_cons _ _ _ Hhops)
    as [segment [next [rest' [Heq [Hrel [Htype _]]]]]].
  injection Heq as <- ->.
  unfold applyFilter, applyFilterPass, bind.
  rewrite addJoins_obj_cons. unfold bind, addJoinsEntry. rewrite Hkey.
  unfold addJoinsField, bind, lift. rewrite Hpath.
  cbn [List.length Nat.ltb Nat.leb]. unfold addJoin. fold start. rewrite Hrun.
  rewrite addJoins_obj_nil, addWhereClauses_obj_cons.
  unfold bind, addWhereEntry. rewrite Hkey.
  unfold addWhereField, bind, lift. rewrite Hpath, Hrel, Hop, Htype.
  cbn [isType RelationType_eqb orb List.length Nat.ltb Nat.leb getState].
  rewrite Hcolumn. rewrite column_not_empty.
  unfold outcome.
  destruct (applyFilterToQuery E _ _ _ _ p') as [[[] p2]|e]; reflexivity.
Qed.

(** [{article: {author: {name: {_eq: 'Rijk'}}}}] on [comments]: two joins,
    and the predicate on [aaaab.name]. *)
Lemma many_to_one_chain_joins_and_column_witness :
  exists p',
    dbQuery p'
    = withJoins
        [LeftJoin "aaaaa" (Some "articles") "comments.article" "aaaaa.id";
         LeftJoin "aaaab" (Some "authors") "aaaaa.author" "aaaab.uuid"]
        Knex.empty
    /\ drawn p' = 2
    /\ applyFilter Fixture.collaborators Chained.schema Knex.empty
         (Fixture.nest "article"
            (Fixture.nest "author" (Fixture.leaf "name" "_eq" (VStr "Rijk"))))
         "comments" false 0
       = outcome
           (applyFilterToQuery Fixture.collaborators "aaaab.name" "_eq"
              (VStr "Rijk") and_ p').
Proof.
  apply (@many_to_one_chain_joins_and_column Fixture.collaborators Chained.schema
           false "comments" "article"
           (Fixture.nest "author" (Fixture.leaf "name" "_eq" (VStr "Rijk")))
           ["article"; "author"; "name"] ("_eq", VStr "Rijk")
           [(Chained.manyToOne "comments" "article" "articles", "articles", "id");
            (Chained.manyToOne "articles" "author" "authors", "authors", "uuid")]
           Knex.empty 0).
  - reflexivity.
  - reflexivity.
  - reflexivity.
  - reflexivity.
  - discriminate.
  - repeat constructor; discriminate.
  - repeat constructor; simpl; intuition discriminate.
  - simpl. intuition discriminate.
Defined.

(** ** Many-to-any with a scope *)

(** X9.  A key [field:scope] on a many-to-any relation joins the scoped
    collection on the foreign key and its primary key, pins the
    discriminator column of the relation to the scope, and compiles the
    predicate on the joined alias. *)
Theorem scoped_many_to_any_joins_the_scope
  (E : Collaborators) (schema : SchemaOverview) (subQuery : bool)
  (collection_ key leaf_ : string) (value : Value) (operation : string * Value)
  (relation : Relation) (m : RelationMeta) (scope pk : string)
  (rootQuery : QueryBuilder) (n : nat)
  (Hkey : isLogicalKey key = false)
  (Hpath : getFilterPath key value = Ok [key; leaf_])
  (Hop : getOperation key value = Ok operation)
  (Hrel : findRelation schema collection_ (pathRootOf key) = Some relation)
  (Htype : getRelationType relation collection_ (pathRootOf key) = Some m2a)
  (Hmeta : meta relation = Some m)
  (Hscope : scopeOrThrow key = Ok scope)
  (Hpk : primaryOf schema scope = Ok pk)
  (Hplain : findRelation schema scope (pathRootOf leaf_) = None)
  (Halias : generateAlias E n <> "") :
  applyFilter E schema rootQuery (VObj [(key, value)]) collection_ subQuery n
  = outcome
      (applyFilterToQuery E (generateAlias E n ++ "." ++ leaf_)
         (fst operation) (snd operation) and_
         {| dbQuery :=
              leftJoin
                (LeftJoinOnVal (generateAlias E n) scope
                   (collection_ ++ "." ++ field relation)
                   (generateAlias E n ++ "." ++ pk)
                   (one_collection_field m) scope)
                rootQuery;
            aliasMap := Lodash.set [] [key; leaf_] (VStr (generateAlias E n));
            drawn := S n |}).
Proof.
  set (final := {| dbQuery :=
                     leftJoin
                       (LeftJoinOnVal (generateAlias E n) scope
                          (collection_ ++ "." ++ field relation)
                          (generateAlias E n ++ "." ++ pk)
                          (one_collection_field m) scope)
                       rootQuery;
                   aliasMap := Lodash.set [] [key; leaf_] (VStr (generateAlias E n));
                   drawn := S n |}).
  assert (HJ : addJoinsEntry E schema subQuery collection_ key value
                 {| dbQuery := rootQuery; aliasMap := []; drawn := n |}
               = Ok (tt, final)).
  { unfold addJoinsEntry. rewrite Hkey. unfold addJoinsField, bind, lift.
    rewrite Hpath. cbn [List.length Nat.ltb Nat.leb]. unfold addJoin.
    cbn [followRelation]. rewrite Hrel, Htype.
    unfold bind, drawAlias, recordAlias, modify, lift, onQuery. simpl.
    rewrite Hscope, Hpk, Hmeta. simpl.
    destruct subQuery; simpl; [rewrite Hplain|]; reflexivity. }
  assert (Hget : Lodash.get (aliasMap final) [key; leaf_] = VStr (generateAlias E n)).
  { apply get_set_same. discriminate. }
  unfold applyFilter, applyFilterPass, bind.
  rewrite addJoins_obj_cons. unfold bind. rewrite HJ.
  rewrite addJoins_obj_nil, addWhereClauses_obj_cons.
  unfold bind, addWhereEntry. rewrite Hkey.
  unfold addWhereField, bind, lift. rewrite Hpath, Hrel, Hop, Htype.
  cbn [isType RelationType_eqb orb List.length Nat.ltb Nat.leb getState].
  cbn [getWhereColumn findRelationOf getRelationTypeOf truthy]. rewrite Hrel, Htype.
  cbn [isType RelationType_eqb]. rewrite Hscope. cbn [rbind]. rewrite Hget.
  cbn [truthy toString]. apply String.eqb_neq in Halias. rewrite Halias.
  cbn [negb]. rewrite column_not_empty. unfold outcome.
  destruct (applyFilterToQuery E _ _ _ _ final) as [[[] p2]|e]; reflexivity.
Qed.

(** [{"item:articles": {title: {_eq: 'x'}}}] on [blocks] *)
Lemma scoped_many_to_any_joins_the_scope_witness :
  applyFilter Fixture.collaborators Fixture.schema Knex.empty
    (Fixture.nest "item:articles" (Fixture.leaf "title" "_eq" (VStr "x")))
    "blocks" false 0
  = Ok (addWhere {| w_bool := and_; w_method := where_;
                    w_args := ArgObject "aaaaa.title" (VStr "x") |}
          (leftJoin
             (LeftJoinOnVal "aaaaa" "articles" "blocks.item" "aaaaa.id"
                (Some "collection") "articles")
             Knex.empty), 1).
Proof.
  refine (eq_trans
    (@scoped_many_to_any_joins_the_scope Fixture.collaborators Fixture.schema false
       "blocks" "item:articles" "title" (Fixture.leaf "title" "_eq" (VStr "x"))
       ("_eq", VStr "x")
       {| collection := "blocks"; field := "item";
          related_collection := None;
          meta := Some {| one_field := None;
                          one_collection_field := Some "collection";
                          one_allowed_collections := Some ["articles"; "authors"];
                          one_deselect_action := None |} |}
       {| one_field := None;
          one_collection_field := Some "collection";
          one_allowed_collections := Some ["articles"; "authors"];
          one_deselect_action := None |}
       "articles" "id" Knex.empty 0 _ _ _ _ _ _ _ _ _ _) _); try reflexivity.
  discriminate.
Defined.

(** ** What the passes leave alone *)

Lemma withWheres_nil (q : QueryBuilder) : withWheres [] q = q.
Proof. destruct q. unfold withWheres. simpl. rewrite app_nil_r. reflexivity. Qed.

Lemma withWheres_app (w1 w2 : list WhereClause) (q : QueryBuilder) :
  withWheres w2 (withWheres w1 q) = withWheres (w1 ++ w2) q.
Proof. unfold withWheres. simpl. rewrite app_assoc. reflexivity. Qed.

Section Preserving.

Variable R : Pass -> Pass -> Prop.
Hypothesis R_refl : forall p, R p p.
Hypothesis R_trans : forall p q r, R p q -> R q r -> R p r.

Lemma Preserves_ret {A : Type} (a : A) : Preserves R (ret a).
Proof. intros p a' p' [= <- <-]. apply R_refl. Qed.

Lemma Preserves_throw {A : Type} (e : Exception) : Preserves R (@throw Pass A e).
Proof. intros p a p' H. discriminate H. Qed.

Lemma Preserves_lift {A : Type} (r : Result A) : Preserves R (lift r).
Proof.
  intros p a p' H. unfold lift in H. destruct r; [|discriminate H].
  injection H as <- <-. apply R_refl.
Qed.

Lemma Preserves_getState : Preserves R getState.
Proof. intros p a p' [= <- <-]. apply R_refl. Qed.

Lemma Preserves_bind {A B : Type} (m : M Pass A) (k : A -> M Pass B) :
  Preserves R m -> (forall a, Preserves R (k a)) -> Preserves R (bind m k).
Proof.
  intros Hm Hk p b p' H. unfold bind in H.
  destruct (m p) as [[a p1]|e] eqn:Hmp; [|discriminate H].
  eapply R_trans; [eapply Hm; exact Hmp|eapply Hk; exact H].
Qed.

Lemma Preserves_forEach {A : Type} (body : A -> M Pass unit) (l : list A) :
  (forall x, In x l -> Preserves R (body x)) -> Preserves R (forEach body l).
Proof.
  induction l as [|x tl IH]; intros H; cbn [forEach].
  - apply Preserves_ret.
  - apply Preserves_bind; [apply H; left; reflexivity|].
    intros _. apply IH. intros y Hy. apply H. right. exact Hy.
Qed.

End Preserving.

Lemma JoinStep_refl (p : Pass) : JoinStep p p.
Proof. split; [exists []; symmetry; apply withJoins_nil|apply Nat.le_refl]. Qed.

Lemma JoinStep_trans (p q r : Pass) : JoinStep p q -> JoinStep q r -> JoinStep p r.
Proof.
  intros [[j1 H1] L1] [[j2 H2] L2]. split.
  - exists (j1 ++ j2)%list. rewrite H2, H1. apply withJoins_app.
  - eapply Nat.le_trans; eassumption.
Qed.

Lemma ClauseStep_refl (logical : Logical) (p : Pass) : ClauseStep logical p p.
Proof.
  exists []. split; [|constructor]. rewrite withWheres_nil. destruct p. reflexivity.
Qed.

Lemma ClauseStep_trans (logical : Logical) (p q r : Pass) :
  ClauseStep logical p q -> ClauseStep logical q r -> ClauseStep logical p r.
Proof.
  intros [w1 [-> F1]] [w2 [-> F2]]. exists (w1 ++ w2)%list. split.
  - cbn [dbQuery aliasMap drawn]. rewrite withWheres_app. reflexivity.
  - apply Forall_app. split; assumption.
Qed.

Lemma JoinStep_drawAlias (E : Collaborators) : Preserves JoinStep (drawAlias E).
Proof.
  intros p a p' [= <- <-]. split; [exists []; symmetry; apply withJoins_nil|].
  cbn. apply Nat.le_succ_diag_r.
Qed.

Lemma JoinStep_recordAlias (path : list string) (alias : string) :
  Preserves JoinStep (recordAlias path alias).
Proof.
  intros p a p' [= <- <-]. split; [exists []; symmetry; apply withJoins_nil|].
  apply Nat.le_refl.
Qed.

Lemma JoinStep_leftJoin (j : JoinClause) : Preserves JoinStep (onQuery (leftJoin j)).
Proof.
  intros p a p' [= <- <-]. split; [exists [j]; reflexivity|apply Nat.le_refl].
Qed.

Lemma ClauseStep_registerWhere (logical : Logical) (method : WhereMethod)
      (args : WhereArgs) :
  Preserves (ClauseStep logical) (registerWhere logical method args).
Proof.
  intros p a p' [= <- <-].
  exists [{| w_bool := logical; w_method := method; w_args := args |}].
  split; [reflexivity|]. constructor; [reflexivity|constructor].
Qed.

Ltac rel_side :=
  first [ exact JoinStep_refl
        | exact JoinStep_trans
        | apply ClauseStep_refl
        | intros ? ? ?; apply ClauseStep_trans ].

Ltac p_ret := apply Preserves_ret; rel_side.
Ltac p_lift := apply Preserves_lift; rel_side.
Ltac p_get := apply Preserves_getState; rel_side.
Ltac p_bind := apply Preserves_bind; [rel_side| |intro].
Ltac p_each := apply Preserves_forEach; [rel_side|rel_side|].

Ltac preserves_step :=
  repeat first
    [ p_bind
    | match goal with
      | |- Preserves _ (if ?c then _ else _) => destruct c
      | |- Preserves _ (match ?x with _ => _ end) => destruct x
      end
    | p_ret
    | apply Preserves_throw
    | p_lift
    | p_get
    | apply JoinStep_drawAlias
    | apply JoinStep_recordAlias
    | apply JoinStep_leftJoin
    | apply ClauseStep_registerWhere ].

Lemma JoinStep_followRelation
      (E : Collaborators) (schema : SchemaOverview) (subQuery : bool)
      (pathParts : list string) :
  forall parentCollection parentAlias,
    Preserves JoinStep
      (followRelation E schema subQuery pathParts parentCollection parentAlias).
Proof.
  induction pathParts as [|segment remaining IH]; intros parentCollection parentAlias.
  - cbn [followRelation]. apply Preserves_throw.
  - cbn [followRelation].
    destruct (findRelation schema parentCollection (pathRootOf segment));
      [|p_ret].
    p_bind; [apply JoinStep_drawAlias|].
    p_bind; [apply JoinStep_recordAlias|].
    p_bind; [preserves_step|].
    p_bind; [preserves_step|].
    p_bind; [preserves_step|].
    destruct (isType m2o _ || subQuery); [|p_ret].
    p_bind; [p_lift|].
    destruct remaining; [p_ret|apply IH].
Qed.

Lemma JoinStep_addJoinsField
      (E : Collaborators) (schema : SchemaOverview) (subQuery : bool)
      (collection_ key : string) (value : Value) :
  Preserves JoinStep (addJoinsField E schema subQuery collection_ key value).
Proof.
  unfold addJoinsField. p_bind; [p_lift|].
  destruct (1 <? List.length _)%nat; [|p_ret].
  apply JoinStep_followRelation.
Qed.

Lemma JoinStep_addJoins
      (E : Collaborators) (schema : SchemaOverview) (subQuery : bool) :
  forall (filter_ : Value) (collection_ : string),
    Preserves JoinStep (addJoins E schema subQuery filter_ collection_).
Proof.
  fix IH 1. intros filter_ collection_.
  destruct filter_ as [| | | | | |props].
  1-2: cbn [addJoins]; apply Preserves_throw.
  1-4: cbn [addJoins entries];
       try (p_ret);
       p_each; intros x _;
       apply JoinStep_addJoinsField.
  induction props as [|[key value] tl IHl]; intros p a p' H.
  - rewrite addJoins_obj_nil in H. injection H as <- <-. apply JoinStep_refl.
  - rewrite addJoins_obj_cons in H. revert p a p' H.
    apply Preserves_bind; [exact JoinStep_trans| |intros _; exact IHl].
    unfold addJoinsEntry.
    destruct (isLogicalKey key); [|apply JoinStep_addJoinsField].
    destruct value as [| | | | |items|]; try apply Preserves_throw.
    p_bind; [p_lift|].
    match goal with |- Preserves _ (if ?c then _ else _) => destruct c end;
      [p_ret|].
    clear IHl. induction items as [|x items IHi]; cbn [forEach].
    + p_ret.
    + apply Preserves_bind; [exact JoinStep_trans|apply IH|intros _; exact IHi].
Qed.

Lemma ClauseStep_applyFilterToQuery
      (E : Collaborators) (key operator : string) (compareValue : Value)
      (logical : Logical) :
  Preserves (ClauseStep logical)
    (applyFilterToQuery E key operator compareValue logical).
Proof.
  unfold applyFilterToQuery, applyValuelessOperator, applyValueOperator.
  preserves_step.
Qed.

Lemma ClauseStep_addWhereEntry
      (E : Collaborators) (schema : SchemaOverview) (subQuery : bool)
      (collection_ : string) (logical : Logical) (key : string) (value : Value) :
  Preserves (ClauseStep logical)
    (addWhereEntry E schema subQuery collection_ logical key value).
Proof.
  unfold addWhereEntry, addWhereGroup.
  destruct (isLogicalKey key).
  - preserves_step.
  - unfold addWhereField.
    p_bind; [p_lift|].
    match goal with |- Preserves _ (match ?x with _ => _ end) => destruct x end;
      [apply Preserves_throw|].
    p_bind; [p_lift|].
    match goal with |- Preserves _ (if ?c then _ else _) => destruct c end.
    + destruct (1 <? _)%nat; [|apply ClauseStep_applyFilterToQuery].
      p_bind; [p_get|]. p_bind; [p_lift|].
      match goal with |- Preserves _ (match ?x with _ => _ end) => destruct x end;
        [|p_ret].
      match goal with |- Preserves _ (if ?c then _ else _) => destruct c end;
        [p_ret|apply ClauseStep_applyFilterToQuery].
    + preserves_step.
Qed.

Lemma ClauseStep_addWhereClauses
      (E : Collaborators) (schema : SchemaOverview) (subQuery : bool)
      (filter_ : Value) (collection_ : string) (logical : Logical) :
  Preserves (ClauseStep logical)
    (addWhereClauses E schema subQuery filter_ collection_ logical).
Proof.
  unfold addWhereClauses. destruct (entries filter_); [|apply Preserves_throw].
  p_each. intros x _. apply ClauseStep_addWhereEntry.
Qed.

Lemma applyFilter_grows
  (E : Collaborators) (schema : SchemaOverview) (rootQuery : QueryBuilder)
  (rootFilter : Value) (collection_ : string) (subQuery : bool) (n n' : nat)
  (result : QueryBuilder) :
  applyFilter E schema rootQuery rootFilter collection_ subQuery n
  = Ok (result, n') ->
  exists joins_ clauses,
    result = withWheres clauses (withJoins joins_ rootQuery)
    /\ Forall (fun w => w_bool w = and_) clauses
    /\ n <= n'.
Proof.
  intros Hok. unfold applyFilter, applyFilterPass, bind in Hok.
  destruct (addJoins E schema subQuery rootFilter collection_ _)
    as [[[] p1]|e] eqn:HJ; [|discriminate Hok].
  destruct (addWhereClauses E schema subQuery rootFilter collection_ and_ p1)
    as [[[] p2]|e] eqn:HW; [|discriminate Hok].
  injection Hok as <- <-.
  destruct (@JoinStep_addJoins E schema subQuery rootFilter collection_ _ _ _ HJ)
    as [[js Hjs] Hle].
  destruct (@ClauseStep_addWhereClauses E schema subQuery rootFilter collection_
              and_ _ _ _ HW) as [ws [-> Hws]].
  exists js, ws. cbn [dbQuery drawn] in *. rewrite Hjs.
  split; [reflexivity|]. split; [exact Hws|exact Hle].
Qed.

(** X10.  When [applyFilter] returns, the builder is the one it was given
    with joins and clauses added at the end: nothing registered before is
    removed or changed, the selection, the table, the sort, the limit and
    the offset are untouched, every clause added at this level is
    conjunctive, and the count of draws has not gone down. *)
Theorem applyFilter_only_adds
  (E : Collaborators) (schema : SchemaOverview) (rootQuery : QueryBuilder)
  (rootFilter : Value) (collection_ : string) (subQuery : bool) (n n' : nat)
  (result : QueryBuilder)
  (Hok : applyFilter E schema rootQuery rootFilter collection_ subQuery n
         = Ok (result, n')) :
  exists joins_ clauses,
    result = withWheres clauses (withJoins joins_ rootQuery)
    /\ Forall (fun w => w_bool w = and_) clauses
    /\ n <= n'.
Proof. eapply applyFilter_grows. exact Hok. Qed.

Lemma applyFilter_only_adds_witness :
  exists joins_ clauses,
    addWhere {| w_bool := and_; w_method := where_;
                w_args := ArgObject "aaaaa.name" (VStr "Rijk") |}
      (leftJoin (LeftJoin "aaaaa" (Some "authors") "articles.author" "aaaaa.id")
         (Knex.limit (Some 5%Z) Knex.empty))
    = withWheres clauses (withJoins joins_ (Knex.limit (Some 5%Z) Knex.empty))
    /\ Forall (fun w => w_bool w = and_) clauses
    /\ 0 <= 1.
Proof.
  apply (@applyFilter_only_adds Fixture.collaborators Fixture.schema
           (Knex.limit (Some 5%Z) Knex.empty)
           (Fixture.nest "author" (Fixture.leaf "name" "_eq" (VStr "Rijk")))
           "articles" false 0 1).
  reflexivity.
Defined.

(** X11.  The callback of a logical group only adds clauses, all under the
    connective of the group, to the builder Knex hands it: no join, no
    draw. *)
Theorem runGroup_only_adds_clauses
  (E : Collaborators) (schema : SchemaOverview) (c : GroupClosure)
  (subQuery_ result : QueryBuilder) (n n' : nat)
  (Hok : runGroup E schema c subQuery_ n = Ok (result, n')) :
  exists clauses,
    result = withWheres clauses subQuery_
    /\ Forall (fun w => w_bool w = g_logical c) clauses
    /\ n' = n.
Proof.
  unfold runGroup in Hok.
  destruct (g_value c) as [| | | | |subFilters|]; try discriminate Hok.
  destruct (forEach _ subFilters _) as [[[] p]|e] eqn:H; [|discriminate Hok].
  injection Hok as <- <-.
  assert (HP : Preserves (ClauseStep (g_logical c))
                 (forEach (fun subFilter =>
                             addWhereClauses E schema (g_subQuery c) subFilter
                               (g_collection c) (g_logical c)) subFilters)).
  { p_each. intros x _. apply ClauseStep_addWhereClauses. }
  destruct (HP _ _ _ H) as [ws [-> Hws]].
  exists ws. repeat split. exact Hws.
Qed.

Lemma runGroup_only_adds_clauses_witness :
  exists clauses,
    addWhere {| w_bool := or_; w_method := whereNull;
                w_args := ArgColumn "articles.title" |}
      (addWhere {| w_bool := or_; w_method := where_;
                   w_args := ArgObject "articles.id" (VNum 1) |} Knex.empty)
    = withWheres clauses Knex.empty
    /\ Forall (fun w => w_bool w = or_) clauses
    /\ 3 = 3.
Proof.
  apply (@runGroup_only_adds_clauses Fixture.collaborators Fixture.schema
           {| g_value := VArr [Fixture.leaf "id" "_eq" (VNum 1);
                               Fixture.leaf "title" "_null" (VBool true)];
              g_collection := "articles"; g_logical := or_; g_subQuery := false;
              g_aliasMap := [] |}
           Knex.empty _ 3 3).
  reflexivity.
Defined.

(** ** The whole query *)

Lemma offset_frame (val : option Z) (b b' : QueryBuilder) :
  Knex.offset val b = Ok b' ->
  b_select b' = b_select b /\ b_from b' = b_from b /\ b_order b' = b_order b
  /\ b_limit b' = b_limit b /\ b_offset b' = offsetRead val (b_offset b)
  /\ b_joins b' = b_joins b /\ b_wheres b' = b_wheres b.
Proof.
  unfold Knex.offset. destruct val as [z|].
  - destruct (z <? 0)%Z; [discriminate|]. intros [= <-]. repeat split.
  - intros [= <-]. repeat split.
Qed.

Lemma parseInt10_number (E : Collaborators) (z : Z) :
  exists v, parseInt10 E (Some z) = Some v.
Proof.
  cbv beta iota delta [parseInt10].
  destruct (Z.abs z <? 10 ^ 21)%Z; eexists; reflexivity.
Qed.

(** X12.  When [applyQuery] returns, the selection and the table of the
    builder are untouched; the sort of the query is appended with every
    column qualified by the collection; the limit is the integer read from
    the one of the query when it has one; the offset is the integer read
    from [limit * (page - 1)] when page and limit are both non-zero, else
    the one read from the explicit offset; joins and conjunctive clauses
    are only added. *)
Theorem applyQuery_effects
  (E : Collaborators) (collection_ : string) (dbQuery_ : QueryBuilder)
  (query : Query) (schema : SchemaOverview) (subQuery : bool) (n n' : nat)
  (result : QueryBuilder)
  (Hok : applyQuery E collection_ dbQuery_ query schema subQuery n
         = Ok (result, n')) :
  b_select result = b_select dbQuery_
  /\ b_from result = b_from dbQuery_
  /\ b_order result = (b_order dbQuery_ ++ qualified collection_ query)%list
  /\ b_limit result = match limit query with
                      | Some l => parseInt10 E (Some l)
                      | None => b_limit dbQuery_
                      end
  /\ b_offset result = offsetAfter E query (b_offset dbQuery_)
  /\ (exists joins_, b_joins result = (b_joins dbQuery_ ++ joins_)%list)
  /\ (exists clauses,
        b_wheres result = (b_wheres dbQuery_ ++ clauses)%list
        /\ Forall (fun w => w_bool w = and_) clauses)
  /\ n <= n'.
Proof.
  unfold applyQuery in Hok.
  match type of Hok with
  | rbind (match offset query with
           | Some _ => _
           | None => Ok ?q
           end) _ = _ => set (q2 := q) in *
  end.
  assert (H2 : b_select q2 = b_select dbQuery_
               /\ b_from q2 = b_from dbQuery_
               /\ b_order q2 = (b_order dbQuery_ ++ qualified collection_ query)%list
               /\ b_limit q2 = match limit query with
                               | Some l => parseInt10 E (Some l)
                               | None => b_limit dbQuery_
                               end
               /\ b_offset q2 = b_offset dbQuery_
               /\ b_joins q2 = b_joins dbQuery_
               /\ b_wheres q2 = b_wheres dbQuery_).
  { subst q2. unfold qualified.
    destruct (sort query) as [items|], (limit query) as [l|];
      try (destruct (parseInt10_number E l) as [v ->]);
      cbn; rewrite ?app_nil_r; repeat split; reflexivity. }
  clearbody q2.
  destruct H2 as [Hs2 [Hf2 [Ho2 [Hl2 [Hoff2 [Hj2 Hw2]]]]]].
  destruct (match offset query with
            | Some o => if truthyNumber (Some o)
                        then Knex.offset (parseInt10 E (Some o)) q2
                        else Ok q2
            | None => Ok q2
            end) as [q3|e] eqn:H3; [|discriminate Hok].
  cbn [rbind] in Hok.
  destruct (match page query with
            | Some pg =>
                match limit query with
                | Some l =>
                    if truthyNumber (Some pg) && truthyNumber (Some l)
                    then Knex.offset
                           (parseInt10 E (numberTimes l (numberMinus pg 1))) q3
                    else Ok q3
                | None => Ok q3
                end
            | None => Ok q3
            end) as [q4|e] eqn:H4'; [|discriminate Hok].
  cbn [rbind] in Hok.
  assert (H4 : b_select q4 = b_select dbQuery_
               /\ b_from q4 = b_from dbQuery_
               /\ b_order q4 = (b_order dbQuery_ ++ qualified collection_ query)%list
               /\ b_limit q4 = match limit query with
                               | Some l => parseInt10 E (Some l)
                               | None => b_limit dbQuery_
                               end
               /\ b_offset q4 = offsetAfter E query (b_offset dbQuery_)
               /\ b_joins q4 = b_joins dbQuery_
               /\ b_wheres q4 = b_wheres dbQuery_).
  { assert (F3 : b_select q3 = b_select q2 /\ b_from q3 = b_from q2
                 /\ b_order q3 = b_order q2 /\ b_limit q3 = b_limit q2
                 /\ b_offset q3
                    = match offset query with
                      | Some o =>
                          if truthyNumber (Some o)
                          then offsetRead (parseInt10 E (Some o)) (b_offset q2)
                          else b_offset q2
                      | None => b_offset q2
                      end
                 /\ b_joins q3 = b_joins q2 /\ b_wheres q3 = b_wheres q2).
    { destruct (offset query) as [o|].
      - destruct (truthyNumber (Some o)).
        + apply offset_frame. exact H3.
        + injection H3 as <-. repeat split.
      - injection H3 as <-. repeat split. }
    assert (F4 : b_select q4 = b_select q3 /\ b_from q4 = b_from q3
                 /\ b_order q4 = b_order q3 /\ b_limit q4 = b_limit q3
                 /\ b_offset q4
                    = match page query, limit query with
                      | Some pg, Some l =>
                          if truthyNumber (Some pg) && truthyNumber (Some l)
                          then offsetRead
                                 (parseInt10 E (numberTimes l (numberMinus pg 1)))
                                 (b_offset q3)
                          else b_offset q3
                      | _, _ => b_offset q3
                      end
                 /\ b_joins q4 = b_joins q3 /\ b_wheres q4 = b_wheres q3).
    { destruct (page query) as [pg|]; [destruct (limit query) as [l|]|].
      - destruct (truthyNumber (Some pg) && truthyNumber (Some l)).
        + apply offset_frame. exact H4'.
        + injection H4' as <-. repeat split.
      - injection H4' as <-. repeat split.
      - injection H4' as <-. repeat split. }
    destruct F3 as [A1 [A2 [A3 [A4 [A5 [A6 A7]]]]]].
    destruct F4 as [B1 [B2 [B3 [B4 [B5 [B6 B7]]]]]].
    unfold offsetAfter.
    rewrite B1, B2, B3, B4, B5, B6, B7, A1, A2, A3, A4, A5, A6, A7, Hoff2.
    repeat split; assumption. }
  clear H3 H4' Hs2 Hf2 Ho2 Hl2 Hoff2 Hj2 Hw2. clear q2 q3.
  destruct H4 as [Hs [Hf [Ho [Hl [Hoff [Hj Hw]]]]]].
  assert (HF : exists q5 js ws,
             (if truthy (filter query)
              then applyFilter E schema q4 (filter query) collection_ subQuery n
              else Ok (q4, n)) = Ok (q5, n')
             /\ q5 = withWheres ws (withJoins js q4)
             /\ Forall (fun w => w_bool w = and_) ws /\ n <= n'
             /\ (result = q5
                 \/ exists w, w_bool w = and_ /\ result = addWhere w q5)).
  { destruct (if truthy (filter query)
              then applyFilter E schema q4 (filter query) collection_ subQuery n
              else Ok (q4, n)) as [[q5 n5]|e] eqn:Hfil; [|discriminate Hok].
    cbn [rbind fst snd] in Hok. injection Hok as Hres <-.
    assert (Hg : exists js ws,
               q5 = withWheres ws (withJoins js q4)
               /\ Forall (fun w => w_bool w = and_) ws /\ n <= n5).
    { destruct (truthy (filter query)).
      - eapply applyFilter_grows. exact Hfil.
      - injection Hfil as <- <-. exists [], []. rewrite withJoins_nil, withWheres_nil.
        repeat split; [constructor|apply Nat.le_refl]. }
    destruct Hg as [js [ws [Hq5 [Hall Hle]]]].
    exists q5, js, ws. repeat split; try assumption.
    destruct (search query) as [term|]; [|left; symmetry; exact Hres].
    destruct (String.eqb term ""); [left; symmetry; exact Hres|].
    unfold applySearch in Hres.
    destruct (findCollection collection_ (collections schema));
      [|left; symmetry; exact Hres].
    right. eexists. split; [|symmetry; exact Hres]. reflexivity. }
  destruct HF as [q5 [js [ws [_ [Hq5 [Hall [Hle Hres]]]]]]].
  assert (H5 : b_select q5 = b_select dbQuery_ /\ b_from q5 = b_from dbQuery_
               /\ b_order q5 = (b_order dbQuery_ ++ qualified collection_ query)%list
               /\ b_limit q5 = match limit query with
                               | Some l => parseInt10 E (Some l)
                               | None => b_limit dbQuery_
                               end
               /\ b_offset q5 = offsetAfter E query (b_offset dbQuery_)
               /\ b_joins q5 = (b_joins dbQuery_ ++ js)%list
               /\ b_wheres q5 = (b_wheres dbQuery_ ++ ws)%list).
  { rewrite Hq5. cbn. rewrite Hs, Hf, Ho, Hl, Hoff, Hj, Hw. repeat split. }
  destruct H5 as [Hs5 [Hf5 [Ho5 [Hl5 [Hoff5 [Hj5 Hw5]]]]]].
  destruct Hres as [-> | [w [Hwb ->]]].
  - repeat split; try assumption; [exists js; exact Hj5|].
    exists ws. split; assumption.
  - cbn. repeat split; try assumption; [exists js; exact Hj5|].
    exists (ws ++ [w])%list. rewrite Hw5, app_assoc. split; [reflexivity|].
    apply Forall_app. split; [exact Hall|]. constructor; [exact Hwb|constructor].
Qed.

Lemma applyQuery_effects_witness :
  match applyQuery Fixture.collaborators "articles" Knex.empty
          {| sort := Some [{| o_column := "title"; o_order := "asc" |}];
             limit := Some 10%Z; offset := Some 3%Z; page := Some 2%Z;
             filter := Fixture.leaf "title" "_contains" (VStr "x");
             search := Some "42" |}
          Fixture.schema false 0
  with
  | Ok (b, _) => b_order b
  | Throw _ => []
  end
  = [{| o_column := "articles.title"; o_order := "asc" |}].
Proof.
  destruct (applyQuery Fixture.collaborators "articles" Knex.empty
              {| sort := Some [{| o_column := "title"; o_order := "asc" |}];
                 limit := Some 10%Z; offset := Some 3%Z; page := Some 2%Z;
                 filter := Fixture.leaf "title" "_contains" (VStr "x");
                 search := Some "42" |}
              Fixture.schema false 0) as [[b n']|e] eqn:H.
  - exact (proj1 (proj2 (proj2 (applyQuery_effects _ _ _ _ _ _ _ H)))).
  - discriminate H.
Defined.

(** X13.  The callback of the search only adds clauses, all disjunctive,
    and at most one for each field of the collection. *)
Theorem runSearch_only_adds_disjuncts
  (E : Collaborators) (c : SearchClosure) (this : QueryBuilder) :
  exists clauses,
    runSearch E c this = withWheres clauses this
    /\ Forall (fun w => w_bool w = or_) clauses
    /\ List.length clauses <= List.length (q_fields c).
Proof.
  unfold runSearch. generalize (q_fields c) as fields_. clear.
  intros fields_. revert this.
  induction fields_ as [|nf tl IH]; intros this.
  - exists []. rewrite withWheres_nil. repeat split; [constructor|apply Nat.le_refl].
  - cbn [List.fold_left List.length].
    match goal with
    | |- exists _, List.fold_left ?f tl ?start = _ /\ _ =>
        destruct (IH start) as [ws [Heq [Hall Hlen]]];
        assert (Hstart : start = this
                         \/ exists w, w_bool w = or_ /\ start = addWhere w this)
    end.
    { destruct (memberOf (field_type (snd nf)) ["text"; "string"]).
      - right. eexists. split; [|reflexivity]. reflexivity.
      - destruct (memberOf (field_type (snd nf))
                    ["bigInteger"; "integer"; "decimal"; "float"]).
        + destruct (toNumber E (q_searchQuery c));
            [right; eexists; split; [|reflexivity]; reflexivity|left; reflexivity].
        + destruct (String.eqb (field_type (snd nf)) "uuid"
                    && validate E (q_searchQuery c));
            [right; eexists; split; [|reflexivity]; reflexivity|left; reflexivity]. }
    destruct Hstart as [Hs | [w [Hw Hs]]]; rewrite Heq, Hs.
    + exists ws. repeat split; [exact Hall|]. apply Nat.le_le_succ_r. exact Hlen.
    + exists (w :: ws). split; [|split].
      * unfold addWhere, withWheres. cbn. rewrite <- app_assoc. reflexivity.
      * constructor; assumption.
      * cbn. apply le_n_S. exact Hlen.
Qed.

(* ===================================================================== *)
(** * Further properties of [get-default-value.ts]                        *)
(* ===================================================================== *)

Lemma substring_whole (s : string) : String.substring 0 (String.length s) s = s.
Proof. induction s as [|c s IH]; simpl; [reflexivity|rewrite IH; reflexivity]. Qed.

Lemma substring_left (a b : string) :
  String.substring 0 (String.length a) (a ++ b) = a.
Proof.
  induction a as [|c a IH]; simpl.
  - destruct b; reflexivity.
  - rewrite IH. reflexivity.
Qed.

Lemma substring_right (a b : string) :
  String.substring (String.length a) (String.length b) (a ++ b) = b.
Proof.
  induction a as [|c a IH]; simpl; [apply substring_whole|exact IH].
Qed.

Lemma length_app (a b : string) :
  String.length (a ++ b) = String.length a + String.length b.
Proof. induction a as [|c a IH]; simpl; [reflexivity|rewrite IH; reflexivity]. Qed.

Lemma unquote_quoted (c : ascii) (s : string) :
  isQuoteChar c -> unquote (VStr (quotedWith c s)) = VStr s.
Proof.
  intros Hc. unfold unquote, quotedWith.
  assert (Hq : isQuoted (String c (s ++ String c "")) = true).
  { unfold isQuoted, startsWith, endsWith, dquote.
    assert (Hend : forall q : ascii,
              (String.length (String q "") <=? String.length (String c (s ++ String c "")))%nat
              && String.eqb
                   (String.substring
                      (String.length (String c (s ++ String c ""))
                       - String.length (String q ""))
                      (String.length (String q "")) (String c (s ++ String c "")))
                   (String q "")
              = String.eqb (String c "") (String q "")).
    { intros q. cbn [String.length]. rewrite length_app. cbn [String.length].
      replace (S (String.length s + 1) - 1) with (S (String.length s)) by lia.
      cbn [Nat.leb String.substring andb].
      pose proof (substring_right s (String c "")) as Hr.
      cbn [String.length] in Hr. rewrite Hr. reflexivity. }
    rewrite !Hend.
    assert (Hstart : String.prefix (String c "") (String c (s ++ String c "")) = true).
    { apply String.prefix_correct. cbn. destruct (s ++ String c ""); reflexivity. }
    destruct Hc as [-> | ->].
    - rewrite Hstart. reflexivity.
    - match goal with |- ?x || _ = true => destruct x end; [reflexivity|].
      rewrite Hstart. reflexivity. }
  rewrite Hq. f_equal. unfold slice_1_m1. cbn [String.length].
  rewrite length_app. cbn [String.length].
  replace (S (String.length s + 1) - 2) with (String.length s) by lia.
  cbn [String.substring]. apply substring_left.
Qed.

(** X14.  A default wrapped in a pair of single or double quotes, as SQLite
    reports it, loses exactly that pair: on a column that is neither
    numeric nor boolean, [getDefaultValue] returns the text between the
    quotes, also when that text is [null]. *)
Theorem getDefaultValue_strips_one_pair_of_quotes
  (E : Collaborators) (Column : Type) (default_value : Column -> Value)
  (getLocalType : Column -> string) (column : Column) (c : ascii) (s : string)
  (Hquote : isQuoteChar c)
  (Htype : memberOf (getLocalType column) numericTypes = false
           /\ getLocalType column <> "boolean")
  (Hdefault : default_value column = VStr (quotedWith c s)) :
  getDefaultValue E default_value getLocalType column = VStr s.
Proof.
  destruct Htype as [Hnum Hbool]. unfold getDefaultValue. rewrite Hdefault.
  unfold numericTypes in Hnum. rewrite Hnum.
  apply String.eqb_neq in Hbool. rewrite Hbool.
  assert (Hn : isString "null" (VStr (quotedWith c s)) = false
               /\ isString "NULL" (VStr (quotedWith c s)) = false).
  { destruct Hquote as [-> | ->]; split; reflexivity. }
  destruct Hn as [Hn1 Hn2]. cbn [isNull]. rewrite Hn1, Hn2.
  apply unquote_quoted. exact Hquote.
Qed.

Lemma getDefaultValue_strips_one_pair_of_quotes_witness :
  getDefaultValue Fixture.collaborators (fun c : Value => c) (fun _ => "string")
    (VStr "'null'")
  = VStr "null".
Proof.
  apply (@getDefaultValue_strips_one_pair_of_quotes Fixture.collaborators Value
           (fun c => c) (fun _ => "string") (VStr "'null'") "'"%char "null").
  - left. reflexivity.
  - split; [reflexivity|discriminate].
  - reflexivity.
Defined.

Lemma cast_by_type (E : Collaborators) (type : string) (v : Value) :
  let r := if memberOf type numericTypes then
             match numberOf E v with
             | Some number => VNum number
             | None => v
             end
           else if String.eqb type "boolean" then VBool (castToBoolean v)
           else v in
  (type = "boolean" /\ exists b, r = VBool b)
  \/ (memberOf type numericTypes = true /\ exists z, r = VNum z)
  \/ ((memberOf type numericTypes = true -> numberOf E v = None)
      /\ type <> "boolean" /\ r = v).
Proof.
  intros r. subst r.
  destruct (memberOf type numericTypes) eqn:Hnum.
  - destruct (numberOf E v) as [number|] eqn:Hn.
    + right. left. split; [reflexivity|]. exists number. reflexivity.
    + right. right. split; [intros _; reflexivity|]. split; [|reflexivity].
      intros ->. discriminate Hnum.
  - destruct (String.eqb_spec type "boolean") as [->|Hb].
    + left. split; [reflexivity|]. eexists. reflexivity.
    + right. right. split; [intros H; discriminate H|]. split; [exact Hb|reflexivity].
Qed.

(** X15.  What [getDefaultValue] can return: [null]; on a boolean column a
    boolean; on a numeric column a number; and in every other case the
    default of the column with its pair of quotes stripped. *)
Theorem getDefaultValue_result
  (E : Collaborators) (Column : Type) (default_value : Column -> Value)
  (getLocalType : Column -> string) (column : Column) :
  let result := getDefaultValue E default_value getLocalType column in
  result = VNull
  \/ (getLocalType column = "boolean" /\ exists b, result = VBool b)
  \/ (memberOf (getLocalType column) numericTypes = true
      /\ exists z, result = VNum z)
  \/ ((memberOf (getLocalType column) numericTypes = true
       -> numberOf E (unquote (default_value column)) = None)
      /\ getLocalType column <> "boolean"
      /\ result = unquote (default_value column)).
Proof.
  intros result. subst result. unfold getDefaultValue.
  change ["bigInteger"; "integer"; "decimal"; "float"] with numericTypes.
  destruct (default_value column) as [| |b|z|s|items|props] eqn:Hd;
    cbn [isNull isString]; try (left; reflexivity).
  3: destruct (String.eqb s "null"); [left; reflexivity|];
     destruct (String.eqb s "NULL"); [left; reflexivity|].
  all: right; apply cast_by_type.
Qed.

(* ===================================================================== *)
(** * Further properties of the payload service: [processO2M]             *)
(* ===================================================================== *)

Lemma filter_none (A : Type) (f : A -> bool) (l : list A) :
  (forall x, In x l -> f x = false) -> List.filter f l = [].
Proof.
  induction l as [|x l IH]; intros H; [reflexivity|].
  cbn [List.filter]. rewrite (H x (or_introl eq_refl)).
  apply IH. intros y Hy. apply H. right. exact Hy.
Qed.

Section ProcessO2MFurther.

Variable W : Type.
Variable D : DataLayer W.
Variable this_collection : string.
Variable this_schema : SchemaOverview.

(** A relation the loop skips leaves the database alone. *)
Lemma processRelation_falsy (payload : list (string * Value)) (parent : Value)
      (relation : Relation) (m : RelationMeta) (f : string) (w : W) :
  meta relation = Some m -> one_field m = Some f ->
  truthy (lookup f payload) = false ->
  processRelation D this_schema payload parent relation w = Ok ([], w).
Proof.
  intros Hm Hf Hv. unfold processRelation. rewrite Hm, Hf, Hv. reflexivity.
Qed.

Lemma processRelations_falsy (payload : list (string * Value)) (parent : Value)
      (rels : list Relation) (w : W) :
  (forall relation, In relation rels ->
     exists m f, meta relation = Some m /\ one_field m = Some f
                 /\ truthy (lookup f payload) = false) ->
  processRelations D this_schema payload parent rels w = Ok ([], w).
Proof.
  induction rels as [|relation rels IH]; intros H; [reflexivity|].
  cbn [processRelations]. unfold bind.
  destruct (H relation (or_introl eq_refl)) as [m [f [Hm [Hf Hv]]]].
  erewrite processRelation_falsy by eassumption.
  rewrite IH; [reflexivity|]. intros r Hr. apply H. right. exact Hr.
Qed.

(** What the filter of [processO2M] lets through names its field. *)
Lemma relationsToProcess_named (payload : list (string * Value)) (relation : Relation) :
  In relation (relationsToProcess this_collection this_schema payload) ->
  exists m f, meta relation = Some m /\ one_field m = Some f
              /\ hasKey f payload = true.
Proof.
  unfold relationsToProcess. intros H. apply filter_In in H. destruct H as [_ H].
  destruct (meta relation) as [m|]; [|discriminate].
  destruct (one_field m) as [f|] eqn:Hf; [|discriminate].
  destruct (String.eqb f ""); [discriminate|].
  exists m, f. split; [reflexivity|]. split; [exact Hf|exact H].
Qed.

(** The loop over the items: every record it queues carries the owner, and
    every item is either queued or saved. *)
Lemma processItems_accumulates (w : W) (relation : Relation)
      (payload : list (string * Value)) (parent : Value) (cur rel : string)
      (items : list Value) :
  forall acc acc',
    processItems D w relation payload parent cur rel acc items = Ok acc' ->
    (Forall (fun record => prop record (field relation)
                           = orElse parent (lookup cur payload)) (fst acc) ->
     Forall (fun record => prop record (field relation)
                           = orElse parent (lookup cur payload)) (fst acc'))
    /\ (List.length (fst acc') + List.length (snd acc')
        = List.length (fst acc) + List.length (snd acc) + List.length items)%nat.
Proof.
  induction items as [|item items IH]; intros acc acc' H.
  - cbn [processItems] in H. injection H as <-. split; [tauto|cbn [List.length]; lia].
  - cbn [processItems] in H.
    destruct (processItem D w relation payload parent cur rel acc item)
      as [acc1|e] eqn:Hitem; [|discriminate H].
    cbn [rbind] in H. destruct (IH _ _ H) as [Hall Hlen].
    assert (Hone :
      (Forall (fun record => prop record (field relation)
                             = orElse parent (lookup cur payload)) (fst acc) ->
       Forall (fun record => prop record (field relation)
                             = orElse parent (lookup cur payload)) (fst acc1))
      /\ (List.length (fst acc1) + List.length (snd acc1)
          = List.length (fst acc) + List.length (snd acc) + 1)%nat).
    { unfold processItem in Hitem.
      assert (Hpush : forall record,
        Forall (fun record => prop record (field relation)
                              = orElse parent (lookup cur payload)) (fst acc) ->
        Forall (fun record => prop record (field relation)
                              = orElse parent (lookup cur payload))
               (fst acc ++ [spreadWith record (field relation)
                              (orElse parent (lookup cur payload))])%list).
      { intros record Hacc. apply Forall_app. split; [exact Hacc|].
        constructor; [|constructor]. unfold spreadWith, prop.
        apply lookup_assign_same. }
      destruct (isStringOrNumber item).
      - destruct (selectFirst D w (collection relation) rel item) as [existing|];
          [|discriminate Hitem].
        destruct (negb _ && _); injection Hitem as <-; cbn [fst snd].
        + split; [tauto|]. rewrite List.length_app. cbn [List.length]. lia.
        + split; [apply Hpush|]. rewrite List.length_app. cbn [List.length]. lia.
      - injection Hitem as <-; cbn [fst snd].
        split; [apply Hpush|]. rewrite List.length_app. cbn [List.length]. lia. }
    destruct Hone as [Hall1 Hlen1]. split; [tauto|].
    cbn [List.length]. lia.
Qed.

(** Bare keys whose records are already linked to the parent are saved as
    they are. *)
Lemma processItems_linked (w : W) (relation : Relation)
      (payload : list (string * Value)) (parent : Value) (cur rel : string)
      (items : list Value) :
  Forall (fun item =>
            isStringOrNumber item = true
            /\ exists existing,
                 selectFirst D w (collection relation) rel item = Some existing
                 /\ isNil (lookup (field relation) existing) = false
                 /\ looseEq D (lookup (field relation) existing) parent = true)
         items ->
  forall acc,
    exists saved,
      processItems D w relation payload parent cur rel acc items
      = Ok (fst acc, (snd acc ++ saved)%list)
      /\ List.length saved = List.length items.
Proof.
  induction 1 as [|item items [Hbare [existing [Hsel [Hnil Heq]]]] _ IH]; intros acc.
  - exists []. rewrite app_nil_r. destruct acc. split; reflexivity.
  - cbn [processItems]. unfold processItem. rewrite Hbare, Hsel, Hnil, Heq.
    cbn [negb andb orb rbind fst snd].
    destruct (IH (fst acc, (snd acc ++ [lookup rel existing])%list))
      as [saved [Hrun Hlen]].
    exists (lookup rel existing :: saved). split.
    + rewrite Hrun. cbn [fst snd]. rewrite <- app_assoc. reflexivity.
    + cbn [List.length]. rewrite Hlen. reflexivity.
Qed.

End ProcessO2MFurther.

(** X16.  [processO2M] does nothing, and leaves the database as it is, when
    every one-to-many field the payload names holds a falsy value ([null],
    [undefined], [0], [false] or the empty string), and so also when the
    payload names none. *)
Theorem processO2M_nothing_nested
  (W : Type) (D : DataLayer W) (this_collection : string)
  (this_schema : SchemaOverview) (data : list (string * Value)) (parent : Value)
  (w : W)
  (Hfalsy : forall relation m f,
      In relation (relationsToProcess this_collection this_schema data) ->
      meta relation = Some m -> one_field m = Some f ->
      truthy (lookup f data) = false) :
  processO2M D this_collection this_schema data parent w = Ok ([], w).
Proof.
  unfold processO2M. apply processRelations_falsy.
  intros relation Hin.
  destruct (relationsToProcess_named this_collection this_schema data relation Hin)
    as [m [f [Hm [Hf _]]]].
  exists m, f. split; [exact Hm|]. split; [exact Hf|].
  exact (Hfalsy relation m f Hin Hm Hf).
Qed.

(** [{name: "Rijk", articles: null}] on [authors]. *)
Lemma processO2M_nothing_nested_witness :
  processO2M Fixture.dataLayer "authors" Fixture.schema
    [("name", VStr "Rijk"); ("articles", VNull)] (VNum 7) Fixture.world
  = Ok ([], Fixture.world).
Proof.
  apply (@processO2M_nothing_nested Fixture.World Fixture.dataLayer "authors"
           Fixture.schema [("name", VStr "Rijk"); ("articles", VNull)] (VNum 7)
           Fixture.world).
  intros relation m f Hin. vm_compute in Hin.
  destruct Hin as [<-|[]]. intros [= <-] [= <-]. reflexivity.
Defined.

(** X17.  In the loop of [processO2M] over a nested array, every record
    queued for [upsertMany] has the foreign key set to
    [parent || payload[currentPrimaryKeyField]], whatever it held before,
    and every item of the array is either queued or counted as saved. *)
Theorem processItems_links_every_record
  (W : Type) (D : DataLayer W) (w : W) (relation : Relation)
  (payload : list (string * Value)) (parent : Value)
  (currentPrimaryKeyField relatedPrimaryKeyField : string)
  (items recordsToUpsert savedPrimaryKeys : list Value)
  (Hrun : processItems D w relation payload parent currentPrimaryKeyField
            relatedPrimaryKeyField ([], []) items
          = Ok (recordsToUpsert, savedPrimaryKeys)) :
  Forall (fun record =>
            prop record (field relation)
            = orElse parent (lookup currentPrimaryKeyField payload))
         recordsToUpsert
  /\ (List.length recordsToUpsert + List.length savedPrimaryKeys
      = List.length items)%nat.
Proof.
  destruct (processItems_accumulates D w relation payload parent
              currentPrimaryKeyField relatedPrimaryKeyField items _ Hrun)
    as [Hall Hlen].
  cbn [fst snd List.length] in *. split; [apply Hall; constructor|exact Hlen].
Qed.

(** Article 1 is already linked to author 7; the nested object claims
    another author and is linked to 7 all the same. *)
Lemma processItems_links_every_record_witness :
  Forall (fun record => prop record "author" = VNum 7)
         [VObj [("title", VStr "second"); ("author", VNum 7)]]
  /\ (1 + 1 = 2)%nat.
Proof.
  exact (@processItems_links_every_record Fixture.World Fixture.dataLayer
           Fixture.world Nested.authorOfArticle [("id", VNum 7)] (VNum 7) "id" "id"
           [VNum 1; VObj [("title", VStr "second"); ("author", VNum 9)]]
           [VObj [("title", VStr "second"); ("author", VNum 7)]]
           [VNum 1] eq_refl).
Defined.

(** X18.  Bare keys whose records exist and are already linked to the
    parent are not queued for [upsertMany]: the loop queues nothing and
    saves one primary key for each. *)
Theorem processItems_skips_linked_keys
  (W : Type) (D : DataLayer W) (w : W) (relation : Relation)
  (payload : list (string * Value)) (parent : Value)
  (currentPrimaryKeyField relatedPrimaryKeyField : string) (items : list Value)
  (Hlinked : Forall (fun item =>
       isStringOrNumber item = true
       /\ exists existing,
            selectFirst D w (collection relation) relatedPrimaryKeyField item
            = Some existing
            /\ isNil (lookup (field relation) existing) = false
            /\ looseEq D (lookup (field relation) existing) parent = true)
     items) :
  exists savedPrimaryKeys,
    processItems D w relation payload parent currentPrimaryKeyField
      relatedPrimaryKeyField ([], []) items
    = Ok ([], savedPrimaryKeys)
    /\ List.length savedPrimaryKeys = List.length items.
Proof.
  destruct (@processItems_linked W D w relation payload parent
              currentPrimaryKeyField relatedPrimaryKeyField items
              Hlinked ([], [])) as [saved [Hrun Hlen]].
  exists saved. split; [exact Hrun|exact Hlen].
Qed.

(** [articles: [1]] under author 7, who wrote article 1. *)
Lemma processItems_skips_linked_keys_witness :
  exists savedPrimaryKeys,
    processItems Fixture.dataLayer Fixture.world Nested.authorOfArticle
      [("id", VNum 7)] (VNum 7) "id" "id" ([], []) [VNum 1]
    = Ok ([], savedPrimaryKeys)
    /\ List.length savedPrimaryKeys = 1%nat.
Proof.
  apply (@processItems_skips_linked_keys Fixture.World Fixture.dataLayer
           Fixture.world Nested.authorOfArticle [("id", VNum 7)] (VNum 7)
           "id" "id" [VNum 1]).
  constructor; [|constructor]. split; [reflexivity|].
  exists [("id", VNum 1); ("title", VStr "first"); ("author", VNum 7)].
  repeat split; reflexivity.
Defined.

(** X19.  When the value of a one-to-many field is truthy, not an array,
    and rejected by the validation of the alterations, [processO2M]
    throws InvalidPayload with the message of the validation after
    [Invalid one-to-many update structure: ] (the relations processed
    before having returned, and both primary key fields being known). *)
Theorem processO2M_invalid_alterations
  (W : Type) (D : DataLayer W) (this_collection : string)
  (this_schema : SchemaOverview) (data : list (string * Value)) (parent : Value)
  (pre post : list Relation) (relation : Relation) (m : RelationMeta)
  (one : string) (message : string)
  (currentPrimaryKeyField relatedPrimaryKeyField : string)
  (w0 w : W) (revisions : list Value)
  (Hsplit : relationsToProcess this_collection this_schema data
            = (pre ++ relation :: post)%list)
  (Hpre : processRelations D this_schema data parent pre w0 = Ok (revisions, w))
  (Hmeta : meta relation = Some m)
  (Hone : one_field m = Some one)
  (Htruthy : truthy (lookup one data) = true)
  (Hshape : forall items, lookup one data <> VArr items)
  (Hcurrent : relatedPrimaryOf this_schema relation = Ok currentPrimaryKeyField)
  (Hrelated : primaryOf this_schema (collection relation) = Ok relatedPrimaryKeyField)
  (Hinvalid : validateAlterations D (lookup one data) = Some message) :
  processO2M D this_collection this_schema data parent w0
  = Throw (InvalidPayloadException
             ("Invalid one-to-many update structure: " ++ message)).
Proof.
  unfold processO2M. rewrite Hsplit.
  erewrite processRelations_app by exact Hpre.
  cbn [processRelations]. unfold bind at 1.
  assert (HR : processRelation D this_schema data parent relation w
               = Throw (InvalidPayloadException
                          ("Invalid one-to-many update structure: " ++ message))).
  { unfold processRelation. rewrite Hmeta, Hone, Htruthy. cbn [negb].
    unfold bind, lift. rewrite Hcurrent, Hrelated.
    destruct (lookup one data) as [| |b|z|s|items|props] eqn:Hv;
      try (rewrite Hinvalid; reflexivity).
    exfalso. exact (Hshape items eq_refl). }
  rewrite HR. reflexivity.
Qed.

(** [{articles: "1,2"}] on [authors]: a string is not an alterations
    object. *)
Lemma processO2M_invalid_alterations_witness :
  processO2M Nested.validating "authors" Fixture.schema
    [("articles", VStr "1,2")] (VNum 7) Fixture.world
  = Throw (InvalidPayloadException
             "Invalid one-to-many update structure: value must be of type object").
Proof.
  refine (@processO2M_invalid_alterations Fixture.World Nested.validating
            "authors" Fixture.schema [("articles", VStr "1,2")] (VNum 7)
            [] [] Nested.authorOfArticle
            {| one_field := Some "articles";
               one_collection_field := None;
               one_allowed_collections := None;
               one_deselect_action := None |}
            "articles" "value must be of type object" "id" "id"
            Fixture.world Fixture.world []
            _ _ _ _ _ _ _ _ _); try reflexivity.
  intros items; discriminate.
Defined.

(* ===================================================================== *)
(** * Further properties of the payload service: [processM2O], [processA2O] *)
(* ===================================================================== *)

Lemma assign_keys (k : string) (v : Value) (props : list (string * Value)) :
  hasKey k props = true -> sameKeys (assign k v props) props.
Proof.
  unfold sameKeys. induction props as [|[k' w] tl IH]; cbn [hasKey assign].
  - discriminate.
  - destruct (String.eqb k' k); cbn [orb List.map fst]; intros H; [reflexivity|].
    rewrite (IH H). reflexivity.
Qed.

Lemma hasKey_sameKeys (k : string) (a b : list (string * Value)) :
  sameKeys a b -> hasKey k a = hasKey k b.
Proof.
  unfold sameKeys. revert b. induction a as [|[ka va] a IH]; intros [|[kb vb] b] H;
    try discriminate H; [reflexivity|].
  cbn [List.map fst] in H. injection H as -> H. cbn [hasKey].
  rewrite (IH b H). reflexivity.
Qed.

Lemma isPlainObject_isObject (v : Value) :
  isObject v = false -> isPlainObject v = false.
Proof. destruct v; cbn; congruence. Qed.

Section NestedSingleProperties.

Variable W : Type.
Variable D : DataLayer W.
Variable S1 : SingleWrites W.
Variable this_collection : string.
Variable this_schema : SchemaOverview.

Lemma saveNested_keptOrAssigned (payload : list (string * Value)) (relation : Relation)
      (related pk : string) (w w' : W) (payload' : list (string * Value))
      (revs : list Value) :
  saveNested D S1 payload relation related pk w = Ok ((payload', revs), w') ->
  keptOrAssigned relation payload payload'.
Proof.
  unfold saveNested, keptOrAssigned.
  destruct (isStringOrNumber (lookup (field relation) payload)).
  { intros [= <- _ _]. left. reflexivity. }
  destruct (isObject (lookup (field relation) payload)); cbn [negb];
    [|discriminate].
  unfold bind, getState.
  destruct (hasKey pk _ && isSome _).
  - destruct (0 <? _)%nat.
    + destruct (updateOne D related _ _ w) as [[r w1]|e]; [|discriminate].
      intros [= <- _ _]. right. eexists. reflexivity.
    + intros [= <- _ _]. right. eexists. reflexivity.
  - destruct (createOne S1 related _ w) as [[r w1]|e]; [|discriminate].
    intros [= <- _ _]. right. eexists. reflexivity.
Qed.

Lemma processM2ORelation_keptOrAssigned (payload : list (string * Value))
      (relation : Relation) (w w' : W) (payload' : list (string * Value))
      (revs : list Value) :
  processM2ORelation D S1 this_schema payload relation w = Ok ((payload', revs), w') ->
  keptOrAssigned relation payload payload'.
Proof.
  unfold processM2ORelation.
  destruct (related_collection relation) as [related|];
    [|intros [= <- _ _]; left; reflexivity].
  destruct (String.eqb related ""); [intros [= <- _ _]; left; reflexivity|].
  unfold bind, lift. destruct (primaryOf this_schema related) as [pk|e];
    [|discriminate].
  apply saveNested_keptOrAssigned.
Qed.

Lemma processA2ORelation_keptOrAssigned (payload : list (string * Value))
      (relation : Relation) (w w' : W) (payload' : list (string * Value))
      (revs : list Value) :
  processA2ORelation D S1 this_schema payload relation w = Ok ((payload', revs), w') ->
  keptOrAssigned relation payload payload'.
Proof.
  unfold processA2ORelation.
  destruct (meta relation) as [m|]; [|intros [= <- _ _]; left; reflexivity].
  destruct (one_collection_field m) as [cf|];
    [|intros [= <- _ _]; left; reflexivity].
  destruct (one_allowed_collections m) as [allowed|];
    [|intros [= <- _ _]; left; reflexivity].
  destruct (String.eqb cf ""); [intros [= <- _ _]; left; reflexivity|].
  destruct (negb (truthy _)); [discriminate|].
  destruct (negb (includesValue _ _)); [discriminate|].
  unfold bind, lift. destruct (primaryOf this_schema _) as [pk|e]; [|discriminate].
  apply saveNested_keptOrAssigned.
Qed.

(** A loop whose steps keep the payload or assign the field of their
    relation, over relations whose fields are keys of the payload, keeps
    the keys and every other field. *)
Lemma overRelations_fields
      (body : list (string * Value) -> Relation ->
              M W (list (string * Value) * list Value))
      (Hbody : forall payload relation w payload' revs w',
          body payload relation w = Ok ((payload', revs), w') ->
          keptOrAssigned relation payload payload')
      (rels : list Relation) :
  forall payload w payload' revs w',
    (forall relation, In relation rels -> hasKey (field relation) payload = true) ->
    overRelations body payload rels w = Ok ((payload', revs), w') ->
    sameKeys payload' payload
    /\ forall key, (forall relation, In relation rels -> field relation <> key) ->
                   lookup key payload' = lookup key payload.
Proof.
  induction rels as [|relation rels IH]; intros payload w payload' revs w' Hkeys H.
  - cbn [overRelations] in H. injection H as <- _ _. split; reflexivity.
  - cbn [overRelations] in H. unfold bind in H.
    destruct (body payload relation w) as [[[p1 r1] w1]|e] eqn:Hstep; [|discriminate H].
    cbn [fst snd] in H.
    destruct (overRelations body p1 rels w1) as [[[p2 r2] w2]|e] eqn:Hrest;
      [|discriminate H].
    injection H as <- _ _. cbn [fst].
    assert (Hp1 : sameKeys p1 payload
                  /\ forall key, field relation <> key ->
                                 lookup key p1 = lookup key payload).
    { destruct (Hbody _ _ _ _ _ _ Hstep) as [->|[v ->]].
      - split; reflexivity.
      - split.
        + apply assign_keys. apply Hkeys. left. reflexivity.
        + intros key Hne. apply lookup_assign_other. congruence. }
    destruct Hp1 as [Hsame1 Hother1].
    destruct (IH p1 w1 p2 r2 w2) as [Hsame2 Hother2].
    + intros r Hr. rewrite (hasKey_sameKeys (field r) Hsame1).
      apply Hkeys. right. exact Hr.
    + exact Hrest.
    + split.
      * unfold sameKeys in *. congruence.
      * intros key Hne. rewrite Hother2.
        -- apply Hother1. apply Hne. left. reflexivity.
        -- intros r Hr. apply Hne. right. exact Hr.
Qed.

Lemma overRelations_app
      (body : list (string * Value) -> Relation ->
              M W (list (string * Value) * list Value))
      (pre post : list Relation) :
  forall payload w p1 r1 w1,
    overRelations body payload pre w = Ok ((p1, r1), w1) ->
    overRelations body payload (pre ++ post) w
    = match overRelations body p1 post w1 with
      | Ok ((p2, r2), w2) => Ok ((p2, (r1 ++ r2)%list), w2)
      | Throw e => Throw e
      end.
Proof.
  induction pre as [|relation pre IH]; intros payload w p1 r1 w1 H.
  - cbn [overRelations] in H. injection H as <- <- <-. cbn [app].
    destruct (overRelations body payload post w) as [[[p2 r2] w2]|e]; reflexivity.
  - cbn [app overRelations] in *. unfold bind in *.
    destruct (body payload relation w) as [[[pa ra] wa]|e]; [|discriminate H].
    cbn [fst snd] in *.
    destruct (overRelations body pa pre wa) as [[[pb rb] wb]|e] eqn:Hpre;
      [|discriminate H].
    injection H as <- <- <-. cbn [fst snd].
    rewrite (IH _ _ _ _ _ Hpre).
    destruct (overRelations body pb post wb) as [[[p2 r2] w2]|e]; [|reflexivity].
    unfold ret. cbn [fst snd]. rewrite app_assoc. reflexivity.
Qed.

(** What the filters let through belongs to the collection and holds an
    object under a key of the payload. *)
Lemma m2oRelationsToProcess_In (payload : list (string * Value)) (relation : Relation) :
  In relation (m2oRelationsToProcess this_collection this_schema payload) ->
  In relation (relations this_schema)
  /\ String.eqb (collection relation) this_collection = true
  /\ hasKey (field relation) payload = true
  /\ isObject (lookup (field relation) payload) = true.
Proof.
  unfold m2oRelationsToProcess. intros H.
  apply filter_In in H. destruct H as [H Hobj].
  apply filter_In in H. destruct H as [Hin Hcoll].
  apply andb_true_iff in Hobj. tauto.
Qed.

Lemma a2oRelationsToProcess_In (payload : list (string * Value)) (relation : Relation) :
  In relation (a2oRelationsToProcess this_collection this_schema payload) ->
  In relation (relations this_schema)
  /\ String.eqb (collection relation) this_collection = true
  /\ hasKey (field relation) payload = true
  /\ isPlainObject (lookup (field relation) payload) = true.
Proof.
  unfold a2oRelationsToProcess. intros H.
  apply filter_In in H. destruct H as [H Hobj].
  apply filter_In in H. destruct H as [Hin Hcoll].
  apply andb_true_iff in Hobj. tauto.
Qed.

Lemma relationalField_false (key : string) (relation : Relation) :
  relationalField this_schema this_collection key = false ->
  In relation (relations this_schema) ->
  String.eqb (collection relation) this_collection = true ->
  field relation <> key.
Proof.
  unfold relationalField. intros Hno Hin Hcoll Heq.
  assert (Hyes : List.existsb
            (fun relation =>
               String.eqb (collection relation) this_collection
               && String.eqb (field relation) key)
            (relations this_schema) = true).
  { apply existsb_exists. exists relation. split; [exact Hin|].
    rewrite Hcoll, Heq, String.eqb_refl. reflexivity. }
  congruence.
Qed.

End NestedSingleProperties.

(** X20.  When no relation of the collection holds an object in the
    payload, [processM2O] and [processA2O] return the payload as it is,
    with no revision, and leave the database alone. *)
Theorem nested_single_nothing_to_process
  (W : Type) (D : DataLayer W) (S1 : SingleWrites W) (this_collection : string)
  (this_schema : SchemaOverview) (data : list (string * Value)) (w : W)
  (Hplain : forall relation,
      In relation (relations this_schema) ->
      collection relation = this_collection ->
      isObject (lookup (field relation) data) = false) :
  processM2O D S1 this_collection this_schema data w = Ok ((data, []), w)
  /\ processA2O D S1 this_collection this_schema data w = Ok ((data, []), w).
Proof.
  unfold processM2O, processA2O, m2oRelationsToProcess, a2oRelationsToProcess.
  rewrite !filter_none; [split; reflexivity| |].
  - intros relation Hin. apply filter_In in Hin. destruct Hin as [Hin Hcoll].
    apply String.eqb_eq in Hcoll.
    rewrite (isPlainObject_isObject _ (Hplain relation Hin Hcoll)).
    apply andb_false_r.
  - intros relation Hin. apply filter_In in Hin. destruct Hin as [Hin Hcoll].
    apply String.eqb_eq in Hcoll.
    rewrite (Hplain relation Hin Hcoll). apply andb_false_r.
Qed.

(** [{title: "t", author: 7}] on [articles]: the author is a key. *)
Lemma nested_single_nothing_to_process_witness :
  processM2O Fixture.dataLayer Nested.singleWrites "articles" Fixture.schema
    [("title", VStr "t"); ("author", VNum 7)] Fixture.world
  = Ok (([("title", VStr "t"); ("author", VNum 7)], []), Fixture.world)
  /\ processA2O Fixture.dataLayer Nested.singleWrites "articles" Fixture.schema
       [("title", VStr "t"); ("author", VNum 7)] Fixture.world
     = Ok (([("title", VStr "t"); ("author", VNum 7)], []), Fixture.world).
Proof.
  apply (@nested_single_nothing_to_process Fixture.World Fixture.dataLayer
           Nested.singleWrites "articles" Fixture.schema
           [("title", VStr "t"); ("author", VNum 7)] Fixture.world).
  intros relation Hin. vm_compute in Hin.
  destruct Hin as [<-|[<-|[<-|[]]]]; intros _; reflexivity.
Defined.

(** X21.  When [processM2O] returns, the payload has the keys of the data
    in the same order, and every field that is not a relation of the
    collection, or did not hold an object, holds what it held. *)
Theorem processM2O_rewrites_nested_objects_only
  (W : Type) (D : DataLayer W) (S1 : SingleWrites W) (this_collection : string)
  (this_schema : SchemaOverview) (data payload : list (string * Value))
  (revisions : list Value) (w w' : W)
  (Hrun : processM2O D S1 this_collection this_schema data w
          = Ok ((payload, revisions), w')) :
  sameKeys payload data
  /\ forall key,
       relationalField this_schema this_collection key = false
       \/ isObject (lookup key data) = false ->
       lookup key payload = lookup key data.
Proof.
  unfold processM2O in Hrun.
  assert (Hbody : forall p r s p' revs s',
            processM2ORelation D S1 this_schema p r s = Ok ((p', revs), s') ->
            keptOrAssigned r p p')
    by (intros; eapply processM2ORelation_keptOrAssigned; eassumption).
  assert (Hkeys : forall relation,
            In relation (m2oRelationsToProcess this_collection this_schema data) ->
            hasKey (field relation) data = true)
    by (intros relation Hin; apply m2oRelationsToProcess_In in Hin; tauto).
  destruct (@overRelations_fields W (processM2ORelation D S1 this_schema) Hbody
              (m2oRelationsToProcess this_collection this_schema data)
              data w payload revisions w' Hkeys Hrun) as [Hsame Hother].
  split; [exact Hsame|].
  intros key Hkey. apply Hother. intros relation Hin.
  destruct (m2oRelationsToProcess_In this_collection this_schema data relation Hin)
    as [Hrel [Hcoll [_ Hobj]]].
  destruct Hkey as [Hno|Hplain].
  - eapply relationalField_false; eassumption.
  - intros Heq. rewrite Heq in Hobj. congruence.
Qed.

(** [{title: "t", author: {name: "New"}, page_id: 3}] on [articles]: the
    author is created and replaced by its key. *)
Lemma processM2O_rewrites_nested_objects_only_witness :
  sameKeys [("title", VStr "t"); ("author", VNum 100); ("page_id", VNum 3)]
           [("title", VStr "t"); ("author", VObj [("name", VStr "New")]);
            ("page_id", VNum 3)]
  /\ forall key,
       relationalField Fixture.schema "articles" key = false
       \/ isObject (lookup key [("title", VStr "t");
                                ("author", VObj [("name", VStr "New")]);
                                ("page_id", VNum 3)]) = false ->
       lookup key [("title", VStr "t"); ("author", VNum 100); ("page_id", VNum 3)]
       = lookup key [("title", VStr "t"); ("author", VObj [("name", VStr "New")]);
                     ("page_id", VNum 3)].
Proof.
  exact (@processM2O_rewrites_nested_objects_only Fixture.World Fixture.dataLayer
           Nested.singleWrites "articles" Fixture.schema
           [("title", VStr "t"); ("author", VObj [("name", VStr "New")]);
            ("page_id", VNum 3)]
           [("title", VStr "t"); ("author", VNum 100); ("page_id", VNum 3)]
           [VNum 100] Fixture.world Fixture.world eq_refl).
Defined.

(** X22.  When [processA2O] returns, the payload has the keys of the data
    in the same order, and every field that is not a relation of the
    collection, or did not hold a plain object, holds what it held. *)
Theorem processA2O_rewrites_nested_objects_only
  (W : Type) (D : DataLayer W) (S1 : SingleWrites W) (this_collection : string)
  (this_schema : SchemaOverview) (data payload : list (string * Value))
  (revisions : list Value) (w w' : W)
  (Hrun : processA2O D S1 this_collection this_schema data w
          = Ok ((payload, revisions), w')) :
  sameKeys payload data
  /\ forall key,
       relationalField this_schema this_collection key = false
       \/ isPlainObject (lookup key data) = false ->
       lookup key payload = lookup key data.
Proof.
  unfold processA2O in Hrun.
  assert (Hbody : forall p r s p' revs s',
            processA2ORelation D S1 this_schema p r s = Ok ((p', revs), s') ->
            keptOrAssigned r p p')
    by (intros; eapply processA2ORelation_keptOrAssigned; eassumption).
  assert (Hkeys : forall relation,
            In relation (a2oRelationsToProcess this_collection this_schema data) ->
            hasKey (field relation) data = true)
    by (intros relation Hin; apply a2oRelationsToProcess_In in Hin; tauto).
  destruct (@overRelations_fields W (processA2ORelation D S1 this_schema) Hbody
              (a2oRelationsToProcess this_collection this_schema data)
              data w payload revisions w' Hkeys Hrun) as [Hsame Hother].
  split; [exact Hsame|].
  intros key Hkey. apply Hother. intros relation Hin.
  destruct (a2oRelationsToProcess_In this_collection this_schema data relation Hin)
    as [Hrel [Hcoll [_ Hobj]]].
  destruct Hkey as [Hno|Hplain].
  - eapply relationalField_false; eassumption.
  - intros Heq. rewrite Heq in Hobj. congruence.
Qed.

(** [{collection: "authors", item: {name: "New"}}] on [blocks]. *)
Lemma processA2O_rewrites_nested_objects_only_witness :
  sameKeys [("collection", VStr "authors"); ("item", VNum 100)]
           [("collection", VStr "authors"); ("item", VObj [("name", VStr "New")])]
  /\ forall key,
       relationalField Fixture.schema "blocks" key = false
       \/ isPlainObject (lookup key [("collection", VStr "authors");
                                     ("item", VObj [("name", VStr "New")])]) = false ->
       lookup key [("collection", VStr "authors"); ("item", VNum 100)]
       = lookup key [("collection", VStr "authors");
                     ("item", VObj [("name", VStr "New")])].
Proof.
  exact (@processA2O_rewrites_nested_objects_only Fixture.World Fixture.dataLayer
           Nested.singleWrites "blocks" Fixture.schema
           [("collection", VStr "authors"); ("item", VObj [("name", VStr "New")])]
           [("collection", VStr "authors"); ("item", VNum 100)]
           [VNum 100] Fixture.world Fixture.world eq_refl).
Defined.

(** X23.  A nested many-to-one object that holds nothing but the primary
    key of an existing record writes nothing: [processM2O] puts the key in
    its place, reports no revision and leaves the database alone. *)
Theorem processM2O_existing_key_only
  (W : Type) (D : DataLayer W) (S1 : SingleWrites W) (this_collection : string)
  (this_schema : SchemaOverview) (data : list (string * Value))
  (relation : Relation) (related relatedPrimaryKeyField : string)
  (relatedPrimaryKey : Value) (existing : list (string * Value)) (w : W)
  (Honly : m2oRelationsToProcess this_collection this_schema data = [relation])
  (Hrelated : related_collection relation = Some related)
  (Hnamed : related <> "")
  (Hprimary : primaryOf this_schema related = Ok relatedPrimaryKeyField)
  (Hrecord : lookup (field relation) data
             = VObj [(relatedPrimaryKeyField, relatedPrimaryKey)])
  (Hexists : selectFirst D w related relatedPrimaryKeyField relatedPrimaryKey
             = Some existing) :
  processM2O D S1 this_collection this_schema data w
  = Ok ((assign (field relation) relatedPrimaryKey data, []), w).
Proof.
  unfold processM2O. rewrite Honly. cbn [overRelations]. unfold bind.
  unfold processM2ORelation. rewrite Hrelated.
  apply String.eqb_neq in Hnamed. rewrite Hnamed.
  unfold bind, lift. rewrite Hprimary.
  unfold saveNested. rewrite Hrecord.
  cbn [isStringOrNumber isObject negb ownProps enumerableProps hasKey lookup omit
       List.filter fst].
  rewrite String.eqb_refl. cbn [orb negb List.length Nat.ltb Nat.leb].
  unfold bind, getState. rewrite Hexists. reflexivity.
Qed.

(** [{title: "t", author: {id: 7}}] on [articles]: author 7 exists. *)
Lemma processM2O_existing_key_only_witness :
  processM2O Fixture.dataLayer Nested.singleWrites "articles" Fixture.schema
    [("title", VStr "t"); ("author", VObj [("id", VNum 7)])] Fixture.world
  = Ok (([("title", VStr "t"); ("author", VNum 7)], []), Fixture.world).
Proof.
  refine (@processM2O_existing_key_only Fixture.World Fixture.dataLayer
            Nested.singleWrites "articles" Fixture.schema
            [("title", VStr "t"); ("author", VObj [("id", VNum 7)])]
            Nested.authorOfArticle "authors" "id" (VNum 7)
            [("id", VNum 7); ("name", VStr "Rijk")] Fixture.world
            _ _ _ _ _ _); try reflexivity.
  discriminate.
Defined.

(** X24.  On a many-to-any relation, [processA2O] throws InvalidPayload
    when the payload (as the relations processed before left it) holds a
    falsy value in the collection field, and when it holds a value that
    is not one of the allowed collections; nothing is written for that
    relation. *)
Theorem processA2O_rejects_unset_or_foreign_collection
  (W : Type) (D : DataLayer W) (S1 : SingleWrites W) (this_collection : string)
  (this_schema : SchemaOverview) (data payload : list (string * Value))
  (pre post : list Relation) (relation : Relation) (m : RelationMeta)
  (collectionField : string) (allowedCollections : list string)
  (w0 w : W) (revisions : list Value)
  (Hsplit : a2oRelationsToProcess this_collection this_schema data
            = (pre ++ relation :: post)%list)
  (Hpre : overRelations (processA2ORelation D S1 this_schema) data pre w0
          = Ok ((payload, revisions), w))
  (Hmeta : meta relation = Some m)
  (Hfield : one_collection_field m = Some collectionField)
  (Hnamed : collectionField <> "")
  (Hallowed : one_allowed_collections m = Some allowedCollections) :
  (truthy (lookup collectionField payload) = false ->
   processA2O D S1 this_collection this_schema data w0
   = Throw (missingCollectionField relation collectionField))
  /\ (truthy (lookup collectionField payload) = true ->
      includesValue allowedCollections (lookup collectionField payload) = false ->
      processA2O D S1 this_collection this_schema data w0
      = Throw (collectionNotAllowed relation (lookup collectionField payload))).
Proof.
  apply String.eqb_neq in Hnamed.
  split; [intros Hunset|intros Hset Hforeign];
    unfold processA2O; rewrite Hsplit;
    erewrite overRelations_app by exact Hpre;
    cbn [overRelations]; unfold bind at 1;
    unfold processA2ORelation; rewrite Hmeta, Hfield, Hallowed, Hnamed.
  - rewrite Hunset. reflexivity.
  - rewrite Hset, Hforeign. reflexivity.
Qed.

(** [{item: {title: "x"}}] and [{collection: "pages", item: {title: "x"}}]
    on [blocks], whose items are articles or authors. *)
Lemma processA2O_rejects_unset_or_foreign_collection_witness :
  processA2O Fixture.dataLayer Nested.singleWrites "blocks" Fixture.schema
    [("item", VObj [("title", VStr "x")])] Fixture.world
  = Throw (InvalidPayloadException
             ("Can't update nested record " ++ dquote ++ "blocks.item" ++ dquote
              ++ " without field " ++ dquote ++ "blocks.collection" ++ dquote
              ++ " being set"))
  /\ processA2O Fixture.dataLayer Nested.singleWrites "blocks" Fixture.schema
       [("collection", VStr "pages"); ("item", VObj [("title", VStr "x")])]
       Fixture.world
     = Throw (InvalidPayloadException
                (dquote ++ "blocks.item" ++ dquote
                 ++ " can't be linked to collection " ++ dquote ++ "pages")).
Proof.
  split.
  - refine (proj1
      (@processA2O_rejects_unset_or_foreign_collection Fixture.World
         Fixture.dataLayer Nested.singleWrites "blocks" Fixture.schema
         [("item", VObj [("title", VStr "x")])]
         [("item", VObj [("title", VStr "x")])]
         [] [] Nested.itemOfBlock
         {| one_field := None;
            one_collection_field := Some "collection";
            one_allowed_collections := Some ["articles"; "authors"];
            one_deselect_action := None |}
         "collection" ["articles"; "authors"] Fixture.world Fixture.world []
         _ _ _ _ _ _) _); try reflexivity.
    discriminate.
  - refine (proj2
      (@processA2O_rejects_unset_or_foreign_collection Fixture.World
         Fixture.dataLayer Nested.singleWrites "blocks" Fixture.schema
         [("collection", VStr "pages"); ("item", VObj [("title", VStr "x")])]
         [("collection", VStr "pages"); ("item", VObj [("title", VStr "x")])]
         [] [] Nested.itemOfBlock
         {| one_field := None;
            one_collection_field := Some "collection";
            one_allowed_collections := Some ["articles"; "authors"];
            one_deselect_action := None |}
         "collection" ["articles"; "authors"] Fixture.world Fixture.world []
         _ _ _ _ _ _) _ _); try reflexivity.
    discriminate.
Defined.
